(** * GeoNames API: search, reverse geocoding and bulk ingestion

    A shallow embedding of [src/api/server.js] (the [/search] and [/reverse]
    handlers together with the SQL text they send) and of
    [src/loader/load-data.js] (schema, country seeding, city and
    alternate-name ingestion), followed by the properties of the
    specification that are checked against it.

    Conventions.
    - JavaScript strings are [string]s, one [ascii] per code unit; the case
      mappings ([toLowerCase], [toUpperCase], SQL [LOWER], [ILIKE]) are the
      ASCII ones.
    - The PostgreSQL tables are lists of records in heap order; the store is
      threaded explicitly through a small state-and-log monad [DB], whose
      log records every statement sent through [pool.query].
    - What the database extensions compute ([similarity] and [%] of pg_trgm,
      [ST_Distance] and [ST_DWithin] of PostGIS) and the floating-point
      conversions are section variables.
    - The [/search] statement is read twice: by the rows that its text
      describes ([search_sql], behind the handler [search]), and as
      PostgreSQL takes it ([pg_search_sql], behind [pg_search]), which
      resolves the column types of the [UNION ALL] before any row is
      computed.
    - The loaders are read twice as well: as one pass in file order, every
      statement being awaited before the next line is looked at
      ([loadCitiesData], [loadAlternateNames]), and, for the alternate
      names, event by event as the event loop delivers lines, timers, the
      end of the input and the completions of statements ([deliver]). *)

From Stdlib Require Import ZArith QArith Qround Qabs Lqa Lia Ascii String List Sorted.
From Stdlib Require Import DecimalString.
From stdpp Require Import base option list gmap strings.

Set Default Proof Using "Type".

Local Open Scope string_scope.
Local Open Scope list_scope.
Local Open Scope Z_scope.

(** ** JavaScript and SQL string primitives *)

Module Str.

Definition is_upper (c : ascii) : bool :=
  let n := nat_of_ascii c in (65 <=? n)%nat && (n <=? 90)%nat.

Definition is_lower (c : ascii) : bool :=
  let n := nat_of_ascii c in (97 <=? n)%nat && (n <=? 122)%nat.

Definition lower_ascii (c : ascii) : ascii :=
  if is_upper c then ascii_of_nat (nat_of_ascii c + 32) else c.

Definition upper_ascii (c : ascii) : ascii :=
  if is_lower c then ascii_of_nat (nat_of_ascii c - 32) else c.

Fixpoint map_string (f : ascii -> ascii) (s : string) : string :=
  match s with
  | EmptyString => EmptyString
  | String c s' => String (f c) (map_string f s')
  end.

(** [String.prototype.toLowerCase] / SQL [LOWER]. *)
Definition toLowerCase : string -> string := map_string lower_ascii.

(** [String.prototype.toUpperCase]. *)
Definition toUpperCase : string -> string := map_string upper_ascii.

(** Code units below 128, where the mappings above are the real ones. *)
Definition ascii_only_char (c : ascii) : bool := (nat_of_ascii c <? 128)%nat.

Fixpoint ascii_only (s : string) : bool :=
  match s with
  | EmptyString => true
  | String c s' => ascii_only_char c && ascii_only s'
  end.

(** JavaScript truthiness of a string value. *)
Definition truthy (s : string) : bool :=
  match s with EmptyString => false | _ => true end.

(** Truthiness of a possibly [undefined] / [null] string. *)
Definition truthy_opt (o : option string) : bool :=
  match o with Some s => truthy s | None => false end.

(** SQL [LIKE]: [%] matches any sequence, [_] any single character and a
    backslash escapes the next pattern character.  A pattern that ends in
    a lone backslash is rejected by PostgreSQL; the patterns built by the
    server always end in [%], so that case is never reached and is given
    the value [false]. *)
Fixpoint like (p s : string) {struct p} : bool :=
  match p with
  | EmptyString => match s with EmptyString => true | _ => false end
  | String c p' =>
      if Ascii.eqb c "%" then
        (fix star (s : string) : bool :=
           like p' s
           || match s with EmptyString => false | String _ s' => star s' end) s
      else if Ascii.eqb c "_" then
        match s with EmptyString => false | String _ s' => like p' s' end
      else if Ascii.eqb c "\" then
        match p' with
        | EmptyString => false
        | String e p'' =>
            match s with
            | EmptyString => false
            | String d s' => Ascii.eqb e d && like p'' s'
            end
        end
      else
        match s with
        | EmptyString => false
        | String d s' => Ascii.eqb c d && like p' s'
        end
  end.

(** SQL [s ILIKE p]. *)
Definition ilike (s p : string) : bool := like (toLowerCase p) (toLowerCase s).

(** [s.split(sep)] for a one-character separator. *)
Fixpoint split_aux (sep : ascii) (s : string) (cur : string) : list string :=
  match s with
  | EmptyString => [String.rev cur]
  | String c s' =>
      if Ascii.eqb c sep then String.rev cur :: split_aux sep s' EmptyString
      else split_aux sep s' (String c cur)
  end.

Definition split (sep : ascii) (s : string) : list string :=
  split_aux sep s EmptyString.

(** White space skipped by [parseInt] and [trim] (within the 8-bit
    range). *)
Definition is_ws (c : ascii) : bool :=
  match nat_of_ascii c with
  | 9%nat | 10%nat | 11%nat | 12%nat | 13%nat | 32%nat | 160%nat => true
  | _ => false
  end.

Fixpoint skip_ws (s : string) : string :=
  match s with
  | String c s' => if is_ws c then skip_ws s' else s
  | EmptyString => EmptyString
  end.

(** [String.prototype.trim]. *)
Definition trim (s : string) : string :=
  String.rev (skip_ws (String.rev (skip_ws s))).

Definition digit_val (radix : Z) (c : ascii) : option Z :=
  let n := Z.of_nat (nat_of_ascii c) in
  let v :=
    if (48 <=? n) && (n <=? 57) then Some (n - 48)
    else if (97 <=? n) && (n <=? 122) then Some (n - 87)
    else if (65 <=? n) && (n <=? 90) then Some (n - 55)
    else None in
  match v with
  | Some d => if d <? radix then Some d else None
  | None => None
  end.

(** Longest prefix of digits; [None] when there is no digit at all. *)
Fixpoint parse_digits (radix : Z) (s : string) (acc : option Z) : option Z :=
  match s with
  | EmptyString => acc
  | String c s' =>
      match digit_val radix c with
      | Some d =>
          parse_digits radix s' (Some (radix * default 0 acc + d))
      | None => acc
      end
  end.

Definition strip_hex_prefix (s : string) : option string :=
  match s with
  | String "0" (String x s') =>
      if Ascii.eqb x "x" || Ascii.eqb x "X" then Some s' else None
  | _ => None
  end.

(** [parseInt(s)] without a radix; [None] is [NaN].  The value is the exact
    integer; JavaScript rounds it to a double, which differs only beyond
    2^53. *)
Definition parseInt (s : string) : option Z :=
  let s1 := skip_ws s in
  let '(neg, s2) :=
    match s1 with
    | String "-" r => (true, r)
    | String "+" r => (false, r)
    | _ => (false, s1)
    end in
  let mag :=
    match strip_hex_prefix s2 with
    | Some r => parse_digits 16 r None
    | None => parse_digits 10 s2 None
    end in
  (fun m => if neg then - m else m) <$> mag.

(** [parseInt(v)] of a value that may be [undefined]. *)
Definition parseInt_opt (o : option string) : option Z :=
  match o with Some s => parseInt s | None => None end.

End Str.

(** PostgreSQL range checks of the integer types. *)
Definition int4_ok (n : Z) : bool := (- 2147483648 <=? n) && (n <=? 2147483647).
Definition int8_ok (n : Z) : bool :=
  (- 9223372036854775808 <=? n) && (n <=? 9223372036854775807).

(** A [VARCHAR(n)] / [CHAR(n)] value fits when it has at most [n] characters;
    [NULL] always fits. *)
Definition varchar_ok (n : nat) (v : option string) : bool :=
  match v with Some s => (String.length s <=? n)%nat | None => true end.

(** JavaScript numbers as the loader and the queries use them: a rational
    value or [NaN]. *)
Inductive num : Type :=
  | Num (q : Q)
  | NaN.

(** ** Data model: the tables created by [createTables] *)

(** [countries]: [country_code CHAR(2) PRIMARY KEY], [name VARCHAR(200) NOT
    NULL]; [name_translations] is a JSON object of strings. *)
Record Country : Type := mkCountry {
  co_country_code : string;
  co_name : string;
  co_latitude : option num;
  co_longitude : option num;
  co_spoken_languages : option string;
  co_name_translations : option (gmap string string)
}.

(** [cities]: [geonameid INTEGER PRIMARY KEY], [name VARCHAR(200) NOT NULL];
    every other column is nullable and [country_code] carries no foreign
    key. *)
Record City : Type := mkCity {
  c_geonameid : Z;
  c_name : string;
  c_ascii_name : option string;
  c_alternatenames : option string;
  c_latitude : option num;
  c_longitude : option num;
  c_feature_class : option string;
  c_feature_code : option string;
  c_country_code : option string;
  c_admin1_code : option string;
  c_admin1_name : option string;
  c_population : option Z;
  c_elevation : option Z;
  c_timezone : option string;
  c_modification_date : option string
}.

(** [alternate_names]: [alternatenameid INTEGER PRIMARY KEY]. *)
Record AlternateName : Type := mkAlternateName {
  an_alternatenameid : Z;
  an_geonameid : option Z;
  an_isolanguage : option string;
  an_alternate_name : option string;
  an_is_preferred_name : option bool;
  an_is_short_name : option bool;
  an_is_colloquial : option bool;
  an_is_historic : option bool
}.

(** [country_alternate_names]: [id SERIAL PRIMARY KEY]. *)
Record CountryAlternateName : Type := mkCountryAlternateName {
  can_id : Z;
  can_country_code : option string;
  can_isolanguage : option string;
  can_name : option string
}.

Record Store : Type := mkStore {
  countries : list Country;
  cities : list City;
  alternate_names : list AlternateName;
  country_alternate_names : list CountryAlternateName
}.

Definition empty_store : Store := mkStore [] [] [] [].

Definition set_countries (l : list Country) (s : Store) : Store :=
  mkStore l (cities s) (alternate_names s) (country_alternate_names s).
Definition set_cities (l : list City) (s : Store) : Store :=
  mkStore (countries s) l (alternate_names s) (country_alternate_names s).
Definition set_alternate_names (l : list AlternateName) (s : Store) : Store :=
  mkStore (countries s) (cities s) l (country_alternate_names s).

(** SQL equality of a nullable column with a value: [NULL = v] is not true. *)
Definition eq_col_str (col : option string) (v : string) : bool :=
  match col with Some x => String.eqb x v | None => false end.
Definition eq_col_Z (col : option Z) (v : Z) : bool :=
  match col with Some x => Z.eqb x v | None => false end.

(** Equality of a [CHAR(n)] column with a value: trailing blanks do not
    count. *)
Fixpoint skip_blanks (s : string) : string :=
  match s with
  | String " " s' => skip_blanks s'
  | _ => s
  end.

Definition rtrim_blanks (s : string) : string :=
  String.rev (skip_blanks (String.rev s)).

Definition bpchar_eqb (a b : string) : bool :=
  String.eqb (rtrim_blanks a) (rtrim_blanks b).

Definition eq_col_bpchar (col : option string) (v : string) : bool :=
  match col with Some x => bpchar_eqb x v | None => false end.

(** [SELECT 1 FROM cities WHERE geonameid = id] returns a row. *)
Definition placeExists (s : Store) (id : Z) : bool :=
  existsb (fun c => Z.eqb (c_geonameid c) id) (cities s).

(** ** The state-and-log monad of store accesses *)

(** A value handed to [pool.query] as a parameter: text or a JavaScript
    number. *)
Inductive jsval : Type :=
  | JStr (s : string)
  | JNum (n : num).

(** Parameters of the [/search] statement: [$1], [$2], then the optional
    country code, the optional type and the limit ([None] is [NaN]). *)
Record SearchParams : Type := mkSearchParams {
  sp_q : string;
  sp_pattern : string;
  sp_country : option string;
  sp_type : option string;
  sp_limit : option Z
}.

(** The row objects of the two dumps, field by field as the loader reads
    them ([None] is [undefined]). *)
Record CityCsvRow : Type := mkCityCsvRow {
  cr_geonameid : option string;
  cr_name : option string;
  cr_asciiname : option string;
  cr_alternatenames : option string;
  cr_latitude : option string;
  cr_longitude : option string;
  cr_feature_class : option string;
  cr_feature_code : option string;
  cr_country_code : option string;
  cr_admin1_code : option string;
  cr_population : option string;
  cr_elevation : option string;
  cr_timezone : option string;
  cr_modification_date : option string
}.

Record AltRow : Type := mkAltRow {
  ar_alternatenameid : string;
  ar_geonameid : string;
  ar_isolanguage : string;
  ar_alternate_name : string;
  ar_is_preferred_name : string;
  ar_is_short_name : string;
  ar_is_colloquial : string;
  ar_is_historic : string
}.

(** A seed object of [loadCountriesData]: [code], [name], [lat], [lng],
    [languages] and the parsed [translations]. *)
Record CountrySeed : Type := mkCountrySeed {
  seed_code : string;
  seed_name : string;
  seed_lat : num;
  seed_lng : num;
  seed_languages : string;
  seed_translations : gmap string string
}.

(** One constructor per statement text that the sources send. *)
Inductive Statement : Type :=
  | SqlSearch (p : SearchParams)
  | SqlReverse (lat lon : string) (radius : jsval)
  | SqlDropCityConstraint
  | SqlDropAlternateNameConstraint
  | SqlUpsertCountry (c : CountrySeed)
  | SqlCountCities
  | SqlInsertCity (r : CityCsvRow)
  | SqlCountAlternateNames
  | SqlSelectCity (id : option Z)
  | SqlInsertAlternateName (r : AltRow).

Definition DB (A : Type) : Type := Store -> A * Store * list Statement.

Definition ret {A} (a : A) : DB A := fun s => (a, s, []).

Definition bind {A B} (m : DB A) (k : A -> DB B) : DB B :=
  fun s =>
    let '(a, s1, l1) := m s in
    let '(b, s2, l2) := k a s1 in
    (b, s2, l1 ++ l2).

Notation "x <- m ;; k" := (bind m (fun x => k))
  (at level 100, m at next level, right associativity).

Definition result {A} (r : A * Store * list Statement) : A := r.1.1.
Definition final {A} (r : A * Store * list Statement) : Store := r.1.2.
Definition trace {A} (r : A * Store * list Statement) : list Statement := r.2.

(** A statement that only reads: the answer is a function of the store. *)
Definition query {A} (st : Statement) (f : Store -> A) : DB A :=
  fun s => (f s, s, [st]).

(** A statement that may write: [None] is a raised error, which leaves the
    store as it was. *)
Definition execute (st : Statement) (f : Store -> option Store) : DB (option unit) :=
  fun s =>
    match f s with
    | Some s' => (Some tt, s', [st])
    | None => (None, s, [st])
    end.

(** ** Generic SQL operators *)

(** [a LEFT JOIN bs ON on]: the matching rows, or one all-[NULL] row. *)
Definition left_join {B} (on : B -> bool) (bs : list B) : list (option B) :=
  match List.filter on bs with
  | [] => [None]
  | l => Some <$> l
  end.

Definition qmax (a b : Q) : Q := if Qle_bool a b then b else a.

(** [GREATEST(x, ...)] with a first argument that is not [NULL]; [NULL]
    arguments are ignored. *)
Definition GREATEST (x : Q) (rest : list (option Q)) : Q :=
  foldl (fun acc o => match o with Some y => qmax acc y | None => acc end) x rest.

(** The [MAX] aggregate: [NULL] inputs are ignored, no input gives [NULL]. *)
Definition MAX (l : list (option Q)) : option Q :=
  foldl (fun acc o =>
           match acc, o with
           | Some a, Some y => Some (qmax a y)
           | None, Some y => Some y
           | _, None => acc
           end) None l.

Definition COALESCE {A} (o : option A) (d : A) : A := default d o.

(** [json_object_agg(k, v) FILTER (WHERE k IS NOT NULL AND v IS NOT NULL)] as
    the driver hands it to JavaScript: the pairs in row order, a later key
    replacing an earlier equal one; [NULL] when no row passes the filter. *)
Definition non_null_pair (kv : option string * option string)
  : option (string * string) :=
  match kv with
  | (Some k, Some v) => Some (k, v)
  | _ => None
  end.

Definition json_object_agg (rows : list (option string * option string))
  : option (gmap string string) :=
  match omap non_null_pair rows with
  | [] => None
  | kvs => Some (foldl (fun m kv => <[kv.1 := kv.2]> m) ∅ kvs)
  end.

(** Stable insertion sort, the model of [ORDER BY]. *)
Fixpoint insert_by {A} (le : A -> A -> bool) (x : A) (l : list A) : list A :=
  match l with
  | [] => [x]
  | y :: l' => if le x y then x :: l else y :: insert_by le x l'
  end.

Definition sort_by {A} (le : A -> A -> bool) (l : list A) : list A :=
  foldr (insert_by le) [] l.

(** Ordering of [double precision] values: [NaN] sorts after every number. *)
Definition num_le (a b : num) : bool :=
  match a, b with
  | Num x, Num y => Qle_bool x y
  | _, NaN => true
  | NaN, Num _ => false
  end.

(** A number sent as a parameter for an [integer] position: its decimal
    text is accepted when the number is an integer. *)
Definition num_as_integer_text (n : num) : option Z :=
  match n with
  | Num q => if Qeq_bool q (inject_Z (Qfloor q)) then Some (Qfloor q) else None
  | NaN => None
  end.

(** ** Rows returned to the handlers *)

(** The columns of [search_results] that the handler reads, with the
    [geonameid] and [ascii_name] columns kept for reference. *)
Record SearchRow : Type := mkSearchRow {
  sr_type : string;
  sr_geonameid : option Z;
  sr_name : string;
  sr_ascii_name : option string;
  sr_country_code : option string;
  sr_country_name : string;
  sr_admin_region : option string;
  sr_latitude : option num;
  sr_longitude : option num;
  sr_spoken_languages : option string;
  sr_country_translations : option (gmap string string);
  sr_score : Q;
  sr_name_translations_agg : option (gmap string string)
}.

Record ReverseRow : Type := mkReverseRow {
  rr_type : string;
  rr_geonameid : Z;
  rr_name : string;
  rr_country_code : option string;
  rr_country_name : string;
  rr_admin_region : option string;
  rr_latitude : option num;
  rr_longitude : option num;
  rr_spoken_languages : option string;
  rr_distance_km : num
}.

(** [parseFloat] of a numeric column as the driver returns it. *)
Definition parseFloat_col (v : option num) : num := default NaN v.

(** The formatted results. *)
Record SearchResult : Type := mkSearchResult {
  res_type : string;
  res_name : string;
  res_country_code : option string;
  res_country_name : string;
  res_coordinates : num * num;
  res_admin_region : option (option string);
  res_spoken_languages : option (list string);
  res_name_translations : gmap string string
}.

(** [x.toFixed(2)]: the integer [n] for which [n / 100] is closest to [x],
    the larger one on a tie, applied to the magnitude and printed with the
    sign; the result is the number of hundredths printed, [None] for
    ["NaN"]. *)
Definition toFixed2 (x : num) : option Z :=
  match x with
  | Num q =>
      if Qle_bool 0 q then Some (Qfloor (q * 100 + (1 # 2))%Q)
      else Some (- Qfloor ((- q) * 100 + (1 # 2))%Q)
  | NaN => None
  end.

Record ReverseResult : Type := mkReverseResult {
  rv_type : string;
  rv_name : string;
  rv_country_code : option string;
  rv_country_name : string;
  rv_admin_region : option string;
  rv_coordinates : num * num;
  rv_distance_km : option Z
}.

(** The two validation messages of the handlers. *)
Inductive ValidationError : Type :=
  | QueryRequiredAtLeast2Characters
  | LatAndLonRequired.

Inductive Response (A : Type) : Type :=
  | Ok200 (results : list A) (count : nat)
  | Err400 (error : ValidationError)
  | Err500.
Arguments Ok200 {A} _ _.
Arguments Err400 {A} _.
Arguments Err500 {A}.

(** ** Executable instances of the extensions

    Small instances of what the model leaves open, used to run it on
    concrete stores: trigram similarity after the pg_trgm documentation, a
    planar stand-in for the PostGIS distance, and decimal input
    conversions. *)

Module PgTrgm.

Definition is_alnum (c : ascii) : bool :=
  match Str.digit_val 36 c with Some _ => true | None => false end.

(** The maximal runs of alphanumeric characters. *)
Fixpoint words_aux (s : string) (cur : string) : list string :=
  match s with
  | EmptyString =>
      match cur with EmptyString => [] | _ => [String.rev cur] end
  | String c s' =>
      if is_alnum c then words_aux s' (String c cur)
      else match cur with
           | EmptyString => words_aux s' EmptyString
           | _ => String.rev cur :: words_aux s' EmptyString
           end
  end.

Definition words (s : string) : list string := words_aux s EmptyString.

Fixpoint windows (s : string) : list string :=
  match s with
  | String a t =>
      match t with
      | String b (String c _) =>
          String a (String b (String c EmptyString)) :: windows t
      | _ => []
      end
  | EmptyString => []
  end.

(** Each word is padded with two blanks in front and one behind. *)
Definition word_trigrams (w : string) : list string :=
  windows ("  " ++ w ++ " ").

Definition trigrams (s : string) : list string :=
  remove_dups (flat_map word_trigrams (words (Str.toLowerCase s))).

Definition shared (a b : list string) : list string :=
  List.filter (fun t => existsb (String.eqb t) b) a.

(** Shared trigrams over all trigrams. *)
Definition similarity (a b : string) : Q :=
  let ta := trigrams a in
  let tb := trigrams b in
  let n := length (shared ta tb) in
  let u := (length ta + length tb - n)%nat in
  match u with
  | O => 0%Q
  | S _ => (Z.of_nat n # Pos.of_nat u)%Q
  end.

(** The operator [%] with the default threshold 0.3. *)
Definition trgm_match (a b : string) : bool :=
  Qle_bool (3 # 10) (similarity a b).

End PgTrgm.

Module Planar.

Definition qabs (x : Q) : Q := if Qle_bool 0 x then x else (- x)%Q.

(** Meters between two points [(longitude, latitude)], 111320 m to the
    degree along both axes. *)
Definition ST_Distance (p1 p2 : num * num) : num :=
  match p1, p2 with
  | (Num x1, Num y1), (Num x2, Num y2) =>
      Num (111320 * (qabs (x1 - x2) + qabs (y1 - y2)))%Q
  | _, _ => NaN
  end.

Definition ST_DWithin (p1 p2 : num * num) (d : Q) : bool :=
  match ST_Distance p1 p2 with
  | Num x => Qle_bool x d
  | NaN => false
  end.

End Planar.

Module Decimal.

Fixpoint digits_val (s : string) (acc : Z) : option Z :=
  match s with
  | EmptyString => Some acc
  | String c r =>
      match Str.digit_val 10 c with
      | Some d => digits_val r (10 * acc + d)
      | None => None
      end
  end.

Definition natural (s : string) : option Z :=
  match s with
  | EmptyString => None
  | _ => digits_val s 0
  end.

Definition unsigned (s : string) : option Q :=
  match Str.split "." s with
  | [i] => inject_Z <$> natural i
  | [i; f] =>
      n ← natural i;
      m ← natural f;
      Some (inject_Z n + inject_Z m / inject_Z (10 ^ Z.of_nat (String.length f)))%Q
  | _ => None
  end.

(** Decimal text with an optional sign and fraction. *)
Definition decimal (s : string) : option Q :=
  match s with
  | String "-" r => Qopp <$> unsigned r
  | _ => unsigned s
  end.

Definition pg_float8_in (s : string) : option num := Num <$> decimal s.

Definition pg_int4_in (s : string) : option Z :=
  n ← (match s with
       | String "-" r => Z.opp <$> natural r
       | _ => natural s
       end);
  if int4_ok n then Some n else None.

Definition parseFloat (v : option string) : num :=
  match v ≫= decimal with
  | Some q => Num q
  | None => NaN
  end.

Definition pg_date_in (s : string) : option string := Some s.

End Decimal.

(** ** Stores and requests used to run the model *)

Module Sample.

Definition spain : Country :=
  mkCountry "ES" "Spain" (Some (Num 40)) (Some (Num (-4)))
            (Some "es-ES,ca,gl,eu,oc") (Some {["en" := "Spain"]}).

Definition sevilla : City :=
  mkCity 2510911 "Sevilla" (Some "Sevilla") None
         (Some (Num (3738283 # 100000))) (Some (Num (- 597317 # 100000)))
         (Some "P") (Some "PPLA") (Some "ES") (Some "51") None
         (Some 684234) None (Some "Europe/Madrid") (Some "2023-05-12").

Definition seville_en : AlternateName :=
  mkAlternateName 1 (Some 2510911) (Some "en") (Some "Seville")
                  (Some true) (Some false) (Some false) (Some false).

Definition hispalis_la : AlternateName :=
  mkAlternateName 2 (Some 2510911) (Some "la") (Some "Hispalis")
                  (Some false) (Some false) (Some false) (Some true).

(** One country, one place and its two alternate names, as the loader
    stores them. *)
Definition sevilla_store : Store :=
  mkStore [spain] [sevilla] [seville_en; hispalis_la] [].

Definition congo_cd : Country :=
  mkCountry "CD" "Democratic Republic of the Congo" (Some (Num 0)) (Some (Num 25))
            (Some "fr") (Some {["en" := "Democratic Republic of the Congo"]}).

Definition congo_cg : Country :=
  mkCountry "CG" "Republic of the Congo" (Some (Num (-1))) (Some (Num 15))
            (Some "fr") (Some {["en" := "Republic of the Congo"]}).

(** The two dump lines of the alternate names of Sevilla, a line of a
    place that is not stored, and a line with too few fields. *)
Definition tab1 : string := String (ascii_of_nat 9) EmptyString.

Definition line (cols : list string) : string :=
  foldr (fun c acc => match acc with
                      | EmptyString => c
                      | _ => (c ++ tab1 ++ acc)%string
                      end) EmptyString cols.

Definition line_seville : string :=
  line ["1"; "2510911"; "en"; "Seville"; "1"; "0"; "0"; "0"; "x"; "y"].
Definition line_hispalis : string :=
  line ["2"; "2510911"; "la"; "Hispalis"; "0"; "0"; "0"; "1"; "x"; "y"].
Definition line_orphan : string :=
  line ["3"; "999"; "fr"; "Nulle Part"; "0"; "0"; "0"; "0"; "x"; "y"].
Definition line_short : string :=
  line ["4"; "2510911"; "es"; "Sevilla"].

(** The store before the alternate names are loaded. *)
Definition places_store : Store := mkStore [spain] [sevilla] [] [].

Definition sevilla_csv : CityCsvRow :=
  mkCityCsvRow (Some "2510911") (Some "Sevilla") (Some "Sevilla") None
               (Some "37.38283") (Some "-5.97317") (Some "P") (Some "PPLA")
               (Some "ES") (Some "51") (Some "684234") None
               (Some "Europe/Madrid") (Some "2023-05-12").

(** A place whose country code is the code of no stored country. *)
Definition atlantis_csv : CityCsvRow :=
  mkCityCsvRow (Some "42") (Some "Atlantis") (Some "Atlantis") None
               (Some "37.4") (Some "-6.0") (Some "P") (Some "PPL")
               (Some "ZZ") None None None None None.

Definition atlantis : City :=
  mkCity 42 "Atlantis" (Some "Atlantis") None
         (Some (Num (374 # 10))) (Some (Num (- 6))) (Some "P") (Some "PPL")
         (Some "ZZ") None None None None None None.

(** Sevilla with its country, and Atlantis without one. *)
Definition atlantis_store : Store :=
  mkStore [spain] [sevilla; atlantis] [seville_en; hispalis_la] [].

(** Two places near Sevilla: Camas across the river, and Dos Hermanas some
    20 km to the south-east. *)
Definition camas : City :=
  mkCity 2520118 "Camas" (Some "Camas") None
         (Some (Num (3740202 # 100000))) (Some (Num (- 603314 # 100000)))
         (Some "P") (Some "PPL") (Some "ES") (Some "51") None
         (Some 25706) None (Some "Europe/Madrid") (Some "2023-05-12").

Definition dos_hermanas : City :=
  mkCity 2518559 "Dos Hermanas" (Some "Dos Hermanas") None
         (Some (Num (3728287 # 100000))) (Some (Num (- 592088 # 100000)))
         (Some "P") (Some "PPL") (Some "ES") (Some "51") None
         (Some 122943) None (Some "Europe/Madrid") (Some "2023-05-12").

Definition near_store : Store :=
  mkStore [spain] [dos_hermanas; sevilla; camas] [] [].



Definition row_seville : AltRow :=
  mkAltRow "1" "2510911" "en" "Seville" "1" "0" "0" "0".

(** A dump of 250 lines, each an English name of Sevilla with an id of its
    own. *)
Definition decimal_text (n : nat) : string :=
  NilEmpty.string_of_uint (Nat.to_uint n).

Definition dump_line (id : nat) : string :=
  line [decimal_text id; "2510911"; "en"; "Seville"; "1"; "0"; "0"; "0"; "x"; "y"].

Definition dump250 : list string := dump_line <$> seq 1 250.

Definition row_orphan : AltRow :=
  mkAltRow "3" "999" "fr" "Nulle Part" "0" "0" "0" "0".

End Sample.

(** ** Gated routes *)

(** What a guarded route answers: the 401 of the middleware, or what the
    handler behind it answers. *)
Inductive Gated (A : Type) : Type :=
  | Unauthorized401
  | Next (a : A).
Arguments Unauthorized401 {A}.
Arguments Next {A} _.

(** ** The seed lists of [loadCountriesData]

    The array [countries] of the loader and the shorter one of the second
    version of the loader that the file holds, each [translations] text parsed as the JSON object it is.
    Characters outside ASCII are the bytes of their UTF-8 form. *)

Module Seeds.

(** The 249 seeds of the loader. *)
Definition countries : list CountrySeed :=
  [ mkCountrySeed "AD" "Andorra" (Num (425 # 10)) (Num (15 # 10)) "ca"
    {["en" := "Andorra"]};
    mkCountrySeed "AE" "United Arab Emirates" (Num 24) (Num 54) "ar"
    {["en" := "United Arab Emirates"]};
    mkCountrySeed "AF" "Afghanistan" (Num 33) (Num 65) "fa,ps"
    {["en" := "Afghanistan"]};
    mkCountrySeed "AG" "Antigua and Barbuda" (Num (1705 # 100)) (Num ((-618) # 10)) "en"
    {["en" := "Antigua and Barbuda"]};
    mkCountrySeed "AI" "Anguilla" (Num (1825 # 100)) (Num ((-6317) # 100)) "en"
    {["en" := "Anguilla"]};
    mkCountrySeed "AL" "Albania" (Num 41) (Num 20) "sq"
    {["en" := "Albania"]};
    mkCountrySeed "AM" "Armenia" (Num 40) (Num 45) "hy"
    {["en" := "Armenia"]};
    mkCountrySeed "AO" "Angola" (Num ((-125) # 10)) (Num (185 # 10)) "pt"
    {["en" := "Angola"]};
    mkCountrySeed "AQ" "Antarctica" (Num (-90)) (Num 0) EmptyString
    {["en" := "Antarctica"]};
    mkCountrySeed "AR" "Argentina" (Num (-34)) (Num (-64)) "es"
    {["en" := "Argentina"]};
    mkCountrySeed "AS" "American Samoa" (Num ((-1433) # 100)) (Num (-170)) "en"
    {["en" := "American Samoa"]};
    mkCountrySeed "AT" "Austria" (Num (4733 # 100)) (Num (1333 # 100)) "de"
    {["en" := "Austria"]};
    mkCountrySeed "AU" "Australia" (Num (-27)) (Num 133) "en"
    {["en" := "Australia"]};
    mkCountrySeed "AW" "Aruba" (Num (125 # 10)) (Num ((-6997) # 100)) "nl"
    {["en" := "Aruba"]};
    mkCountrySeed "AX" "Åland Islands" (Num (6012 # 100)) (Num (199 # 10)) "sv"
    {["en" := "Åland Islands"]};
    mkCountrySeed "AZ" "Azerbaijan" (Num (405 # 10)) (Num (475 # 10)) "az"
    {["en" := "Azerbaijan"]};
    mkCountrySeed "BA" "Bosnia and Herzegovina" (Num 44) (Num 18) "bs,hr,sr"
    {["en" := "Bosnia and Herzegovina"]};
    mkCountrySeed "BB" "Barbados" (Num (1317 # 100)) (Num ((-5953) # 100)) "en"
    {["en" := "Barbados"]};
    mkCountrySeed "BD" "Bangladesh" (Num 24) (Num 90) "bn"
    {["en" := "Bangladesh"]};
    mkCountrySeed "BE" "Belgium" (Num (5083 # 100)) (Num 4) "nl,fr,de"
    {["en" := "Belgium"]};
    mkCountrySeed "BF" "Burkina Faso" (Num 13) (Num (-2)) "fr"
    {["en" := "Burkina Faso"]};
    mkCountrySeed "BG" "Bulgaria" (Num 43) (Num 25) "bg"
    {["en" := "Bulgaria"]};
    mkCountrySeed "BH" "Bahrain" (Num 26) (Num (5055 # 100)) "ar"
    {["en" := "Bahrain"]};
    mkCountrySeed "BI" "Burundi" (Num ((-35) # 10)) (Num 30) "rn,fr"
    {["en" := "Burundi"]};
    mkCountrySeed "BJ" "Benin" (Num (95 # 10)) (Num (225 # 100)) "fr"
    {["en" := "Benin"]};
    mkCountrySeed "BL" "Saint Barthélemy" (Num (179 # 10)) (Num ((-6283) # 100)) "fr"
    {["en" := "Saint Barthélemy"]};
    mkCountrySeed "BM" "Bermuda" (Num (3233 # 100)) (Num ((-6475) # 100)) "en"
    {["en" := "Bermuda"]};
    mkCountrySeed "BN" "Brunei" (Num (45 # 10)) (Num (11467 # 100)) "ms"
    {["en" := "Brunei"]};
    mkCountrySeed "BO" "Bolivia" (Num (-17)) (Num (-65)) "es,qu,ay"
    {["en" := "Bolivia"]};
    mkCountrySeed "BQ" "Bonaire" (Num (1215 # 100)) (Num ((-6827) # 100)) "nl"
    {["en" := "Bonaire"]};
    mkCountrySeed "BR" "Brazil" (Num (-10)) (Num (-55)) "pt"
    {["en" := "Brazil"]};
    mkCountrySeed "BS" "Bahamas" (Num (2425 # 100)) (Num (-76)) "en"
    {["en" := "Bahamas"]};
    mkCountrySeed "BT" "Bhutan" (Num (275 # 10)) (Num (905 # 10)) "dz"
    {["en" := "Bhutan"]};
    mkCountrySeed "BV" "Bouvet Island" (Num ((-5443) # 100)) (Num (34 # 10)) EmptyString
    {["en" := "Bouvet Island"]};
    mkCountrySeed "BW" "Botswana" (Num (-22)) (Num 24) "en,tn"
    {["en" := "Botswana"]};
    mkCountrySeed "BY" "Belarus" (Num 53) (Num 28) "be,ru"
    {["en" := "Belarus"]};
    mkCountrySeed "BZ" "Belize" (Num (1725 # 100)) (Num ((-8875) # 100)) "en"
    {["en" := "Belize"]};
    mkCountrySeed "CA" "Canada" (Num 60) (Num (-95)) "en,fr"
    {["en" := "Canada"]};
    mkCountrySeed "CC" "Cocos Islands" (Num ((-125) # 10)) (Num (9683 # 100)) "en"
    {["en" := "Cocos Islands"]};
    mkCountrySeed "CD" "Democratic Republic of the Congo" (Num 0) (Num 25) "fr"
    {["en" := "Democratic Republic of the Congo"]};
    mkCountrySeed "CF" "Central African Republic" (Num 7) (Num 21) "fr"
    {["en" := "Central African Republic"]};
    mkCountrySeed "CG" "Republic of the Congo" (Num (-1)) (Num 15) "fr"
    {["en" := "Republic of the Congo"]};
    mkCountrySeed "CH" "Switzerland" (Num 47) (Num 8) "de,fr,it,rm"
    {["en" := "Switzerland"]};
    mkCountrySeed "CI" "Ivory Coast" (Num 8) (Num (-5)) "fr"
    {["en" := "Ivory Coast"]};
    mkCountrySeed "CK" "Cook Islands" (Num ((-2123) # 100)) (Num ((-15977) # 100)) "en"
    {["en" := "Cook Islands"]};
    mkCountrySeed "CL" "Chile" (Num (-30)) (Num (-71)) "es"
    {["en" := "Chile"]};
    mkCountrySeed "CM" "Cameroon" (Num 6) (Num 12) "en,fr"
    {["en" := "Cameroon"]};
    mkCountrySeed "CN" "China" (Num 35) (Num 105) "zh"
    {["en" := "China"]};
    mkCountrySeed "CO" "Colombia" (Num 4) (Num (-72)) "es"
    {["en" := "Colombia"]};
    mkCountrySeed "CR" "Costa Rica" (Num 10) (Num (-84)) "es"
    {["en" := "Costa Rica"]};
    mkCountrySeed "CU" "Cuba" (Num (215 # 10)) (Num (-80)) "es"
    {["en" := "Cuba"]};
    mkCountrySeed "CV" "Cape Verde" (Num 16) (Num (-24)) "pt"
    {["en" := "Cape Verde"]};
    mkCountrySeed "CW" "Curaçao" (Num (1217 # 100)) (Num (-69)) "nl"
    {["en" := "Curaçao"]};
    mkCountrySeed "CX" "Christmas Island" (Num ((-105) # 10)) (Num (10567 # 100)) "en"
    {["en" := "Christmas Island"]};
    mkCountrySeed "CY" "Cyprus" (Num 35) (Num 33) "el,tr"
    {["en" := "Cyprus"]};
    mkCountrySeed "CZ" "Czech Republic" (Num (4975 # 100)) (Num (155 # 10)) "cs"
    {["en" := "Czech Republic"]};
    mkCountrySeed "DE" "Germany" (Num (511657 # 10000)) (Num (104515 # 10000)) "de"
    (list_to_map [("en", "Germany"); ("es", "Alemania"); ("fr", "Allemagne"); ("de", "Deutschland")]);
    mkCountrySeed "DJ" "Djibouti" (Num (115 # 10)) (Num 43) "fr,ar"
    {["en" := "Djibouti"]};
    mkCountrySeed "DK" "Denmark" (Num 56) (Num 10) "da"
    {["en" := "Denmark"]};
    mkCountrySeed "DM" "Dominica" (Num (1542 # 100)) (Num ((-6133) # 100)) "en"
    {["en" := "Dominica"]};
    mkCountrySeed "DO" "Dominican Republic" (Num 19) (Num ((-7067) # 100)) "es"
    {["en" := "Dominican Republic"]};
    mkCountrySeed "DZ" "Algeria" (Num 28) (Num 3) "ar"
    {["en" := "Algeria"]};
    mkCountrySeed "EC" "Ecuador" (Num (-2)) (Num ((-775) # 10)) "es"
    {["en" := "Ecuador"]};
    mkCountrySeed "EE" "Estonia" (Num 59) (Num 26) "et"
    {["en" := "Estonia"]};
    mkCountrySeed "EG" "Egypt" (Num 27) (Num 30) "ar"
    {["en" := "Egypt"]};
    mkCountrySeed "EH" "Western Sahara" (Num (245 # 10)) (Num (-13)) "ar"
    {["en" := "Western Sahara"]};
    mkCountrySeed "ER" "Eritrea" (Num 15) (Num 39) "ti,ar"
    {["en" := "Eritrea"]};
    mkCountrySeed "ES" "Spain" (Num 40) (Num (-4)) "es"
    {["en" := "Spain"]};
    mkCountrySeed "ET" "Ethiopia" (Num 8) (Num 38) "am"
    {["en" := "Ethiopia"]};
    mkCountrySeed "FI" "Finland" (Num 64) (Num 26) "fi,sv"
    {["en" := "Finland"]};
    mkCountrySeed "FJ" "Fiji" (Num (-18)) (Num 175) "en,fj"
    {["en" := "Fiji"]};
    mkCountrySeed "FK" "Falkland Islands" (Num ((-5175) # 100)) (Num (-59)) "en"
    {["en" := "Falkland Islands"]};
    mkCountrySeed "FM" "Micronesia" (Num (692 # 100)) (Num (15825 # 100)) "en"
    {["en" := "Micronesia"]};
    mkCountrySeed "FO" "Faroe Islands" (Num 62) (Num (-7)) "fo"
    {["en" := "Faroe Islands"]};
    mkCountrySeed "FR" "France" (Num (462276 # 10000)) (Num (22137 # 10000)) "fr"
    (list_to_map [("en", "France"); ("es", "Francia"); ("fr", "France"); ("de", "Frankreich")]);
    mkCountrySeed "GA" "Gabon" (Num (-1)) (Num (1175 # 100)) "fr"
    {["en" := "Gabon"]};
    mkCountrySeed "GB" "United Kingdom" (Num (547023 # 10000)) (Num ((-32765) # 10000)) "en,cy,gd"
    (list_to_map [("en", "United Kingdom"); ("es", "Reino Unido"); ("fr", "Royaume-Uni"); ("de", "Vereinigtes Königreich")]);
    mkCountrySeed "GD" "Grenada" (Num (1212 # 100)) (Num ((-6167) # 100)) "en"
    {["en" := "Grenada"]};
    mkCountrySeed "GE" "Georgia" (Num 42) (Num (435 # 10)) "ka"
    {["en" := "Georgia"]};
    mkCountrySeed "GF" "French Guiana" (Num 4) (Num (-53)) "fr"
    {["en" := "French Guiana"]};
    mkCountrySeed "GG" "Guernsey" (Num (495 # 10)) (Num ((-256) # 100)) "en"
    {["en" := "Guernsey"]};
    mkCountrySeed "GH" "Ghana" (Num 8) (Num (-2)) "en"
    {["en" := "Ghana"]};
    mkCountrySeed "GI" "Gibraltar" (Num (3618 # 100)) (Num ((-537) # 100)) "en"
    {["en" := "Gibraltar"]};
    mkCountrySeed "GL" "Greenland" (Num 72) (Num (-40)) "kl,da"
    {["en" := "Greenland"]};
    mkCountrySeed "GM" "Gambia" (Num (1347 # 100)) (Num ((-1657) # 100)) "en"
    {["en" := "Gambia"]};
    mkCountrySeed "GN" "Guinea" (Num 11) (Num (-10)) "fr"
    {["en" := "Guinea"]};
    mkCountrySeed "GP" "Guadeloupe" (Num (1625 # 100)) (Num ((-6158) # 100)) "fr"
    {["en" := "Guadeloupe"]};
    mkCountrySeed "GQ" "Equatorial Guinea" (Num 2) (Num 10) "es,fr"
    {["en" := "Equatorial Guinea"]};
    mkCountrySeed "GR" "Greece" (Num 39) (Num 22) "el"
    {["en" := "Greece"]};
    mkCountrySeed "GS" "South Georgia" (Num ((-545) # 10)) (Num (-37)) "en"
    {["en" := "South Georgia"]};
    mkCountrySeed "GT" "Guatemala" (Num (155 # 10)) (Num ((-9025) # 100)) "es"
    {["en" := "Guatemala"]};
    mkCountrySeed "GU" "Guam" (Num (1347 # 100)) (Num (14478 # 100)) "en"
    {["en" := "Guam"]};
    mkCountrySeed "GW" "Guinea-Bissau" (Num 12) (Num (-15)) "pt"
    {["en" := "Guinea-Bissau"]};
    mkCountrySeed "GY" "Guyana" (Num 5) (Num (-59)) "en"
    {["en" := "Guyana"]};
    mkCountrySeed "HK" "Hong Kong" (Num (2227 # 100)) (Num (11418 # 100)) "zh,en"
    {["en" := "Hong Kong"]};
    mkCountrySeed "HM" "Heard Island" (Num ((-531) # 10)) (Num (7252 # 100)) EmptyString
    {["en" := "Heard Island"]};
    mkCountrySeed "HN" "Honduras" (Num 15) (Num ((-865) # 10)) "es"
    {["en" := "Honduras"]};
    mkCountrySeed "HR" "Croatia" (Num (4517 # 100)) (Num (155 # 10)) "hr"
    {["en" := "Croatia"]};
    mkCountrySeed "HT" "Haiti" (Num 19) (Num ((-7242) # 100)) "fr,ht"
    {["en" := "Haiti"]};
    mkCountrySeed "HU" "Hungary" (Num 47) (Num 20) "hu"
    {["en" := "Hungary"]};
    mkCountrySeed "ID" "Indonesia" (Num (-5)) (Num 120) "id"
    {["en" := "Indonesia"]};
    mkCountrySeed "IE" "Ireland" (Num 53) (Num (-8)) "en,ga"
    {["en" := "Ireland"]};
    mkCountrySeed "IL" "Israel" (Num (315 # 10)) (Num (3475 # 100)) "he,ar"
    {["en" := "Israel"]};
    mkCountrySeed "IM" "Isle of Man" (Num (5423 # 100)) (Num ((-455) # 100)) "en"
    {["en" := "Isle of Man"]};
    mkCountrySeed "IN" "India" (Num 20) (Num 77) "hi,en"
    {["en" := "India"]};
    mkCountrySeed "IO" "British Indian Ocean Territory" (Num (-6)) (Num (715 # 10)) "en"
    {["en" := "British Indian Ocean Territory"]};
    mkCountrySeed "IQ" "Iraq" (Num 33) (Num 44) "ar,ku"
    {["en" := "Iraq"]};
    mkCountrySeed "IR" "Iran" (Num 32) (Num 53) "fa"
    {["en" := "Iran"]};
    mkCountrySeed "IS" "Iceland" (Num 65) (Num (-18)) "is"
    {["en" := "Iceland"]};
    mkCountrySeed "IT" "Italy" (Num (4283 # 100)) (Num (1283 # 100)) "it"
    {["en" := "Italy"]};
    mkCountrySeed "JE" "Jersey" (Num (4921 # 100)) (Num ((-213) # 100)) "en"
    {["en" := "Jersey"]};
    mkCountrySeed "JM" "Jamaica" (Num (1825 # 100)) (Num ((-775) # 10)) "en"
    {["en" := "Jamaica"]};
    mkCountrySeed "JO" "Jordan" (Num 31) (Num 36) "ar"
    {["en" := "Jordan"]};
    mkCountrySeed "JP" "Japan" (Num (362048 # 10000)) (Num (1382529 # 10000)) "ja"
    (list_to_map [("en", "Japan"); ("es", "Japón"); ("fr", "Japon"); ("de", "Japan"); ("ja", "日本")]);
    mkCountrySeed "KE" "Kenya" (Num 1) (Num 38) "en,sw"
    {["en" := "Kenya"]};
    mkCountrySeed "KG" "Kyrgyzstan" (Num 41) (Num 75) "ky,ru"
    {["en" := "Kyrgyzstan"]};
    mkCountrySeed "KH" "Cambodia" (Num 13) (Num 105) "km"
    {["en" := "Cambodia"]};
    mkCountrySeed "KI" "Kiribati" (Num (142 # 100)) (Num 173) "en"
    {["en" := "Kiribati"]};
    mkCountrySeed "KM" "Comoros" (Num ((-1217) # 100)) (Num (4425 # 100)) "ar,fr"
    {["en" := "Comoros"]};
    mkCountrySeed "KN" "Saint Kitts and Nevis" (Num (1733 # 100)) (Num ((-6275) # 100)) "en"
    {["en" := "Saint Kitts and Nevis"]};
    mkCountrySeed "KP" "North Korea" (Num 40) (Num 127) "ko"
    {["en" := "North Korea"]};
    mkCountrySeed "KR" "South Korea" (Num 37) (Num (1275 # 10)) "ko"
    {["en" := "South Korea"]};
    mkCountrySeed "KW" "Kuwait" (Num (2934 # 100)) (Num (4766 # 100)) "ar"
    {["en" := "Kuwait"]};
    mkCountrySeed "KY" "Cayman Islands" (Num (195 # 10)) (Num ((-805) # 10)) "en"
    {["en" := "Cayman Islands"]};
    mkCountrySeed "KZ" "Kazakhstan" (Num 48) (Num 68) "kk,ru"
    {["en" := "Kazakhstan"]};
    mkCountrySeed "LA" "Laos" (Num 18) (Num 105) "lo"
    {["en" := "Laos"]};
    mkCountrySeed "LB" "Lebanon" (Num (3383 # 100)) (Num (3583 # 100)) "ar,fr"
    {["en" := "Lebanon"]};
    mkCountrySeed "LC" "Saint Lucia" (Num (1388 # 100)) (Num ((-6113) # 100)) "en"
    {["en" := "Saint Lucia"]};
    mkCountrySeed "LI" "Liechtenstein" (Num (4717 # 100)) (Num (953 # 100)) "de"
    {["en" := "Liechtenstein"]};
    mkCountrySeed "LK" "Sri Lanka" (Num 7) (Num 81) "si,ta"
    {["en" := "Sri Lanka"]};
    mkCountrySeed "LR" "Liberia" (Num (65 # 10)) (Num ((-95) # 10)) "en"
    {["en" := "Liberia"]};
    mkCountrySeed "LS" "Lesotho" (Num ((-295) # 10)) (Num (285 # 10)) "en,st"
    {["en" := "Lesotho"]};
    mkCountrySeed "LT" "Lithuania" (Num 56) (Num 24) "lt"
    {["en" := "Lithuania"]};
    mkCountrySeed "LU" "Luxembourg" (Num (4975 # 100)) (Num (617 # 100)) "lb,fr,de"
    {["en" := "Luxembourg"]};
    mkCountrySeed "LV" "Latvia" (Num 57) (Num 25) "lv"
    {["en" := "Latvia"]};
    mkCountrySeed "LY" "Libya" (Num 25) (Num 17) "ar"
    {["en" := "Libya"]};
    mkCountrySeed "MA" "Morocco" (Num 32) (Num (-5)) "ar"
    {["en" := "Morocco"]};
    mkCountrySeed "MC" "Monaco" (Num (4373 # 100)) (Num (74 # 10)) "fr"
    {["en" := "Monaco"]};
    mkCountrySeed "MD" "Moldova" (Num 47) (Num 29) "ro"
    {["en" := "Moldova"]};
    mkCountrySeed "ME" "Montenegro" (Num 42) (Num 19) "sr"
    {["en" := "Montenegro"]};
    mkCountrySeed "MF" "Saint Martin" (Num (1808 # 100)) (Num ((-6395) # 100)) "fr"
    {["en" := "Saint Martin"]};
    mkCountrySeed "MG" "Madagascar" (Num (-20)) (Num 47) "fr,mg"
    {["en" := "Madagascar"]};
    mkCountrySeed "MH" "Marshall Islands" (Num 9) (Num 168) "en"
    {["en" := "Marshall Islands"]};
    mkCountrySeed "MK" "North Macedonia" (Num (4183 # 100)) (Num 22) "mk"
    {["en" := "North Macedonia"]};
    mkCountrySeed "ML" "Mali" (Num 17) (Num (-4)) "fr"
    {["en" := "Mali"]};
    mkCountrySeed "MM" "Myanmar" (Num 22) (Num 98) "my"
    {["en" := "Myanmar"]};
    mkCountrySeed "MN" "Mongolia" (Num 46) (Num 105) "mn"
    {["en" := "Mongolia"]};
    mkCountrySeed "MO" "Macao" (Num (2217 # 100)) (Num (11355 # 100)) "zh,pt"
    {["en" := "Macao"]};
    mkCountrySeed "MP" "Northern Mariana Islands" (Num (152 # 10)) (Num (14575 # 100)) "en"
    {["en" := "Northern Mariana Islands"]};
    mkCountrySeed "MQ" "Martinique" (Num (1467 # 100)) (Num (-61)) "fr"
    {["en" := "Martinique"]};
    mkCountrySeed "MR" "Mauritania" (Num 20) (Num (-12)) "ar"
    {["en" := "Mauritania"]};
    mkCountrySeed "MS" "Montserrat" (Num (1675 # 100)) (Num ((-622) # 10)) "en"
    {["en" := "Montserrat"]};
    mkCountrySeed "MT" "Malta" (Num (3583 # 100)) (Num (1458 # 100)) "mt,en"
    {["en" := "Malta"]};
    mkCountrySeed "MU" "Mauritius" (Num ((-2028) # 100)) (Num (5755 # 100)) "en,fr"
    {["en" := "Mauritius"]};
    mkCountrySeed "MV" "Maldives" (Num (325 # 100)) (Num 73) "dv"
    {["en" := "Maldives"]};
    mkCountrySeed "MW" "Malawi" (Num ((-135) # 10)) (Num 34) "en,ny"
    {["en" := "Malawi"]};
    mkCountrySeed "MX" "Mexico" (Num 23) (Num (-102)) "es"
    {["en" := "Mexico"]};
    mkCountrySeed "MY" "Malaysia" (Num (25 # 10)) (Num (1125 # 10)) "ms"
    {["en" := "Malaysia"]};
    mkCountrySeed "MZ" "Mozambique" (Num ((-1825) # 100)) (Num 35) "pt"
    {["en" := "Mozambique"]};
    mkCountrySeed "NA" "Namibia" (Num (-22)) (Num 17) "en,af"
    {["en" := "Namibia"]};
    mkCountrySeed "NC" "New Caledonia" (Num ((-215) # 10)) (Num (1655 # 10)) "fr"
    {["en" := "New Caledonia"]};
    mkCountrySeed "NE" "Niger" (Num 16) (Num 8) "fr"
    {["en" := "Niger"]};
    mkCountrySeed "NF" "Norfolk Island" (Num ((-2904) # 100)) (Num (16795 # 100)) "en"
    {["en" := "Norfolk Island"]};
    mkCountrySeed "NG" "Nigeria" (Num 10) (Num 8) "en"
    {["en" := "Nigeria"]};
    mkCountrySeed "NI" "Nicaragua" (Num 13) (Num (-85)) "es"
    {["en" := "Nicaragua"]};
    mkCountrySeed "NL" "Netherlands" (Num (525 # 10)) (Num (575 # 100)) "nl"
    {["en" := "Netherlands"]};
    mkCountrySeed "NO" "Norway" (Num 62) (Num 10) "no"
    {["en" := "Norway"]};
    mkCountrySeed "NP" "Nepal" (Num 28) (Num 84) "ne"
    {["en" := "Nepal"]};
    mkCountrySeed "NR" "Nauru" (Num ((-53) # 100)) (Num (16692 # 100)) "na,en"
    {["en" := "Nauru"]};
    mkCountrySeed "NU" "Niue" (Num ((-1903) # 100)) (Num ((-16987) # 100)) "en"
    {["en" := "Niue"]};
    mkCountrySeed "NZ" "New Zealand" (Num (-41)) (Num 174) "en,mi"
    {["en" := "New Zealand"]};
    mkCountrySeed "OM" "Oman" (Num 21) (Num 57) "ar"
    {["en" := "Oman"]};
    mkCountrySeed "PA" "Panama" (Num 9) (Num (-80)) "es"
    {["en" := "Panama"]};
    mkCountrySeed "PE" "Peru" (Num (-10)) (Num (-76)) "es,qu"
    {["en" := "Peru"]};
    mkCountrySeed "PF" "French Polynesia" (Num (-15)) (Num (-140)) "fr"
    {["en" := "French Polynesia"]};
    mkCountrySeed "PG" "Papua New Guinea" (Num (-6)) (Num 147) "en"
    {["en" := "Papua New Guinea"]};
    mkCountrySeed "PH" "Philippines" (Num 13) (Num 122) "en,tl"
    {["en" := "Philippines"]};
    mkCountrySeed "PK" "Pakistan" (Num 30) (Num 70) "ur,en"
    {["en" := "Pakistan"]};
    mkCountrySeed "PL" "Poland" (Num 52) (Num 20) "pl"
    {["en" := "Poland"]};
    mkCountrySeed "PM" "Saint Pierre and Miquelon" (Num (4683 # 100)) (Num ((-5633) # 100)) "fr"
    {["en" := "Saint Pierre and Miquelon"]};
    mkCountrySeed "PN" "Pitcairn" (Num ((-247) # 10)) (Num ((-1274) # 10)) "en"
    {["en" := "Pitcairn"]};
    mkCountrySeed "PR" "Puerto Rico" (Num (1825 # 100)) (Num ((-665) # 10)) "es,en"
    {["en" := "Puerto Rico"]};
    mkCountrySeed "PS" "Palestine" (Num 32) (Num (3525 # 100)) "ar"
    {["en" := "Palestine"]};
    mkCountrySeed "PT" "Portugal" (Num (395 # 10)) (Num (-8)) "pt"
    {["en" := "Portugal"]};
    mkCountrySeed "PW" "Palau" (Num (75 # 10)) (Num (1345 # 10)) "en"
    {["en" := "Palau"]};
    mkCountrySeed "PY" "Paraguay" (Num (-23)) (Num (-58)) "es,gn"
    {["en" := "Paraguay"]};
    mkCountrySeed "QA" "Qatar" (Num (255 # 10)) (Num (5125 # 100)) "ar"
    {["en" := "Qatar"]};
    mkCountrySeed "RE" "Réunion" (Num ((-211) # 10)) (Num (556 # 10)) "fr"
    {["en" := "Réunion"]};
    mkCountrySeed "RO" "Romania" (Num 46) (Num 25) "ro"
    {["en" := "Romania"]};
    mkCountrySeed "RS" "Serbia" (Num 44) (Num 21) "sr"
    {["en" := "Serbia"]};
    mkCountrySeed "RU" "Russia" (Num 60) (Num 100) "ru"
    {["en" := "Russia"]};
    mkCountrySeed "RW" "Rwanda" (Num (-2)) (Num 30) "rw,en,fr"
    {["en" := "Rwanda"]};
    mkCountrySeed "SA" "Saudi Arabia" (Num 25) (Num 45) "ar"
    {["en" := "Saudi Arabia"]};
    mkCountrySeed "SB" "Solomon Islands" (Num (-8)) (Num 159) "en"
    {["en" := "Solomon Islands"]};
    mkCountrySeed "SC" "Seychelles" (Num ((-458) # 100)) (Num (5567 # 100)) "en,fr"
    {["en" := "Seychelles"]};
    mkCountrySeed "SD" "Sudan" (Num 15) (Num 30) "ar,en"
    {["en" := "Sudan"]};
    mkCountrySeed "SE" "Sweden" (Num 62) (Num 15) "sv"
    {["en" := "Sweden"]};
    mkCountrySeed "SG" "Singapore" (Num (137 # 100)) (Num (1038 # 10)) "en,ms,ta,zh"
    {["en" := "Singapore"]};
    mkCountrySeed "SH" "Saint Helena" (Num ((-1593) # 100)) (Num ((-57) # 10)) "en"
    {["en" := "Saint Helena"]};
    mkCountrySeed "SI" "Slovenia" (Num 46) (Num 15) "sl"
    {["en" := "Slovenia"]};
    mkCountrySeed "SJ" "Svalbard" (Num 78) (Num 20) "no"
    {["en" := "Svalbard"]};
    mkCountrySeed "SK" "Slovakia" (Num (4867 # 100)) (Num (195 # 10)) "sk"
    {["en" := "Slovakia"]};
    mkCountrySeed "SL" "Sierra Leone" (Num (85 # 10)) (Num ((-115) # 10)) "en"
    {["en" := "Sierra Leone"]};
    mkCountrySeed "SM" "San Marino" (Num (4393 # 100)) (Num (1246 # 100)) "it"
    {["en" := "San Marino"]};
    mkCountrySeed "SN" "Senegal" (Num 14) (Num (-14)) "fr"
    {["en" := "Senegal"]};
    mkCountrySeed "SO" "Somalia" (Num 10) (Num 49) "so,ar"
    {["en" := "Somalia"]};
    mkCountrySeed "SR" "Suriname" (Num 4) (Num (-56)) "nl"
    {["en" := "Suriname"]};
    mkCountrySeed "SS" "South Sudan" (Num 8) (Num 30) "en"
    {["en" := "South Sudan"]};
    mkCountrySeed "ST" "São Tomé and Príncipe" (Num 1) (Num 7) "pt"
    {["en" := "São Tomé and Príncipe"]};
    mkCountrySeed "SV" "El Salvador" (Num (1383 # 100)) (Num ((-8892) # 100)) "es"
    {["en" := "El Salvador"]};
    mkCountrySeed "SX" "Sint Maarten" (Num (1803 # 100)) (Num ((-6305) # 100)) "nl,en"
    {["en" := "Sint Maarten"]};
    mkCountrySeed "SY" "Syria" (Num 35) (Num 38) "ar"
    {["en" := "Syria"]};
    mkCountrySeed "SZ" "Eswatini" (Num ((-265) # 10)) (Num (315 # 10)) "en,ss"
    {["en" := "Eswatini"]};
    mkCountrySeed "TC" "Turks and Caicos Islands" (Num (2175 # 100)) (Num ((-7158) # 100)) "en"
    {["en" := "Turks and Caicos Islands"]};
    mkCountrySeed "TD" "Chad" (Num 15) (Num 19) "fr,ar"
    {["en" := "Chad"]};
    mkCountrySeed "TF" "French Southern Territories" (Num ((-4925) # 100)) (Num (6917 # 100)) "fr"
    {["en" := "French Southern Territories"]};
    mkCountrySeed "TG" "Togo" (Num 8) (Num (117 # 100)) "fr"
    {["en" := "Togo"]};
    mkCountrySeed "TH" "Thailand" (Num 15) (Num 100) "th"
    {["en" := "Thailand"]};
    mkCountrySeed "TJ" "Tajikistan" (Num 39) (Num 71) "tg,ru"
    {["en" := "Tajikistan"]};
    mkCountrySeed "TK" "Tokelau" (Num (-9)) (Num (-172)) "en"
    {["en" := "Tokelau"]};
    mkCountrySeed "TL" "East Timor" (Num ((-855) # 100)) (Num (12552 # 100)) "pt,tet"
    {["en" := "East Timor"]};
    mkCountrySeed "TM" "Turkmenistan" (Num 40) (Num 60) "tk"
    {["en" := "Turkmenistan"]};
    mkCountrySeed "TN" "Tunisia" (Num 34) (Num 9) "ar"
    {["en" := "Tunisia"]};
    mkCountrySeed "TO" "Tonga" (Num (-20)) (Num (-175)) "en,to"
    {["en" := "Tonga"]};
    mkCountrySeed "TR" "Turkey" (Num 39) (Num 35) "tr"
    {["en" := "Turkey"]};
    mkCountrySeed "TT" "Trinidad and Tobago" (Num 11) (Num (-61)) "en"
    {["en" := "Trinidad and Tobago"]};
    mkCountrySeed "TV" "Tuvalu" (Num (-8)) (Num 178) "en"
    {["en" := "Tuvalu"]};
    mkCountrySeed "TW" "Taiwan" (Num (235 # 10)) (Num 121) "zh"
    {["en" := "Taiwan"]};
    mkCountrySeed "TZ" "Tanzania" (Num (-6)) (Num 35) "sw,en"
    {["en" := "Tanzania"]};
    mkCountrySeed "UA" "Ukraine" (Num 49) (Num 32) "uk"
    {["en" := "Ukraine"]};
    mkCountrySeed "UG" "Uganda" (Num 1) (Num 32) "en,sw"
    {["en" := "Uganda"]};
    mkCountrySeed "UM" "United States Minor Outlying Islands" (Num (1928 # 100)) (Num (1666 # 10)) "en"
    {["en" := "United States Minor Outlying Islands"]};
    mkCountrySeed "US" "United States" (Num (398283 # 10000)) (Num ((-985795) # 10000)) "en"
    (list_to_map [("en", "United States"); ("es", "Estados Unidos"); ("fr", "États-Unis"); ("de", "Vereinigte Staaten")]);
    mkCountrySeed "UY" "Uruguay" (Num (-33)) (Num (-56)) "es"
    {["en" := "Uruguay"]};
    mkCountrySeed "UZ" "Uzbekistan" (Num 41) (Num 64) "uz,ru"
    {["en" := "Uzbekistan"]};
    mkCountrySeed "VA" "Vatican City" (Num (419 # 10)) (Num (1245 # 100)) "it,la"
    {["en" := "Vatican City"]};
    mkCountrySeed "VC" "Saint Vincent and the Grenadines" (Num (1325 # 100)) (Num ((-612) # 10)) "en"
    {["en" := "Saint Vincent and the Grenadines"]};
    mkCountrySeed "VE" "Venezuela" (Num 8) (Num (-66)) "es"
    {["en" := "Venezuela"]};
    mkCountrySeed "VG" "British Virgin Islands" (Num (185 # 10)) (Num ((-645) # 10)) "en"
    {["en" := "British Virgin Islands"]};
    mkCountrySeed "VI" "United States Virgin Islands" (Num (1835 # 100)) (Num ((-6493) # 100)) "en"
    {["en" := "United States Virgin Islands"]};
    mkCountrySeed "VN" "Vietnam" (Num 16) (Num 106) "vi"
    {["en" := "Vietnam"]};
    mkCountrySeed "VU" "Vanuatu" (Num (-16)) (Num 167) "bi,en,fr"
    {["en" := "Vanuatu"]};
    mkCountrySeed "WF" "Wallis and Futuna" (Num ((-133) # 10)) (Num ((-1762) # 10)) "fr"
    {["en" := "Wallis and Futuna"]};
    mkCountrySeed "WS" "Samoa" (Num ((-1358) # 100)) (Num ((-17233) # 100)) "sm,en"
    {["en" := "Samoa"]};
    mkCountrySeed "YE" "Yemen" (Num 15) (Num 48) "ar"
    {["en" := "Yemen"]};
    mkCountrySeed "YT" "Mayotte" (Num ((-1283) # 100)) (Num (4517 # 100)) "fr"
    {["en" := "Mayotte"]};
    mkCountrySeed "ZA" "South Africa" (Num (-29)) (Num 24) "af,en,nr,st,ss,tn,ts,ve,xh,zu"
    {["en" := "South Africa"]};
    mkCountrySeed "ZM" "Zambia" (Num (-15)) (Num 30) "en"
    {["en" := "Zambia"]};
    mkCountrySeed "ZW" "Zimbabwe" (Num (-20)) (Num 30) "en,sn,nd"
    {["en" := "Zimbabwe"]} ].

(** The five seeds of the second version. *)
Definition countries_second : list CountrySeed :=
  [ mkCountrySeed "US" "United States" (Num (398283 # 10000)) (Num ((-985795) # 10000)) "en"
    (list_to_map [("en", "United States"); ("es", "Estados Unidos"); ("fr", "États-Unis"); ("de", "Vereinigte Staaten")]);
    mkCountrySeed "GB" "United Kingdom" (Num (547023 # 10000)) (Num ((-32765) # 10000)) "en,cy,gd"
    (list_to_map [("en", "United Kingdom"); ("es", "Reino Unido"); ("fr", "Royaume-Uni"); ("de", "Vereinigtes Königreich")]);
    mkCountrySeed "FR" "France" (Num (462276 # 10000)) (Num (22137 # 10000)) "fr"
    (list_to_map [("en", "France"); ("es", "Francia"); ("fr", "France"); ("de", "Frankreich")]);
    mkCountrySeed "DE" "Germany" (Num (511657 # 10000)) (Num (104515 # 10000)) "de"
    (list_to_map [("en", "Germany"); ("es", "Alemania"); ("fr", "Allemagne"); ("de", "Deutschland")]);
    mkCountrySeed "JP" "Japan" (Num (362048 # 10000)) (Num (1382529 # 10000)) "ja"
    (list_to_map [("en", "Japan"); ("es", "Japón"); ("fr", "Japon"); ("de", "Japan"); ("ja", "日本")]) ].

End Seeds.

(** ** [GET /search]: the statement as PostgreSQL takes it *)

(** The types of the columns of the statement; [PgUnknown] is the type of a
    string literal and of [NULL]. *)
Inductive PgType : Type :=
  | PgUnknown
  | PgText
  | PgVarchar
  | PgBpchar
  | PgInt4
  | PgNumeric
  | PgFloat8
  | PgJson
  | PgJsonb.

#[global] Instance PgType_eq_dec : EqDecision PgType.
Proof. solve_decision. Defined.

(** The type categories of [pg_type.typcategory]: strings, numbers, and
    the category of [json] and [jsonb]. *)
Inductive PgCategory : Type :=
  | CategoryString
  | CategoryNumeric
  | CategoryUser
  | CategoryUnknown.

#[global] Instance PgCategory_eq_dec : EqDecision PgCategory.
Proof. solve_decision. Defined.

Definition pg_category (t : PgType) : PgCategory :=
  match t with
  | PgUnknown => CategoryUnknown
  | PgText | PgVarchar | PgBpchar => CategoryString
  | PgInt4 | PgNumeric | PgFloat8 => CategoryNumeric
  | PgJson | PgJsonb => CategoryUser
  end.

(** The preferred types of the two categories that have one. *)
Definition pg_preferred (t : PgType) : bool :=
  match t with
  | PgText | PgFloat8 => true
  | _ => false
  end.

(** The casts of [pg_cast] that are applied implicitly, among these types.
    Between [json] and [jsonb] there is none. *)
Definition pg_implicit_cast (a b : PgType) : bool :=
  match a, b with
  | PgInt4, PgNumeric | PgInt4, PgFloat8 | PgNumeric, PgFloat8 => true
  | PgVarchar, PgText | PgBpchar, PgText | PgBpchar, PgVarchar => true
  | PgText, PgVarchar | PgText, PgBpchar | PgVarchar, PgBpchar => true
  | _, _ => false
  end.

(** The type of a column of [A UNION ALL B] from its type in [A] and in
    [B], by the rules for [UNION] of the PostgreSQL manual: equal types
    are kept, two unknown ones become [text], an unknown one gives way to
    the other; two types of different categories fail; otherwise the first
    type is the candidate, replaced by the second when it is not preferred
    and casts implicitly to the second but not back, and both inputs must
    be of the candidate type or cast to it implicitly.  [None] is the
    error. *)
Definition union_type (a b : PgType) : option PgType :=
  if bool_decide (a = b) then
    Some (if bool_decide (a = PgUnknown) then PgText else a)
  else if bool_decide (a = PgUnknown) then Some b
  else if bool_decide (b = PgUnknown) then Some a
  else if negb (bool_decide (pg_category a = pg_category b)) then None
  else
    let candidate :=
      if negb (pg_preferred a) && pg_implicit_cast a b
         && negb (pg_implicit_cast b a)
      then b else a in
    if (bool_decide (a = candidate) || pg_implicit_cast a candidate)
       && (bool_decide (b = candidate) || pg_implicit_cast b candidate)
    then Some candidate
    else None.

(** The columns of [A UNION ALL B]: the names are those of [A], and the two
    lists must be of one length. *)
Fixpoint union_all (l r : list (string * PgType))
  : option (list (string * PgType)) :=
  match l, r with
  | [], [] => Some []
  | (name, a) :: l', (_, b) :: r' =>
      t ← union_type a b;
      rest ← union_all l' r';
      Some ((name, t) :: rest)
  | _, _ => None
  end.

(** The select list of the city branch with the types of its expressions:
    the columns of [cities] and [countries] as [createTables] declares
    them, [score] a [CASE] over integers and a product with [similarity],
    and [name_translations_agg] a [COALESCE] of [json_object_agg] and
    ['{}'::json]. *)
Definition search_city_columns : list (string * PgType) :=
  [ ("type", PgUnknown);
    ("geonameid", PgInt4);
    ("name", PgVarchar);
    ("ascii_name", PgVarchar);
    ("country_code", PgBpchar);
    ("country_name", PgVarchar);
    ("admin_region", PgVarchar);
    ("latitude", PgNumeric);
    ("longitude", PgNumeric);
    ("alternatenames", PgText);
    ("spoken_languages", PgText);
    ("country_translations", PgJsonb);
    ("score", PgFloat8);
    ("name_translations_agg", PgJson) ].

(** The select list of the country branch: two [NULL]s, and
    [co.name_translations], a [JSONB] column, as
    [name_translations_agg]. *)
Definition search_country_columns : list (string * PgType) :=
  [ ("type", PgUnknown);
    ("geonameid", PgUnknown);
    ("name", PgVarchar);
    ("ascii_name", PgVarchar);
    ("country_code", PgBpchar);
    ("country_name", PgVarchar);
    ("admin_region", PgUnknown);
    ("latitude", PgNumeric);
    ("longitude", PgNumeric);
    ("alternatenames", PgText);
    ("spoken_languages", PgText);
    ("country_translations", PgJsonb);
    ("score", PgFloat8);
    ("name_translations_agg", PgJsonb) ].

(** The columns of [search_results]; [None] when the statement is
    rejected. *)
Definition search_results_columns : option (list (string * PgType)) :=
  union_all search_city_columns search_country_columns.

Section Geonames.

(** ** What the extensions and the floating-point conversions compute *)

(** pg_trgm: [similarity(a, b)] and the operator [a % b]. *)
Variable similarity : string -> string -> Q.
Variable trgm_match : string -> string -> bool.

(** The collation behind [ORDER BY name ASC]. *)
Variable collate_le : string -> string -> bool.

(** PostGIS on [geography] points [(longitude, latitude)]:
    [ST_Distance] in meters and [ST_DWithin]. *)
Variable ST_Distance : num * num -> num * num -> num.
Variable ST_DWithin : num * num -> num * num -> Q -> bool.

(** PostgreSQL's input conversions of a text parameter to
    [double precision] and to [integer]; [None] is a raised error. *)
Variable pg_float8_in : string -> option num.
Variable pg_int4_in : string -> option Z.

(** JavaScript's [parseFloat] on a value that may be [undefined]. *)
Variable parseFloat : option string -> num.

(** PostgreSQL's input conversion of a text parameter to [DATE]. *)
Variable pg_date_in : string -> option string.

(** Forget the section variables that a goal does not mention. *)
Ltac forget_extensions :=
  try clear similarity; try clear trgm_match; try clear collate_le;
  try clear ST_Distance; try clear ST_DWithin; try clear pg_float8_in;
  try clear pg_int4_in; try clear parseFloat; try clear pg_date_in.

(** ** [GET /search]: the statement *)

Definition lower_eq (a q : string) : bool :=
  String.eqb (Str.toLowerCase a) (Str.toLowerCase q).

Definition lower_eq_col (col : option string) (q : string) : bool :=
  match col with Some a => lower_eq a q | None => false end.

Definition ilike_col (col : option string) (pat : string) : bool :=
  match col with Some a => Str.ilike a pat | None => false end.

Definition trgm_col (col : option string) (q : string) : bool :=
  match col with Some a => trgm_match a q | None => false end.

Definition similarity_col (col : option string) (q : string) : option Q :=
  (fun a => similarity a q) <$> col.

(** The [WHERE] clause of the city branch on one joined row. *)
Definition city_where (q pat : string) (c : City) (alt : option AlternateName)
  : bool :=
  Str.ilike (c_name c) pat
  || ilike_col (c_ascii_name c) pat
  || trgm_match (c_name c) q
  || trgm_col (c_ascii_name c) q
  || ilike_col (alt ≫= an_alternate_name) pat
  || trgm_col (alt ≫= an_alternate_name) q.

(** The [CASE] of the city branch; [grp] is the group of joined rows that
    the aggregate [MAX] ranges over, while the [EXISTS] sub-selects read
    the table itself. *)
Definition city_score (s : Store) (q pat : string) (c : City)
    (grp : list (option AlternateName)) : Q :=
  if lower_eq (c_name c) q then 100
  else if lower_eq_col (c_ascii_name c) q then 95
  else if existsb (fun alt => eq_col_Z (an_geonameid alt) (c_geonameid c)
                              && lower_eq_col (an_alternate_name alt) q)
                  (alternate_names s) then 90
  else if Str.ilike (c_name c) pat then 80
  else if ilike_col (c_ascii_name c) pat then 75
  else if existsb (fun alt => eq_col_Z (an_geonameid alt) (c_geonameid c)
                              && ilike_col (an_alternate_name alt) pat)
                  (alternate_names s) then 70
  else (GREATEST (similarity (c_name c) q)
          [ similarity_col (c_ascii_name c) q;
            Some (COALESCE
                    (MAX ((fun alt => similarity_col (alt ≫= an_alternate_name) q)
                            <$> grp)) 0%Q) ] * 10)%Q.

(** The joined rows of a city that the [WHERE] clause keeps: its group. *)
Definition city_group (s : Store) (q pat : string) (c : City)
  : list (option AlternateName) :=
  List.filter (city_where q pat c)
    (left_join (fun alt => eq_col_Z (an_geonameid alt) (c_geonameid c))
               (alternate_names s)).

(** The output row of a group of the city branch. *)
Definition city_row (s : Store) (q pat : string) (c : City) (co : Country)
    (grp : list (option AlternateName)) : SearchRow :=
  {| sr_type := "city";
     sr_geonameid := Some (c_geonameid c);
     sr_name := c_name c;
     sr_ascii_name := c_ascii_name c;
     sr_country_code := c_country_code c;
     sr_country_name := co_name co;
     sr_admin_region := c_admin1_name c;
     sr_latitude := c_latitude c;
     sr_longitude := c_longitude c;
     sr_spoken_languages := co_spoken_languages co;
     sr_country_translations := co_name_translations co;
     sr_score := city_score s q pat c grp;
     sr_name_translations_agg :=
       Some (COALESCE
               (json_object_agg
                  ((fun alt => (alt ≫= an_isolanguage, alt ≫= an_alternate_name))
                     <$> grp))
               ∅) |}.

(** [cities c JOIN countries co ON c.country_code = co.country_code]. *)
Definition countries_of (s : Store) (c : City) : list Country :=
  List.filter (fun co => eq_col_str (c_country_code c) (co_country_code co))
              (countries s).

(** The city branch.  [geonameid] and [country_code] are primary keys, so
    every pair of a city and its country is one group of the [GROUP BY];
    a group with no row left by the [WHERE] clause yields nothing. *)
Definition search_cities (s : Store) (q pat : string) : list SearchRow :=
  flat_map (fun c =>
    flat_map (fun co =>
      match city_group s q pat c with
      | [] => []
      | _ :: _ => [city_row s q pat c co (city_group s q pat c)]
      end)
      (countries_of s c))
    (cities s).

Definition country_where (q pat : string) (co : Country)
    (alt : option CountryAlternateName) : bool :=
  Str.ilike (co_name co) pat
  || trgm_match (co_name co) q
  || ilike_col (alt ≫= can_name) pat
  || trgm_col (alt ≫= can_name) q.

(** The [CASE] of the country branch, in the order of its [WHEN]s. *)
Definition country_score (s : Store) (q pat : string) (co : Country)
    (grp : list (option CountryAlternateName)) : Q :=
  if lower_eq (co_name co) q then 100
  else if Str.ilike (co_name co) pat then 80
  else if existsb (fun alt => eq_col_str (can_country_code alt) (co_country_code co)
                              && lower_eq_col (can_name alt) q)
                  (country_alternate_names s) then 90
  else if existsb (fun alt => eq_col_str (can_country_code alt) (co_country_code co)
                              && ilike_col (can_name alt) pat)
                  (country_alternate_names s) then 70
  else (GREATEST (similarity (co_name co) q)
          [ Some (COALESCE
                    (MAX ((fun alt => similarity_col (alt ≫= can_name) q) <$> grp))
                    0%Q) ] * 10)%Q.

Definition country_group (s : Store) (q pat : string) (co : Country)
  : list (option CountryAlternateName) :=
  List.filter (country_where q pat co)
    (left_join (fun alt => eq_col_str (can_country_code alt) (co_country_code co))
               (country_alternate_names s)).

Definition country_row (s : Store) (q pat : string) (co : Country)
    (grp : list (option CountryAlternateName)) : SearchRow :=
  {| sr_type := "country";
     sr_geonameid := None;
     sr_name := co_name co;
     sr_ascii_name := Some (co_name co);
     sr_country_code := Some (co_country_code co);
     sr_country_name := co_name co;
     sr_admin_region := None;
     sr_latitude := co_latitude co;
     sr_longitude := co_longitude co;
     sr_spoken_languages := co_spoken_languages co;
     sr_country_translations := co_name_translations co;
     sr_score := country_score s q pat co grp;
     sr_name_translations_agg := co_name_translations co |}.

Definition search_countries (s : Store) (q pat : string) : list SearchRow :=
  flat_map (fun co =>
    match country_group s q pat co with
    | [] => []
    | _ :: _ => [country_row s q pat co (country_group s q pat co)]
    end)
    (countries s).

(** [ORDER BY score DESC, name ASC]. *)
Definition search_order (a b : SearchRow) : bool :=
  negb (Qle_bool (sr_score a) (sr_score b))
  || (Qeq_bool (sr_score a) (sr_score b) && collate_le (sr_name a) (sr_name b)).

(** The whole statement with its optional [WHERE] clauses and its [LIMIT],
    read by the rows that its text describes; [None] is an error raised
    for a limit that is not a non-negative [bigint].  The types of the
    columns play no part in this reading: [pg_search_sql] below is the
    statement as PostgreSQL takes it, which rejects the [UNION ALL] of the
    [json] column [name_translations_agg] of the city branch with the
    [jsonb] column of the country branch before any row is computed. *)
Definition search_sql (p : SearchParams) (s : Store) : option (list SearchRow) :=
  let rows := search_cities s (sp_q p) (sp_pattern p)
              ++ search_countries s (sp_q p) (sp_pattern p) in
  let rows :=
    match sp_country p with
    | Some cc => List.filter (fun r => eq_col_bpchar (sr_country_code r) cc) rows
    | None => rows
    end in
  let rows :=
    match sp_type p with
    | Some t => List.filter (fun r => String.eqb (sr_type r) t) rows
    | None => rows
    end in
  match sp_limit p with
  | Some n =>
      if (0 <=? n) && int8_ok n
      then Some (take (Z.to_nat n) (sort_by search_order rows))
      else None
  | None => None
  end.

(** ** [GET /search]: the handler *)

Record SearchReq : Type := mkSearchReq {
  rq_q : option string;
  rq_country : option string;
  rq_type : option string;
  rq_autocomplete : option string;
  rq_limit : option string
}.

(** [limit = autocomplete === 'true' ? 10 : 20], then [parseInt(limit)]. *)
Definition search_limit (rq : SearchReq) : option Z :=
  match rq_limit rq with
  | Some l => Str.parseInt l
  | None =>
      if String.eqb (default "false" (rq_autocomplete rq)) "true"
      then Some 10 else Some 20
  end.

Definition search_params (q : string) (rq : SearchReq) : SearchParams :=
  {| sp_q := q;
     sp_pattern := "%" ++ q ++ "%";
     sp_country :=
       match rq_country rq with
       | Some c => if Str.truthy c then Some (Str.toUpperCase c) else None
       | None => None
       end;
     sp_type :=
       match rq_type rq with
       | Some t =>
           if Str.truthy t && (String.eqb t "city" || String.eqb t "country")
           then Some t else None
       | None => None
       end;
     sp_limit := search_limit rq |}.

Definition format_search_row (row : SearchRow) : SearchResult :=
  if String.eqb (sr_type row) "city" then
    let translations := default ∅ (sr_name_translations_agg row) in
    let translations :=
      if negb (Str.truthy_opt (translations !! "en"))
      then <["en" := sr_name row]> translations
      else translations in
    {| res_type := sr_type row;
       res_name := sr_name row;
       res_country_code := sr_country_code row;
       res_country_name := sr_country_name row;
       res_coordinates := (parseFloat_col (sr_latitude row),
                           parseFloat_col (sr_longitude row));
       res_admin_region := Some (sr_admin_region row);
       res_spoken_languages := None;
       res_name_translations := translations |}
  else
    {| res_type := sr_type row;
       res_name := sr_name row;
       res_country_code := sr_country_code row;
       res_country_name := sr_country_name row;
       res_coordinates := (parseFloat_col (sr_latitude row),
                           parseFloat_col (sr_longitude row));
       res_admin_region := None;
       res_spoken_languages :=
         Some (match sr_spoken_languages row with
               | Some l => if Str.truthy l then Str.split "," l else []
               | None => []
               end);
       res_name_translations := default ∅ (sr_country_translations row) |}.

(** The handler over the rows that its statement describes; [pg_search]
    below is the same handler over the statement as PostgreSQL takes
    it. *)
Definition search (rq : SearchReq) : DB (Response SearchResult) :=
  match rq_q rq with
  | None =>
      ret (Err400 QueryRequiredAtLeast2Characters)
  | Some q =>
      if negb (Str.truthy q) || (String.length q <? 2)%nat then
        ret (Err400 QueryRequiredAtLeast2Characters)
      else
        let p := search_params q rq in
        rows <- query (SqlSearch p) (search_sql p) ;;
        match rows with
        | Some rows =>
            let formattedResults := format_search_row <$> rows in
            ret (Ok200 formattedResults (length formattedResults))
        | None => ret Err500
        end
  end.

(** ** [GET /reverse] *)

(** The value of [$3] in [$3 * 1000], an [integer] position. *)
Definition radius_value (radius : jsval) : option Z :=
  match radius with
  | JStr r => pg_int4_in r
  | JNum n => num_as_integer_text n
  end.

Definition div1000 (d : num) : num :=
  match d with Num x => Num (x / 1000)%Q | NaN => NaN end.

(** The output row of a city within reach. *)
Definition reverse_row (lo la x y : num) (c : City) (co : Country) : ReverseRow :=
  {| rr_type := "city";
     rr_geonameid := c_geonameid c;
     rr_name := c_name c;
     rr_country_code := c_country_code c;
     rr_country_name := co_name co;
     rr_admin_region := c_admin1_name c;
     rr_latitude := c_latitude c;
     rr_longitude := c_longitude c;
     rr_spoken_languages := co_spoken_languages co;
     rr_distance_km := div1000 (ST_Distance (lo, la) (x, y)) |}.

(** The rows before [ORDER BY] and [LIMIT]; rows whose point is [NULL]
    fail the [WHERE] clause. *)
Definition reverse_candidates (lo la : num) (meters : Q) (s : Store)
  : list ReverseRow :=
  flat_map (fun c =>
    flat_map (fun co =>
      match c_longitude c, c_latitude c with
      | Some x, Some y =>
          if ST_DWithin (lo, la) (x, y) meters
          then [reverse_row lo la x y c co]
          else []
      | _, _ => []
      end)
      (countries_of s c))
    (cities s).

Definition reverse_order (a b : ReverseRow) : bool :=
  num_le (rr_distance_km a) (rr_distance_km b).

(** The statement; [None] is an error raised by the database. *)
Definition reverse_sql (lat lon : string) (radius : jsval) (s : Store)
  : option (list ReverseRow) :=
  la ← pg_float8_in lat;
  lo ← pg_float8_in lon;
  r ← radius_value radius;
  if int4_ok r && int4_ok (r * 1000) then
    Some (take 5 (sort_by reverse_order
                          (reverse_candidates lo la (inject_Z (r * 1000)) s)))
  else None.

Record ReverseReq : Type := mkReverseReq {
  rv_lat : option string;
  rv_lon : option string;
  rv_radius : option string
}.

Definition format_reverse_row (row : ReverseRow) : ReverseResult :=
  {| rv_type := rr_type row;
     rv_name := rr_name row;
     rv_country_code := rr_country_code row;
     rv_country_name := rr_country_name row;
     rv_admin_region := rr_admin_region row;
     rv_coordinates := (parseFloat_col (rr_latitude row),
                        parseFloat_col (rr_longitude row));
     rv_distance_km := toFixed2 (rr_distance_km row) |}.

(** [radius = 50] when the parameter is absent. *)
Definition reverse_radius (rq : ReverseReq) : jsval :=
  match rv_radius rq with
  | Some r => JStr r
  | None => JNum (Num 50)
  end.

Definition reverse (rq : ReverseReq) : DB (Response ReverseResult) :=
  match rv_lat rq, rv_lon rq with
  | Some lat, Some lon =>
      if negb (Str.truthy lat) || negb (Str.truthy lon) then
        ret (Err400 LatAndLonRequired)
      else
        rows <- query (SqlReverse lat lon (reverse_radius rq))
                      (reverse_sql lat lon (reverse_radius rq)) ;;
        match rows with
        | Some rows =>
            let formattedResults := format_reverse_row <$> rows in
            ret (Ok200 formattedResults (length formattedResults))
        | None => ret Err500
        end
  | _, _ => ret (Err400 LatAndLonRequired)
  end.

(** ** The loader: schema checks *)

(** Storing a number in a [DECIMAL(p, 8)] column with [i = p - 8] integer
    digits: the value is rounded to 8 places, half away from zero, and
    must then lie strictly between [-10^i] and [10^i]; [NaN] is stored as
    it is.  [None] is a numeric overflow. *)
Definition decimal8_in (i : Z) (v : num) : option num :=
  match v with
  | NaN => Some NaN
  | Num q =>
      let n := if Qle_bool 0 q then Qfloor (q * 100000000 + (1 # 2))%Q
               else - Qfloor ((- q) * 100000000 + (1 # 2))%Q in
      if Z.abs n <? 10 ^ (i + 8)
      then Some (Num (inject_Z n / 100000000)%Q)
      else None
  end.

(** ** [loadCountriesData] *)

(** The row proposed for insertion, after the column checks. *)
Definition country_of_seed (c : CountrySeed) : option Country :=
  if varchar_ok 2 (Some (seed_code c)) && varchar_ok 200 (Some (seed_name c))
  then
    lat ← decimal8_in 2 (seed_lat c);
    lng ← decimal8_in 3 (seed_lng c);
    Some {| co_country_code := seed_code c;
            co_name := seed_name c;
            co_latitude := Some lat;
            co_longitude := Some lng;
            co_spoken_languages := Some (seed_languages c);
            co_name_translations := Some (seed_translations c) |}
  else None.

(** [INSERT ... ON CONFLICT (country_code) DO UPDATE SET ...]: the row with
    the same code keeps its key and takes the five other columns of the
    proposed row; without such a row the proposed row is added. *)
Fixpoint upsert_country_row (new : Country) (l : list Country) : list Country :=
  match l with
  | [] => [new]
  | old :: l' =>
      if String.eqb (co_country_code old) (co_country_code new) then
        {| co_country_code := co_country_code old;
           co_name := co_name new;
           co_latitude := co_latitude new;
           co_longitude := co_longitude new;
           co_spoken_languages := co_spoken_languages new;
           co_name_translations := co_name_translations new |} :: l'
      else old :: upsert_country_row new l'
  end.

Definition upsertCountry (c : CountrySeed) (s : Store) : option Store :=
  new ← country_of_seed c;
  Some (set_countries (upsert_country_row new (countries s)) s).

(** The loop over the seed list; an error of a statement is not caught
    and ends the loop ([None]). *)
Fixpoint seed_countries (l : list CountrySeed) : DB (option unit) :=
  match l with
  | [] => ret (Some tt)
  | c :: l' =>
      r <- execute (SqlUpsertCountry c) (upsertCountry c) ;;
      match r with
      | Some _ => seed_countries l'
      | None => ret None
      end
  end.

Definition loadCountriesData (seeds : list CountrySeed) : DB (option unit) :=
  _ <- query SqlDropCityConstraint (fun _ => tt) ;;
  _ <- query SqlDropAlternateNameConstraint (fun _ => tt) ;;
  seed_countries seeds.

(** ** [loadCitiesData] *)

(** The row proposed by the [INSERT INTO cities], after the conversions
    and the column checks; [None] is a raised error. *)
Definition city_of_row (r : CityCsvRow) : option City :=
  id ← Str.parseInt_opt (cr_geonameid r);
  name ← cr_name r;
  lat ← decimal8_in 2 (parseFloat (cr_latitude r));
  lon ← decimal8_in 3 (parseFloat (cr_longitude r));
  population ←
    (if Str.truthy_opt (cr_population r)
     then match Str.parseInt_opt (cr_population r) with
          | Some n => if int8_ok n then Some (Some n) else None
          | None => None
          end
     else Some None);
  elevation ←
    (if Str.truthy_opt (cr_elevation r)
     then match Str.parseInt_opt (cr_elevation r) with
          | Some n => if int4_ok n then Some (Some n) else None
          | None => None
          end
     else Some None);
  date ←
    (match cr_modification_date r with
     | Some d => if Str.truthy d then Some <$> pg_date_in d else Some None
     | None => Some None
     end);
  if int4_ok id
     && varchar_ok 200 (Some name)
     && varchar_ok 200 (cr_asciiname r)
     && varchar_ok 1 (cr_feature_class r)
     && varchar_ok 10 (cr_feature_code r)
     && varchar_ok 2 (cr_country_code r)
     && varchar_ok 20 (cr_admin1_code r)
     && varchar_ok 40 (cr_timezone r)
  then
    Some {| c_geonameid := id;
            c_name := name;
            c_ascii_name := cr_asciiname r;
            c_alternatenames := cr_alternatenames r;
            c_latitude := Some lat;
            c_longitude := Some lon;
            c_feature_class := cr_feature_class r;
            c_feature_code := cr_feature_code r;
            c_country_code := cr_country_code r;
            c_admin1_code := cr_admin1_code r;
            c_admin1_name := None;
            c_population := population;
            c_elevation := elevation;
            c_timezone := cr_timezone r;
            c_modification_date := date |}
  else None.

(** [ON CONFLICT (geonameid) DO NOTHING]. *)
Definition insertPlaceIfAbsent (c : City) (s : Store) : Store :=
  if placeExists s (c_geonameid c) then s
  else set_cities (cities s ++ [c]) s.

Definition insert_city (r : CityCsvRow) (s : Store) : option Store :=
  c ← city_of_row r;
  Some (insertPlaceIfAbsent c s).

(** The ['data'] handler applied to the row objects that the CSV parser
    emits, in file order, each [INSERT] being completed before the next
    row is taken; an error is caught and the row skipped.  The result is
    the value that the counter [count] has once every handler has
    finished.  The handlers are not awaited in the source: the message of
    the ['end'] handler is printed, and the promise resolved, while
    [INSERT]s may still be under way, so that message can show a smaller
    number than this result. *)
Fixpoint import_cities (rows : list CityCsvRow) (count : Z) : DB Z :=
  match rows with
  | [] => ret count
  | r :: rows' =>
      ok <- execute (SqlInsertCity r) (insert_city r) ;;
      match ok with
      | Some _ => import_cities rows' (count + 1)
      | None => import_cities rows' count
      end
  end.

(** [None] is the early [return] of the existence probe.  The download and
    the extraction of the dump come after the probe and touch no table; the
    model starts from the parsed rows. *)
Definition loadCitiesData (rows : list CityCsvRow) : DB (option Z) :=
  existingCount <- query SqlCountCities (fun s => Z.of_nat (length (cities s))) ;;
  if 0 <? existingCount then ret None
  else
    count <- import_cities rows 0 ;;
    ret (Some count).

(** ** [loadAlternateNames] *)

(** [SUPPORTED_LANGUAGES]: the environment variable split at commas, each
    entry trimmed and lower-cased; [None] ([null]) when it is unset or
    empty. *)
Definition SUPPORTED_LANGUAGES (env : option string) : option (list string) :=
  match env with
  | Some v =>
      if Str.truthy v
      then Some ((fun lang => Str.toLowerCase (Str.trim lang)) <$> Str.split "," v)
      else None
  | None => None
  end.

Definition BATCH_SIZE : nat := 100.

Definition includes (l : list string) (x : string) : bool :=
  existsb (String.eqb x) l.

(** [SELECT 1 FROM cities WHERE geonameid = $1]: the number of rows, or
    [None] when the parameter is not an [integer]. *)
Definition select_city (id : option Z) (s : Store) : option nat :=
  match id with
  | Some n =>
      if int4_ok n
      then Some (length (List.filter (fun c => Z.eqb (c_geonameid c) n) (cities s)))
      else None
  | None => None
  end.

Definition alternate_name_of_row (row : AltRow) : option AlternateName :=
  id ← Str.parseInt (ar_alternatenameid row);
  gid ← Str.parseInt (ar_geonameid row);
  if int4_ok id && int4_ok gid
     && varchar_ok 7 (Some (ar_isolanguage row))
     && varchar_ok 400 (Some (ar_alternate_name row))
  then
    Some {| an_alternatenameid := id;
            an_geonameid := Some gid;
            an_isolanguage := Some (ar_isolanguage row);
            an_alternate_name := Some (ar_alternate_name row);
            an_is_preferred_name := Some (String.eqb (ar_is_preferred_name row) "1");
            an_is_short_name := Some (String.eqb (ar_is_short_name row) "1");
            an_is_colloquial := Some (String.eqb (ar_is_colloquial row) "1");
            an_is_historic := Some (String.eqb (ar_is_historic row) "1") |}
  else None.

(** [ON CONFLICT (alternatenameid) DO NOTHING]. *)
Definition insertAlternateNameIfAbsent (a : AlternateName) (s : Store) : Store :=
  if existsb (fun x => Z.eqb (an_alternatenameid x) (an_alternatenameid a))
             (alternate_names s)
  then s
  else set_alternate_names (alternate_names s ++ [a]) s.

Definition insert_alternate_name (row : AltRow) (s : Store) : option Store :=
  a ← alternate_name_of_row row;
  Some (insertAlternateNameIfAbsent a s).

Definition processRow (row : AltRow) : DB Z :=
  cityExists <- query (SqlSelectCity (Str.parseInt (ar_geonameid row)))
                      (select_city (Str.parseInt (ar_geonameid row))) ;;
  match cityExists with
  | Some n =>
      if (0 <? n)%nat then
        ok <- execute (SqlInsertAlternateName row) (insert_alternate_name row) ;;
        match ok with
        | Some _ => ret 1
        | None => ret 0
        end
      else ret 0
  | None => ret 0
  end.

Fixpoint process_rows (batchData : list AltRow) (batchCount : Z) : DB Z :=
  match batchData with
  | [] => ret batchCount
  | row :: rest =>
      n <- processRow row ;;
      process_rows rest (batchCount + n)
  end.

(** [stream] is never assigned, so the two [if (stream)] branches do
    nothing. *)
Definition processBatch (batchData : list AltRow) : DB Z :=
  match batchData with
  | [] => ret 0
  | _ :: _ => process_rows batchData 0
  end.

(** The variables shared by the closures of [loadAlternateNames]. *)
Record Loader : Type := mkLoader {
  ld_count : Z;
  ld_processed : Z;
  ld_batch : list AltRow
}.

Definition tab : ascii := ascii_of_nat 9.

(** The row object built from the first eight columns. *)
Definition row_of_columns (columns : list string) : option AltRow :=
  match columns with
  | c0 :: c1 :: c2 :: c3 :: c4 :: c5 :: c6 :: c7 :: _ =>
      Some (mkAltRow c0 c1 c2 c3 c4 c5 c6 c7)
  | _ => None
  end.

(** The test that guards [batch.push(row)]. *)
Definition accepts (langs : option (list string)) (row : AltRow) : bool :=
  Str.truthy (ar_isolanguage row)
  && (String.length (ar_isolanguage row) <=? 7)%nat
  && Str.truthy (ar_alternate_name row)
  && (String.length (ar_alternate_name row) <=? 400)%nat
  && match langs with
     | None => true
     | Some l => includes l (Str.toLowerCase (ar_isolanguage row))
                 || includes l "all"
     end.

Definition processLine (langs : option (list string)) (line : string)
    (st : Loader) : Loader :=
  let processed := ld_processed st + 1 in
  let columns := Str.split tab line in
  if (length columns <? 8)%nat then
    mkLoader (ld_count st) processed (ld_batch st)
  else
    match row_of_columns columns with
    | Some row =>
        if accepts langs row
        then mkLoader (ld_count st) processed (ld_batch st ++ [row])
        else mkLoader (ld_count st) processed (ld_batch st)
    | None => mkLoader (ld_count st) processed (ld_batch st)
    end.

(** The loop of [processQueue] over the lines of the file, each batch
    being applied before the next line is looked at.  This is the run in
    which no other event is handled while a batch is awaited; [deliver]
    below gives the runs event by event, among them those in which the
    ['close'] handler runs while a batch is awaited. *)
Fixpoint processQueue (langs : option (list string)) (lineQueue : list string)
    (st : Loader) : DB Loader :=
  match lineQueue with
  | [] => ret st
  | line :: rest =>
      let st := processLine langs line st in
      if (BATCH_SIZE <=? length (ld_batch st))%nat then
        batchCount <- processBatch (ld_batch st) ;;
        processQueue langs rest
          (mkLoader (ld_count st + batchCount) (ld_processed st) [])
      else processQueue langs rest st
  end.

(** The ['close'] handler when it runs after [processQueue] has returned
    with an empty queue. *)
Definition on_close (st : Loader) : DB Z :=
  match ld_batch st with
  | [] => ret (ld_count st)
  | _ :: _ =>
      batchCount <- processBatch (ld_batch st) ;;
      ret (ld_count st + batchCount)
  end.

(** [None] is the early [return] of the existence probe; otherwise the
    final [count].  [lines] are the lines that [readline] emits for the
    extracted dump.  The lines pass through [processQueue] once, in order,
    and the ['close'] handler runs last: the run of the promise body in
    which the end of the input is delivered when no batch is awaited. *)
Definition loadAlternateNames (langs : option (list string)) (lines : list string)
  : DB (option Z) :=
  existingCount <- query SqlCountAlternateNames
                         (fun s => Z.of_nat (length (alternate_names s))) ;;
  if 0 <? existingCount then ret None
  else
    st <- processQueue langs lines (mkLoader 0 0 []) ;;
    count <- on_close st ;;
    ret (Some count).

(** ** The ladder and the translation mapping as the specification words
       them *)

Inductive Tier : Type :=
  | ExactPrimary
  | ExactAscii
  | ExactAlternate
  | SubstringPrimary
  | SubstringAscii
  | SubstringAlternate
  | Fuzzy.

(** The score that the specification attaches to a tier ([None] for the
    fuzzy tier, whose score lies between 0 and 10). *)
Definition tier_score (t : Tier) : option Q :=
  match t with
  | ExactPrimary => Some 100%Q
  | ExactAscii => Some 95%Q
  | ExactAlternate => Some 90%Q
  | SubstringPrimary => Some 80%Q
  | SubstringAscii => Some 75%Q
  | SubstringAlternate => Some 70%Q
  | Fuzzy => None
  end.

(** Position in the ladder, the top rule having the highest rank. *)
Definition tier_rank (t : Tier) : Z :=
  match t with
  | ExactPrimary => 6
  | ExactAscii => 5
  | ExactAlternate => 4
  | SubstringPrimary => 3
  | SubstringAscii => 2
  | SubstringAlternate => 1
  | Fuzzy => 0
  end.




Definition country_exact_alternate (s : Store) (q : string) (co : Country) : bool :=
  existsb (fun alt => eq_col_str (can_country_code alt) (co_country_code co)
                      && lower_eq_col (can_name alt) q)
          (country_alternate_names s).

Definition country_substring_alternate (s : Store) (pat : string) (co : Country)
  : bool :=
  existsb (fun alt => eq_col_str (can_country_code alt) (co_country_code co)
                      && ilike_col (can_name alt) pat)
          (country_alternate_names s).

(** The specification's ladder for a country: the same rules without the
    two ascii tiers. *)
Definition country_tier (s : Store) (q pat : string) (co : Country) : Tier :=
  if lower_eq (co_name co) q then ExactPrimary
  else if country_exact_alternate s q co then ExactAlternate
  else if Str.ilike (co_name co) pat then SubstringPrimary
  else if country_substring_alternate s pat co then SubstringAlternate
  else Fuzzy.

(** The alternate-name rows of a place, in table order. *)
Definition alternates_of (s : Store) (c : City) : list AlternateName :=
  List.filter (fun alt => eq_col_Z (an_geonameid alt) (c_geonameid c))
              (alternate_names s).

Definition language_pairs (l : list AlternateName)
  : list (option string * option string) :=
  (fun alt => (an_isolanguage alt, an_alternate_name alt)) <$> l.

(** The mapping that the handler returns for a city row of a search with
    parameters [q] and [pat]: the pairs of those alternate-name rows of the
    place that the [WHERE] clause leaves in its group, the canonical name
    under ["en"] unless an ["en"] entry with a non-empty value is there. *)
Definition translations_served (s : Store) (q pat : string) (c : City)
  : gmap string string :=
  let agg :=
    default ∅ (json_object_agg
                 (language_pairs
                    (List.filter (fun alt => city_where q pat c (Some alt))
                                 (alternates_of s c)))) in
  if Str.truthy_opt (agg !! "en") then agg else <["en" := c_name c]> agg.

(** The name that the last row of [l] in language [lang] gives, if any. *)
Definition last_for (lang : string) (l : list AlternateName) : option string :=
  last (omap (fun a =>
                match an_isolanguage a, an_alternate_name a with
                | Some k, Some v => if String.eqb k lang then Some v else None
                | _, _ => None
                end) l).

(** pg_trgm's similarity is a number between 0 and 1. *)
Definition similarity_range : Prop :=
  forall a b, (0 <= similarity a b <= 1)%Q.



(** The row that [processLine] pushes for a line, if any. *)
Definition pushed (langs : option (list string)) (line : string) : list AltRow :=
  ld_batch (processLine langs line (mkLoader 0 0 [])).

(** The rows that pass the filter of [processLine], in file order. *)
Definition accepted (langs : option (list string)) (lines : list string)
  : list AltRow :=
  flat_map (pushed langs) lines.

(** What the database extension promises: a point within [d] meters is at
    a distance that is a number, and at most [d]. *)
Definition DWithin_sound : Prop :=
  forall p1 p2 d,
    ST_DWithin p1 p2 d = true ->
    exists m, ST_Distance p1 p2 = Num m /\ (m <= d)%Q.

(** The place id of a row of the alternate-names dump identifies no stored
    place. *)
Definition unknown_place (s : Store) (row : AltRow) : Prop :=
  forall id, Str.parseInt (ar_geonameid row) = Some id -> placeExists s id = false.

(** The place id of a stored alternate name identifies a stored place. *)
Definition known_place (s : Store) (a : AlternateName) : Prop :=
  exists id, an_geonameid a = Some id /\ placeExists s id = true.


(** ** Patterns, pieces and joins

    Vocabulary for the properties of the string primitives. *)

(** The characters with a special meaning in a [LIKE] pattern. *)
Definition is_wildcard (c : ascii) : bool :=
  Ascii.eqb c "%" || Ascii.eqb c "_" || Ascii.eqb c "\".

(** A string that means itself as a [LIKE] pattern. *)
Fixpoint literal (s : string) : bool :=
  match s with
  | EmptyString => true
  | String c s' => negb (is_wildcard c) && literal s'
  end.

(** [p] occurs in [s]. *)
Definition contains (s p : string) : Prop :=
  exists pre post, s = (pre ++ p ++ post)%string.

(** Every character of [s] is [c]. *)
Fixpoint all_of (c : ascii) (s : string) : bool :=
  match s with
  | EmptyString => true
  | String d s' => Ascii.eqb d c && all_of c s'
  end.

(** The number of times [c] occurs in [s]. *)
Fixpoint occurrences (c : ascii) (s : string) : nat :=
  match s with
  | EmptyString => 0%nat
  | String d s' => ((if Ascii.eqb d c then 1 else 0) + occurrences c s')%nat
  end.

(** [l.join(sep)] for a one-character separator. *)
Fixpoint join (sep : ascii) (l : list string) : string :=
  match l with
  | [] => EmptyString
  | x :: l' =>
      match l' with
      | [] => x
      | _ :: _ => (x ++ String sep (join sep l'))%string
      end
  end.

(** A decimal digit, and a string of decimal digits. *)
Definition is_digit (c : ascii) : bool :=
  match Str.digit_val 10 c with Some _ => true | None => false end.

Fixpoint all_digits (s : string) : bool :=
  match s with
  | EmptyString => true
  | String c s' => is_digit c && all_digits s'
  end.

(** ** [authenticateApiKey] *)

(** [validApiKeys]: [(process.env.API_KEYS || 'demo-key-12345').split(',')]. *)
Definition validApiKeys (env : option string) : list string :=
  Str.split ","
    match env with
    | Some v => if Str.truthy v then v else "demo-key-12345"
    | None => "demo-key-12345"
    end.

(** [req.headers['x-api-key'] || req.query.api_key]. *)
Definition request_api_key (header query : option string) : option string :=
  match header with
  | Some h => if Str.truthy h then Some h else query
  | None => query
  end.

(** The middleware in front of a handler [next]. *)
Definition authenticateApiKey {A} (keys : list string)
    (header query : option string) (next : DB A) : DB (Gated A) :=
  match request_api_key header query with
  | Some apiKey =>
      if negb (Str.truthy apiKey) || negb (includes keys apiKey)
      then ret Unauthorized401
      else a <- next ;; ret (Next a)
  | None => ret Unauthorized401
  end.

(** [app.get('/search', authenticateApiKey, ...)] and
    [app.get('/reverse', authenticateApiKey, ...)]. *)
Definition search_route (keys : list string) (header query : option string)
    (rq : SearchReq) : DB (Gated (Response SearchResult)) :=
  authenticateApiKey keys header query (search rq).

Definition reverse_route (keys : list string) (header query : option string)
    (rq : ReverseReq) : DB (Gated (Response ReverseResult)) :=
  authenticateApiKey keys header query (reverse rq).

(** ** Vocabulary for the properties of the read paths *)

(** The primary keys of [cities] and [countries]. *)
Definition unique_places (s : Store) : Prop :=
  List.NoDup (List.map c_geonameid (cities s)).
Definition unique_countries (s : Store) : Prop :=
  List.NoDup (List.map co_country_code (countries s)).

(** ** [GET /search] as the server answers it *)

(** The statement as [pool.query] runs it: analysed, and only then
    evaluated. *)
Definition pg_search_sql (p : SearchParams) (s : Store)
  : option (list SearchRow) :=
  match search_results_columns with
  | Some _ => search_sql p s
  | None => None
  end.

(** The handler of [GET /search] over a given reading [run] of its
    statement. *)
Definition search_with (run : SearchParams -> Store -> option (list SearchRow))
    (rq : SearchReq) : DB (Response SearchResult) :=
  match rq_q rq with
  | None =>
      ret (Err400 QueryRequiredAtLeast2Characters)
  | Some q =>
      if negb (Str.truthy q) || (String.length q <? 2)%nat then
        ret (Err400 QueryRequiredAtLeast2Characters)
      else
        let p := search_params q rq in
        rows <- query (SqlSearch p) (run p) ;;
        match rows with
        | Some rows =>
            let formattedResults := format_search_row <$> rows in
            ret (Ok200 formattedResults (length formattedResults))
        | None => ret Err500
        end
  end.

(** [GET /search] as the server answers it. *)
Definition pg_search : SearchReq -> DB (Response SearchResult) :=
  search_with pg_search_sql.

(** ** The ladder of the country branch *)

(** The fallback of the country [CASE]. *)
Definition country_fuzzy (q : string) (co : Country)
    (grp : list (option CountryAlternateName)) : Q :=
  (GREATEST (similarity (co_name co) q)
     [ Some (COALESCE
               (MAX ((fun alt => similarity_col (alt ≫= can_name) q) <$> grp))
               0%Q) ] * 10)%Q.

(** ** Vocabulary for the properties of the loader *)

(** The primary key of [alternate_names]. *)
Definition unique_alternate_names (s : Store) : Prop :=
  List.NoDup (List.map an_alternatenameid (alternate_names s)).

(** The keys are unique and every alternate name belongs to a stored
    place. *)
Definition store_ok (s : Store) : Prop :=
  unique_countries s /\ unique_places s /\ unique_alternate_names s
  /\ List.Forall (known_place s) (alternate_names s).

(** ** [main] *)

(** The statements of [main]: those of the three loaders, the schema
    script of [createTables], the [ANALYZE] of a table and the count of the
    countries. *)
Inductive MainStatement : Type :=
  | SqlCreateTables
  | Sent (st : Statement)
  | SqlAnalyze (table : string)
  | SqlCountCountries.

Definition optimizeDatabase : list MainStatement :=
  [SqlAnalyze "cities"; SqlAnalyze "countries"; SqlAnalyze "alternate_names"].

(** [main] on the seed list and the two dumps: the exit code, the store and
    the statements sent.  The model starts where the extensions are
    installed and the dumps are at hand, so that the schema script and the
    downloads raise no error: the script creates what is missing and
    leaves the rows alone, each loader is run to its end before the next
    one starts (the reading of [loadCitiesData] and [loadAlternateNames]
    above, in which every statement is awaited), and an error of the
    seeding is the one that reaches the [catch], which exits with 1. *)
Definition main (seeds : list CountrySeed) (rows : list CityCsvRow)
    (langs : option (list string)) (lines : list string) (s : Store)
  : Z * Store * list MainStatement :=
  let '(seeded, s1, t1) := loadCountriesData seeds s in
  match seeded with
  | None => (1, s1, SqlCreateTables :: (Sent <$> t1))
  | Some _ =>
      let '(_, s2, t2) := loadCitiesData rows s1 in
      let '(_, s3, t3) := loadAlternateNames langs lines s2 in
      (0, s3,
       SqlCreateTables :: (Sent <$> (t1 ++ t2 ++ t3))
         ++ optimizeDatabase
         ++ [Sent SqlCountCities; SqlCountCountries; Sent SqlCountAlternateNames])
  end.

(** [n] is the first row of [l] with its country code: the row that an
    upsert of that code reaches. *)
Definition leads (l : list Country) (n : Country) : Prop :=
  exists l1 l2,
    l = l1 ++ n :: l2
    /\ forall x, In x l1 -> co_country_code x <> co_country_code n.

(** ** [loadAlternateNames] as the event loop runs it *)

(** A [processBatch] that is awaited: the rows of its [for] loop that are
    not finished, the first of them being the row whose statement is
    awaited (its [INSERT] when [if_insert], its [SELECT] otherwise), and
    [batchCount]. *)
Record InFlight : Type := mkInFlight {
  if_rows : list AltRow;
  if_insert : bool;
  if_batchCount : Z
}.

(** [processBatch(batchData)] up to its first [await]. *)
Definition start_batch (batchData : list AltRow) : InFlight :=
  mkInFlight batchData false 0.

(** The [for] loop of [processBatch] after a row: the next row, or the
    [return batchCount]. *)
Definition next_row (rest : list AltRow) (batchCount : Z) : InFlight + Z :=
  match rest with
  | [] => inr batchCount
  | _ :: _ => inl (mkInFlight rest false batchCount)
  end.

(** The awaited statement of a batch completes: it takes effect on the
    store, and [processRow] and the loop of [processBatch] run on to the
    next [await] or to the end of the batch. *)
Definition resume_batch (b : InFlight) : DB (InFlight + Z) :=
  match if_rows b with
  | [] => ret (inr (if_batchCount b))
  | row :: rest =>
      if if_insert b then
        ok <- execute (SqlInsertAlternateName row) (insert_alternate_name row) ;;
        match ok with
        | Some _ => ret (next_row rest (if_batchCount b + 1))
        | None => ret (next_row rest (if_batchCount b))
        end
      else
        cityExists <- query (SqlSelectCity (Str.parseInt (ar_geonameid row)))
                            (select_city (Str.parseInt (ar_geonameid row))) ;;
        match cityExists with
        | Some n =>
            if (0 <? n)%nat
            then ret (inl (mkInFlight (row :: rest) true (if_batchCount b)))
            else ret (next_row rest (if_batchCount b))
        | None => ret (next_row rest (if_batchCount b))
        end
  end.

(** The ['close'] handler: not yet run, waiting for the [processQueue] that
    it started, waiting for its own [processBatch], or past [resolve()]
    with the count that it printed. *)
Inductive CloseHandler : Type :=
  | CloseNotRun
  | CloseAwaitsQueue
  | CloseAwaitsBatch (b : InFlight)
  | CloseResolved (printed : Z).

(** The variables of the promise body between two events: [count],
    [processed] and [batch], [lineQueue], [isProcessing], the
    [processBatch] that [processQueue] awaits, the number of
    [setImmediate(processQueue)] callbacks that have not run, and the
    ['close'] handler. *)
Record Reading : Type := mkReading {
  rd_loader : Loader;
  rd_lineQueue : list string;
  rd_isProcessing : bool;
  rd_awaited : option InFlight;
  rd_immediates : nat;
  rd_close : CloseHandler
}.

Definition reading_start : Reading :=
  mkReading (mkLoader 0 0 []) [] false None 0 CloseNotRun.

(** The [while] loop of [processQueue] up to its [await]: the variables,
    the lines left in the queue, and whether the loop stopped at
    [await processBatch(batch)]. *)
Fixpoint drain (langs : option (list string)) (lineQueue : list string)
    (st : Loader) : Loader * list string * bool :=
  match lineQueue with
  | [] => (st, [], false)
  | line :: rest =>
      let st := processLine langs line st in
      if (BATCH_SIZE <=? length (ld_batch st))%nat then (st, rest, true)
      else drain langs rest st
  end.

(** [if (batch.length > 0) { ... } console.log(...); resolve()] of the
    ['close'] handler, up to its [await]. *)
Definition close_continue (st : Reading) : Reading :=
  match ld_batch (rd_loader st) with
  | [] =>
      mkReading (rd_loader st) (rd_lineQueue st) (rd_isProcessing st)
                (rd_awaited st) (rd_immediates st)
                (CloseResolved (ld_count (rd_loader st)))
  | _ :: _ =>
      mkReading (rd_loader st) (rd_lineQueue st) (rd_isProcessing st)
                (rd_awaited st) (rd_immediates st)
                (CloseAwaitsBatch (start_batch (ld_batch (rd_loader st))))
  end.

(** The loop of [processQueue] from the variables [ld] on.  When it ends,
    [isProcessing] is reset and a ['close'] handler that waits for this
    call goes on. *)
Definition run_queue (langs : option (list string)) (ld : Loader)
    (st : Reading) : Reading :=
  let '(ld', rest, waits) := drain langs (rd_lineQueue st) ld in
  if waits then
    mkReading ld' rest true (Some (start_batch (ld_batch ld')))
              (rd_immediates st) (rd_close st)
  else
    let st' := mkReading ld' rest false None (rd_immediates st) (rd_close st) in
    match rd_close st with
    | CloseAwaitsQueue => close_continue st'
    | _ => st'
    end.

(** A call of [processQueue()], up to its first [await]. *)
Definition call_processQueue (langs : option (list string)) (st : Reading)
  : Reading :=
  if rd_isProcessing st then st else run_queue langs (rd_loader st) st.

(** What the event loop delivers: a line and the end of the input from
    [readline], a [setImmediate] callback, and the completion of the
    statement that the [processBatch] of [processQueue], or that of the
    ['close'] handler, awaits. *)
Inductive Event : Type :=
  | EvLine (line : string)
  | EvImmediate
  | EvClose
  | EvQueueStatement
  | EvCloseStatement.

(** One event handled up to the point where control returns to the event
    loop; [None] when the event cannot occur in the state. *)
Definition deliver (langs : option (list string)) (e : Event) (st : Reading)
  : DB (option Reading) :=
  match e with
  | EvLine line =>
      match rd_close st with
      | CloseNotRun =>
          let lineQueue := rd_lineQueue st ++ [line] in
          if (1000 <? length lineQueue)%nat then
            ret (Some (call_processQueue langs
                         (mkReading (rd_loader st) lineQueue (rd_isProcessing st)
                                    (rd_awaited st) (rd_immediates st)
                                    (rd_close st))))
          else
            ret (Some (mkReading (rd_loader st) lineQueue (rd_isProcessing st)
                                 (rd_awaited st) (S (rd_immediates st))
                                 (rd_close st)))
      | _ => ret None
      end
  | EvImmediate =>
      match rd_immediates st with
      | O => ret None
      | S n =>
          ret (Some (call_processQueue langs
                       (mkReading (rd_loader st) (rd_lineQueue st)
                                  (rd_isProcessing st) (rd_awaited st) n
                                  (rd_close st))))
      end
  | EvClose =>
      match rd_close st with
      | CloseNotRun =>
          if rd_isProcessing st then ret (Some (close_continue st))
          else
            ret (Some (run_queue langs (rd_loader st)
                         (mkReading (rd_loader st) (rd_lineQueue st)
                                    (rd_isProcessing st) (rd_awaited st)
                                    (rd_immediates st) CloseAwaitsQueue)))
      | _ => ret None
      end
  | EvQueueStatement =>
      match rd_awaited st with
      | Some b =>
          r <- resume_batch b ;;
          match r with
          | inl b' =>
              ret (Some (mkReading (rd_loader st) (rd_lineQueue st)
                                   (rd_isProcessing st) (Some b')
                                   (rd_immediates st) (rd_close st)))
          | inr batchCount =>
              ret (Some (run_queue langs
                           (mkLoader (ld_count (rd_loader st) + batchCount)
                                     (ld_processed (rd_loader st)) [])
                           st))
          end
      | None => ret None
      end
  | EvCloseStatement =>
      match rd_close st with
      | CloseAwaitsBatch b =>
          r <- resume_batch b ;;
          match r with
          | inl b' =>
              ret (Some (mkReading (rd_loader st) (rd_lineQueue st)
                                   (rd_isProcessing st) (rd_awaited st)
                                   (rd_immediates st) (CloseAwaitsBatch b')))
          | inr batchCount =>
              let count := ld_count (rd_loader st) + batchCount in
              ret (Some (mkReading
                           (mkLoader count (ld_processed (rd_loader st))
                                     (ld_batch (rd_loader st)))
                           (rd_lineQueue st) (rd_isProcessing st) (rd_awaited st)
                           (rd_immediates st) (CloseResolved count)))
          end
      | _ => ret None
      end
  end.

(** A schedule: the events in the order in which the event loop delivers
    them. *)
Fixpoint deliver_all (langs : option (list string)) (events : list Event)
    (st : Reading) : DB (option Reading) :=
  match events with
  | [] => ret (Some st)
  | e :: events' =>
      r <- deliver langs e st ;;
      match r with
      | Some st' => deliver_all langs events' st'
      | None => ret None
      end
  end.

(** Two [processBatch] are awaited at once. *)
Definition two_in_flight (st : Reading) : bool :=
  match rd_awaited st, rd_close st with
  | Some _, CloseAwaitsBatch _ => true
  | _, _ => false
  end.

(** The number of [SELECT 1 FROM cities] statements in a log. *)
Definition SelectCity_sent (log : list Statement) : nat :=
  length (List.filter (fun st => match st with SqlSelectCity _ => true | _ => false end)
                      log).

(** ** Vocabulary for the runs of the event loop *)

(** The place of a dump row is stored. *)
Definition known_row (s : Store) (row : AltRow) : Prop :=
  exists id, Str.parseInt (ar_geonameid row) = Some id /\ placeExists s id = true.

(** A batch that awaits an [INSERT] has found the place of its row. *)
Definition insert_justified (s : Store) (b : InFlight) : Prop :=
  if_insert b = true ->
  exists row rest, if_rows b = row :: rest /\ known_row s row.

Definition reading_justified (s : Store) (st : Reading) : Prop :=
  (forall b, rd_awaited st = Some b -> insert_justified s b)
  /\ (forall b, rd_close st = CloseAwaitsBatch b -> insert_justified s b).

(** The store [s] is [s0] with alternate names of stored places added. *)
Definition grown_from (s0 s : Store) : Prop :=
  cities s = cities s0
  /\ forall a, In a (alternate_names s) ->
               In a (alternate_names s0) \/ known_place s0 a.

(** * Properties *)

(** ** Validation before any store access *)

Lemma truthy_length (q : string) :
  (String.length q < 2)%nat ->
  negb (Str.truthy q) || (String.length q <? 2)%nat = true.
Proof.
  intros H. apply orb_true_iff. right. now apply Nat.ltb_lt.
Qed.

(** C3: a query that is missing or shorter than 2 characters makes [search]
    answer with the validation error, and a missing (or empty) [lat] or
    [lon] makes [reverse] answer with the validation error; in both cases
    the handler returns normally, the store is untouched and no statement
    is sent. *)
Theorem validation_errors_touch_no_data :
  (forall (rq : SearchReq) (s : Store),
      (forall q, rq_q rq = Some q -> (String.length q < 2)%nat) ->
      search rq s = (Err400 QueryRequiredAtLeast2Characters, s, []))
  /\ (forall (rq : ReverseReq) (s : Store),
         Str.truthy_opt (rv_lat rq) = false \/ Str.truthy_opt (rv_lon rq) = false ->
         reverse rq s = (Err400 LatAndLonRequired, s, [])).
Proof.
  split.
  - intros rq s Hq. unfold search.
    destruct (rq_q rq) as [q|] eqn:E; [|reflexivity].
    rewrite truthy_length by now apply Hq. reflexivity.
  - intros rq s H. unfold reverse.
    destruct (rv_lat rq) as [lat|], (rv_lon rq) as [lon|]; simpl in H;
      try reflexivity.
    destruct H as [H|H]; rewrite H; simpl; try reflexivity.
    now rewrite orb_true_r.
Qed.

(** ** Case of the country filter *)





Lemma truthy_map_string (f : ascii -> ascii) (s : string) :
  Str.truthy (Str.map_string f s) = Str.truthy s.
Proof. now destruct s. Qed.



(** ** Idempotent ingestion *)

Lemma set_alternate_names_same (s : Store) :
  set_alternate_names (alternate_names s) s = s.
Proof. now destruct s. Qed.

Lemma set_cities_same (s : Store) : set_cities (cities s) s = s.
Proof. now destruct s. Qed.

Lemma country_of_seed_code (c : CountrySeed) (new : Country) :
  country_of_seed c = Some new -> co_country_code new = seed_code c.
Proof.
  unfold country_of_seed. intros H.
  destruct (varchar_ok 2 _ && varchar_ok 200 _); [|discriminate].
  destruct (decimal8_in 2 _); [|discriminate].
  destruct (decimal8_in 3 _); [|discriminate].
  simpl in H. now inversion H.
Qed.

Lemma upsert_country_row_replaces (new old : Country) (l1 l2 : list Country) :
  co_country_code old = co_country_code new ->
  (forall x, In x l1 -> co_country_code x <> co_country_code new) ->
  upsert_country_row new (l1 ++ old :: l2) = l1 ++ new :: l2.
Proof.
  intros Hold. induction l1 as [|x l1 IH]; intros Hl1; simpl.
  - rewrite Hold, String.eqb_refl. now destruct new.
  - destruct (String.eqb_spec (co_country_code x) (co_country_code new)) as [E|_].
    + exfalso. apply (Hl1 x); [now left | exact E].
    + f_equal. apply IH. intros y Hy. apply Hl1. now right.
Qed.

(** [processRow] leaves the store alone or appends one alternate name. *)
Lemma processRow_final (row : AltRow) (s : Store) :
  final (processRow row s) = s
  \/ exists a, alternate_name_of_row row = Some a
               /\ final (processRow row s)
                  = set_alternate_names (alternate_names s ++ [a]) s.
Proof.
  unfold processRow, bind, query, execute, final, insert_alternate_name. simpl.
  destruct (select_city _ s) as [n|]; simpl; [|now left].
  destruct (0 <? n)%nat; simpl; [|now left].
  destruct (alternate_name_of_row row) as [a|]; simpl; [|now left].
  unfold insertAlternateNameIfAbsent.
  destruct (existsb _ _); simpl; [now left|].
  right. now exists a.
Qed.

Lemma processRow_extends (row : AltRow) (s : Store) :
  exists l, final (processRow row s)
            = set_alternate_names (alternate_names s ++ l) s.
Proof.
  destruct (processRow_final row s) as [H|[a [_ H]]].
  - exists []. now rewrite H, app_nil_r, set_alternate_names_same.
  - now exists [a].
Qed.

Lemma set_alternate_names_app (s : Store) (l1 l2 : list AlternateName) :
  set_alternate_names
    (alternate_names (set_alternate_names (alternate_names s ++ l1) s) ++ l2)
    (set_alternate_names (alternate_names s ++ l1) s)
  = set_alternate_names (alternate_names s ++ (l1 ++ l2)) s.
Proof. destruct s; unfold set_alternate_names; simpl. now rewrite app_assoc. Qed.

Lemma process_rows_extends (rows : list AltRow) (n : Z) (s : Store) :
  exists l, final (process_rows rows n s)
            = set_alternate_names (alternate_names s ++ l) s.
Proof.
  revert n s. induction rows as [|row rows IH]; intros n s; simpl.
  - exists []. unfold ret, final; simpl.
    now rewrite app_nil_r, set_alternate_names_same.
  - unfold bind.
    destruct (processRow_extends row s) as [l1 H1].
    destruct (processRow row s) as [[m s1] t1] eqn:E1.
    unfold final in H1; simpl in H1. subst s1.
    specialize (IH (n + m) (set_alternate_names (alternate_names s ++ l1) s)).
    destruct IH as [l2 H2].
    destruct (process_rows rows (n + m) _) as [[k s2] t2] eqn:E2.
    unfold final in *; simpl in *. subst s2.
    exists (l1 ++ l2). apply set_alternate_names_app.
Qed.

Lemma processBatch_extends (rows : list AltRow) (s : Store) :
  exists l, final (processBatch rows s)
            = set_alternate_names (alternate_names s ++ l) s.
Proof.
  destruct rows as [|row rows].
  - exists []. unfold processBatch, ret, final; simpl.
    now rewrite app_nil_r, set_alternate_names_same.
  - apply (process_rows_extends (row :: rows) 0 s).
Qed.

Lemma processQueue_cons langs (line : string) (rest : list string) (st : Loader) :
  processQueue langs (line :: rest) st
  = if (BATCH_SIZE <=? length (ld_batch (processLine langs line st)))%nat then
      batchCount <- processBatch (ld_batch (processLine langs line st)) ;;
      processQueue langs rest
        (mkLoader (ld_count (processLine langs line st) + batchCount)
                  (ld_processed (processLine langs line st)) [])
    else processQueue langs rest (processLine langs line st).
Proof. reflexivity. Qed.

Lemma processQueue_extends langs (lines : list string) (st : Loader) (s : Store) :
  exists l, final (processQueue langs lines st s)
            = set_alternate_names (alternate_names s ++ l) s.
Proof.
  revert st s. induction lines as [|line lines IH]; intros st s.
  - exists []. unfold ret, final; simpl.
    now rewrite app_nil_r, set_alternate_names_same.
  - rewrite processQueue_cons.
    destruct (BATCH_SIZE <=? length (ld_batch (processLine langs line st)))%nat;
      [|apply IH].
    unfold bind.
    destruct (processBatch_extends (ld_batch (processLine langs line st)) s)
      as [l1 H1].
    destruct (processBatch _ s) as [[m s1] t1] eqn:E1.
    unfold final in H1; simpl in H1. subst s1.
    match goal with |- context [processQueue langs lines ?st' ?s'] =>
      destruct (IH st' s') as [l2 H2];
      destruct (processQueue langs lines st' s') as [[k s2] t2] eqn:E2
    end.
    unfold final in *; simpl in *. subst s2.
    exists (l1 ++ l2). apply set_alternate_names_app.
Qed.

Lemma loadAlternateNames_extends langs (lines : list string) (s : Store) :
  exists l, final (loadAlternateNames langs lines s)
            = set_alternate_names (alternate_names s ++ l) s.
Proof.
  unfold loadAlternateNames, bind, query. simpl.
  destruct (0 <? _).
  - exists []. unfold ret, final; simpl.
    now rewrite app_nil_r, set_alternate_names_same.
  - destruct (processQueue_extends langs lines (mkLoader 0 0 []) s) as [l1 H1].
    destruct (processQueue langs lines _ s) as [[st s1] t1] eqn:E1.
    unfold final in H1; simpl in H1. subst s1.
    unfold on_close.
    destruct (ld_batch st) as [|row rows].
    + exists l1. reflexivity.
    + unfold bind.
      destruct (processBatch_extends (row :: rows)
                  (set_alternate_names (alternate_names s ++ l1) s)) as [l2 H2].
      destruct (processBatch (row :: rows) _) as [[k s2] t2] eqn:E2.
      unfold final in *; simpl in *. subst s2.
      exists (l1 ++ l2). apply set_alternate_names_app.
Qed.

Lemma set_cities_app (s : Store) (l1 l2 : list City) :
  set_cities (cities (set_cities (cities s ++ l1) s) ++ l2)
             (set_cities (cities s ++ l1) s)
  = set_cities (cities s ++ (l1 ++ l2)) s.
Proof. destruct s; unfold set_cities; simpl. now rewrite app_assoc. Qed.

Lemma insert_city_extends (r : CityCsvRow) (s : Store) :
  exists l, final (execute (SqlInsertCity r) (insert_city r) s)
            = set_cities (cities s ++ l) s.
Proof.
  unfold execute, insert_city, final.
  destruct (city_of_row r) as [c|]; simpl.
  - unfold insertPlaceIfAbsent. destruct (placeExists s (c_geonameid c)); simpl.
    + exists []. now rewrite app_nil_r, set_cities_same.
    + now exists [c].
  - exists []. now rewrite app_nil_r, set_cities_same.
Qed.

Lemma import_cities_extends (rows : list CityCsvRow) (n : Z) (s : Store) :
  exists l, final (import_cities rows n s) = set_cities (cities s ++ l) s.
Proof.
  revert n s. induction rows as [|r rows IH]; intros n s; simpl.
  - exists []. unfold ret, final; simpl.
    now rewrite app_nil_r, set_cities_same.
  - unfold bind.
    destruct (insert_city_extends r s) as [l1 H1].
    destruct (execute (SqlInsertCity r) (insert_city r) s) as [[ok s1] t1] eqn:E1.
    unfold final in H1; simpl in H1. subst s1.
    assert (exists k, (let '(b, s2, l2) :=
                         match ok with
                         | Some _ => import_cities rows (n + 1)
                         | None => import_cities rows n
                         end (set_cities (cities s ++ l1) s)
                       in (b, s2, t1 ++ l2))
                      = (let '(b, s2, l2) :=
                           import_cities rows k (set_cities (cities s ++ l1) s)
                         in (b, s2, t1 ++ l2))) as [k ->]
      by (destruct ok; eauto).
    destruct (IH k (set_cities (cities s ++ l1) s)) as [l2 H2].
    destruct (import_cities rows k _) as [[b s2] t2] eqn:E2.
    unfold final in *; simpl in *. subst s2.
    exists (l1 ++ l2). apply set_cities_app.
Qed.

Lemma loadCitiesData_probe (rows : list CityCsvRow) (s : Store) :
  cities s <> [] -> loadCitiesData rows s = (None, s, [SqlCountCities]).
Proof.
  intros H. unfold loadCitiesData, bind, query.
  destruct (cities s) as [|c l] eqn:E; [congruence|]. reflexivity.
Qed.

Lemma loadAlternateNames_probe langs (lines : list string) (s : Store) :
  alternate_names s <> [] ->
  loadAlternateNames langs lines s = (None, s, [SqlCountAlternateNames]).
Proof.
  intros H. unfold loadAlternateNames, bind, query.
  destruct (alternate_names s) as [|a l] eqn:E; [congruence|]. reflexivity.
Qed.

Lemma loadCitiesData_twice (rows : list CityCsvRow) (s : Store) :
  final (loadCitiesData rows (final (loadCitiesData rows s)))
  = final (loadCitiesData rows s).
Proof.
  destruct (cities s) as [|c0 l0] eqn:Es.
  - assert (exists l, final (loadCitiesData rows s) = set_cities (cities s ++ l) s)
      as [l Hl].
    { destruct (import_cities_extends rows 0 s) as [l1 H1]. exists l1.
      unfold loadCitiesData, bind, query.
      replace (0 <? Z.of_nat (length (cities s))) with false
        by (rewrite Es; reflexivity).
      destruct (import_cities rows 0 s) as [[b s1] t1].
      exact H1. }
    destruct l as [|c l].
    + rewrite app_nil_r, set_cities_same in Hl. now rewrite !Hl.
    + rewrite Hl. rewrite loadCitiesData_probe; [reflexivity|].
      simpl. rewrite Es. discriminate.
  - assert (cities s <> []) as Hne by (rewrite Es; discriminate).
    rewrite (loadCitiesData_probe rows s Hne). unfold final; simpl.
    now rewrite (loadCitiesData_probe rows s Hne).
Qed.

Lemma loadAlternateNames_twice langs (lines : list string) (s : Store) :
  final (loadAlternateNames langs lines (final (loadAlternateNames langs lines s)))
  = final (loadAlternateNames langs lines s).
Proof.
  destruct (alternate_names s) as [|a0 l0] eqn:Es.
  - destruct (loadAlternateNames_extends langs lines s) as [l Hl].
    destruct l as [|a l].
    + rewrite app_nil_r, set_alternate_names_same in Hl. now rewrite !Hl.
    + rewrite Hl. rewrite loadAlternateNames_probe; [reflexivity|].
      simpl. rewrite Es. discriminate.
  - assert (alternate_names s <> []) as Hne by (rewrite Es; discriminate).
    rewrite (loadAlternateNames_probe langs lines s Hne). unfold final; simpl.
    now rewrite (loadAlternateNames_probe langs lines s Hne).
Qed.

(** C4: ingestion is idempotent.  An [INSERT] of a place or of an alternate
    name whose id is already stored leaves the store as it is; ingestion of
    places or of alternate names into a collection that is not empty stops
    at the existence probe, sends no other statement and changes nothing,
    and running either ingestion twice gives the store of running it once;
    seeding a country whose code is stored replaces that row by the seeded
    one and leaves every other row in place. *)
Theorem ingestion_is_idempotent :
  (forall (s : Store) (r : CityCsvRow) (c : City),
      city_of_row r = Some c -> placeExists s (c_geonameid c) = true ->
      execute (SqlInsertCity r) (insert_city r) s = (Some tt, s, [SqlInsertCity r]))
  /\ (forall (s : Store) (row : AltRow) (a : AlternateName),
         alternate_name_of_row row = Some a ->
         existsb (fun x => Z.eqb (an_alternatenameid x) (an_alternatenameid a))
                 (alternate_names s) = true ->
         execute (SqlInsertAlternateName row) (insert_alternate_name row) s
         = (Some tt, s, [SqlInsertAlternateName row]))
  /\ (forall (rows : list CityCsvRow) (s : Store),
         cities s <> [] ->
         loadCitiesData rows s = (None, s, [SqlCountCities]))
  /\ (forall langs (lines : list string) (s : Store),
         alternate_names s <> [] ->
         loadAlternateNames langs lines s = (None, s, [SqlCountAlternateNames]))
  /\ (forall (rows : list CityCsvRow) (s : Store),
         final (loadCitiesData rows (final (loadCitiesData rows s)))
         = final (loadCitiesData rows s))
  /\ (forall langs (lines : list string) (s : Store),
         final (loadAlternateNames langs lines
                  (final (loadAlternateNames langs lines s)))
         = final (loadAlternateNames langs lines s))
  /\ (forall (seed : CountrySeed) (new old : Country) (l1 l2 : list Country)
             (s : Store),
         country_of_seed seed = Some new ->
         countries s = l1 ++ old :: l2 ->
         co_country_code old = seed_code seed ->
         (forall x, In x l1 -> co_country_code x <> seed_code seed) ->
         upsertCountry seed s = Some (set_countries (l1 ++ new :: l2) s)).
Proof.
  repeat split.
  - intros s r c Hc Hex. unfold execute, insert_city, insertPlaceIfAbsent.
    rewrite Hc. simpl. now rewrite Hex.
  - intros s row a Ha Hex.
    unfold execute, insert_alternate_name, insertAlternateNameIfAbsent.
    rewrite Ha. simpl. now rewrite Hex.
  - apply loadCitiesData_probe.
  - apply loadAlternateNames_probe.
  - apply loadCitiesData_twice.
  - apply loadAlternateNames_twice.
  - intros seed new old l1 l2 s Hnew Hs Hold Hl1. unfold upsertCountry.
    rewrite Hnew. simpl. rewrite Hs.
    pose proof (country_of_seed_code _ _ Hnew) as Hcode.
    rewrite upsert_country_row_replaces; [reflexivity| |]; rewrite Hcode; auto.
Qed.

(** ** The alternate-name pipeline as one pass over the accepted rows *)

Lemma bind_assoc {A B C} (m : DB A) (f : A -> DB B) (g : B -> DB C) (s : Store) :
  bind (bind m f) g s = bind m (fun a => bind (f a) g) s.
Proof.
  unfold bind. destruct (m s) as [[a s1] t1].
  destruct (f a s1) as [[b s2] t2]. destruct (g b s2) as [[c s3] t3].
  now rewrite app_assoc.
Qed.

Lemma bind_ext {A B} (m : DB A) (f g : A -> DB B) (s : Store) :
  (forall a s', f a s' = g a s') -> bind m f s = bind m g s.
Proof.
  intros H. unfold bind. destruct (m s) as [[a s1] t1]. now rewrite H.
Qed.

Lemma bind_ret_l {A B} (a : A) (f : A -> DB B) (s : Store) :
  bind (ret a) f s = f a s.
Proof. unfold bind, ret. now destruct (f a s) as [[b s1] t1]. Qed.

Lemma processLine_batch langs (line : string) (st : Loader) :
  ld_batch (processLine langs line st) = ld_batch st ++ pushed langs line.
Proof.
  unfold pushed, processLine.
  destruct (length (Str.split tab line) <? 8)%nat; simpl;
    [now rewrite app_nil_r|].
  destruct (row_of_columns _) as [row|]; simpl; [|now rewrite app_nil_r].
  destruct (accepts langs row); simpl; [reflexivity | now rewrite app_nil_r].
Qed.

Lemma processLine_count langs (line : string) (st : Loader) :
  ld_count (processLine langs line st) = ld_count st.
Proof.
  unfold processLine.
  destruct (length (Str.split tab line) <? 8)%nat; simpl; [reflexivity|].
  destruct (row_of_columns _) as [row|]; simpl; [|reflexivity].
  now destruct (accepts langs row).
Qed.

Lemma process_rows_shift (rows : list AltRow) (n : Z) (s : Store) :
  process_rows rows n s
  = let '(m, s', t) := process_rows rows 0 s in (n + m, s', t).
Proof.
  revert n s. induction rows as [|row rows IH]; intros n s; simpl.
  - unfold ret. now rewrite Z.add_0_r.
  - unfold bind. destruct (processRow row s) as [[k s1] t1].
    rewrite (IH (n + k)), (IH (0 + k)).
    destruct (process_rows rows 0 s1) as [[m s2] t2].
    f_equal. f_equal. lia.
Qed.

Lemma process_rows_app (a b : list AltRow) (n : Z) (s : Store) :
  process_rows (a ++ b) n s
  = bind (process_rows a n) (fun m => process_rows b m) s.
Proof.
  revert n s. induction a as [|row a IH]; intros n s; simpl.
  - now rewrite bind_ret_l.
  - rewrite bind_assoc. apply bind_ext. intros k s'. apply IH.
Qed.

Lemma processBatch_then (rows : list AltRow) (n : Z) (k : Z -> DB Z) (s : Store) :
  bind (processBatch rows) (fun batchCount => k (n + batchCount)) s
  = bind (process_rows rows n) k s.
Proof.
  unfold bind at 2. rewrite process_rows_shift.
  destruct rows as [|row rows].
  - unfold processBatch, process_rows, bind, ret. reflexivity.
  - unfold processBatch, bind.
    now destruct (process_rows (row :: rows) 0 s) as [[m s1] t1].
Qed.

Lemma on_close_rows (st : Loader) (s : Store) :
  on_close st s = process_rows (ld_batch st) (ld_count st) s.
Proof.
  unfold on_close. destruct (ld_batch st) as [|row rows] eqn:E.
  - reflexivity.
  - rewrite (processBatch_then (row :: rows) (ld_count st) ret s).
    unfold bind, ret.
    destruct (process_rows (row :: rows) (ld_count st) s) as [[m s1] t1].
    now rewrite app_nil_r.
Qed.

Lemma pipeline_rows langs (lines : list string) (st : Loader) (s : Store) :
  bind (processQueue langs lines st) on_close s
  = process_rows (ld_batch st ++ accepted langs lines) (ld_count st) s.
Proof.
  revert st s. induction lines as [|line lines IH]; intros st s.
  - simpl. rewrite bind_ret_l, app_nil_r. apply on_close_rows.
  - rewrite processQueue_cons.
    change (accepted langs (line :: lines))
      with (pushed langs line ++ accepted langs lines).
    rewrite app_assoc, <- processLine_batch.
    destruct (BATCH_SIZE <=? length (ld_batch (processLine langs line st)))%nat.
    + rewrite bind_assoc, process_rows_app.
      rewrite <- (processLine_count langs line st).
      rewrite <- (processBatch_then _ _ (fun m => process_rows _ m)).
      apply bind_ext. intros bc s'. rewrite IH. reflexivity.
    + rewrite IH. now rewrite processLine_count.
Qed.

(** The whole of [loadAlternateNames]: the probe, then [processRow] on every
    accepted row in file order. *)
Lemma loadAlternateNames_rows langs (lines : list string) (s : Store) :
  loadAlternateNames langs lines s
  = if 0 <? Z.of_nat (length (alternate_names s))
    then (None, s, [SqlCountAlternateNames])
    else let '(n, s', t) := process_rows (accepted langs lines) 0 s in
         (Some n, s', SqlCountAlternateNames :: t).
Proof.
  unfold loadAlternateNames. unfold bind at 1. unfold query.
  destruct (0 <? _); [reflexivity|].
  pose proof (pipeline_rows langs lines (mkLoader 0 0 []) s) as H.
  simpl in H. rewrite <- H. clear H.
  unfold bind, ret.
  destruct (processQueue langs lines _ s) as [[st s1] t1].
  destruct (on_close st s1) as [[n s2] t2]. simpl.
  now rewrite app_nil_r.
Qed.

(** ** The filter of alternate-name rows *)

Lemma accepted_app langs (l1 l2 : list string) :
  accepted langs (l1 ++ l2) = accepted langs l1 ++ accepted langs l2.
Proof. apply flat_map_app. Qed.

Lemma accepted_cons langs (line : string) (l : list string) :
  accepted langs (line :: l) = pushed langs line ++ accepted langs l.
Proof. reflexivity. Qed.

Lemma includes_In (l : list string) (x : string) :
  includes l x = true -> In x l.
Proof.
  unfold includes. rewrite existsb_exists. intros [y [Hy E]].
  apply String.eqb_eq in E. now subst.
Qed.

Lemma accepts_spec langs (row : AltRow) :
  accepts langs row = true ->
  ar_isolanguage row <> EmptyString
  /\ (String.length (ar_isolanguage row) <= 7)%nat
  /\ (String.length (ar_alternate_name row) <= 400)%nat
  /\ forall l, langs = Some l ->
               In (Str.toLowerCase (ar_isolanguage row)) l \/ In "all" l.
Proof.
  unfold accepts. rewrite !andb_true_iff.
  intros [[[[Hl Hl7] _] Hn] Hm]. repeat split.
  - intros E. now rewrite E in Hl.
  - now apply Nat.leb_le.
  - now apply Nat.leb_le.
  - intros l ->. apply orb_true_iff in Hm.
    destruct Hm as [H|H]; [left|right]; now apply includes_In.
Qed.

Lemma pushed_inv langs (line : string) (row : AltRow) :
  In row (pushed langs line) ->
  (8 <= length (Str.split tab line))%nat
  /\ row_of_columns (Str.split tab line) = Some row
  /\ accepts langs row = true.
Proof.
  unfold pushed, processLine.
  destruct (length (Str.split tab line) <? 8)%nat eqn:E8; simpl; [intros []|].
  apply Nat.ltb_ge in E8.
  destruct (row_of_columns _) as [r|]; simpl; [|intros []].
  destruct (accepts langs r) eqn:Ea; simpl; [|intros []].
  intros [->|[]]. auto.
Qed.

(** C6: a line puts a row into the batch only when it has at least 8
    tab-separated fields, its language code is not empty and has at most 7
    characters, its name has at most 400 characters and, with an allow-list
    configured, its lower-cased language code or the wildcard ["all"] is in
    the list; [processLine] adds nothing else to the batch; and a line that
    puts no row into the batch changes neither the answer, nor the store,
    nor the statements sent by the ingestion. *)
Theorem alternate_name_rows_filtered :
  (forall langs (line : string) (row : AltRow),
      In row (pushed langs line) ->
      (8 <= length (Str.split tab line))%nat
      /\ row_of_columns (Str.split tab line) = Some row
      /\ ar_isolanguage row <> EmptyString
      /\ (String.length (ar_isolanguage row) <= 7)%nat
      /\ (String.length (ar_alternate_name row) <= 400)%nat
      /\ forall l, langs = Some l ->
                   In (Str.toLowerCase (ar_isolanguage row)) l \/ In "all" l)
  /\ (forall langs (line : string) (st : Loader),
         ld_batch (processLine langs line st) = ld_batch st ++ pushed langs line)
  /\ (forall langs (l1 : list string) (line : string) (l2 : list string)
             (s : Store),
         pushed langs line = [] ->
         loadAlternateNames langs (l1 ++ line :: l2) s
         = loadAlternateNames langs (l1 ++ l2) s).
Proof.
  split; [|split].
  - intros langs line row Hin.
    destruct (pushed_inv _ _ _ Hin) as [H8 [Hrow Hacc]].
    destruct (accepts_spec _ _ Hacc) as [H1 [H2 [H3 H4]]]. auto 10.
  - apply processLine_batch.
  - intros langs l1 line l2 s Hdrop.
    rewrite !loadAlternateNames_rows.
    replace (accepted langs (l1 ++ line :: l2)) with (accepted langs (l1 ++ l2));
      [reflexivity|].
    now rewrite !accepted_app, accepted_cons, Hdrop.
Qed.

(** ** What a result row is made of *)

Lemma in_insert_by {A} (le : A -> A -> bool) (x y : A) (l : list A) :
  In x (insert_by le y l) <-> x = y \/ In x l.
Proof. forget_extensions.
  induction l as [|z l IH]; simpl.
  - intuition congruence.
  - destruct (le y z); simpl; rewrite ?IH; intuition congruence.
Qed.

Lemma in_sort_by {A} (le : A -> A -> bool) (x : A) (l : list A) :
  In x (sort_by le l) <-> In x l.
Proof. forget_extensions.
  induction l as [|y l IH]; simpl; [tauto|].
  rewrite in_insert_by, IH. intuition congruence.
Qed.

Lemma in_take {A} (n : nat) (x : A) (l : list A) :
  In x (take n l) -> In x l.
Proof. forget_extensions.
  revert l. induction n as [|n IH]; intros [|y l]; simpl; try tauto.
  intros [H|H]; auto.
Qed.

Lemma eq_col_str_true (col : option string) (v : string) :
  eq_col_str col v = true -> col = Some v.
Proof.
  destruct col as [x|]; simpl; [|discriminate].
  intros H. apply String.eqb_eq in H. now subst.
Qed.

Lemma eq_col_Z_true (col : option Z) (v : Z) :
  eq_col_Z col v = true -> col = Some v.
Proof.
  destruct col as [x|]; simpl; [|discriminate].
  intros H. apply Z.eqb_eq in H. now subst.
Qed.

Lemma in_countries_of (s : Store) (c : City) (co : Country) :
  In co (countries_of s c) ->
  In co (countries s) /\ c_country_code c = Some (co_country_code co).
Proof.
  unfold countries_of. rewrite filter_In. intros [H E].
  split; [exact H | now apply eq_col_str_true].
Qed.

Lemma search_cities_inv (s : Store) (q pat : string) (row : SearchRow) :
  In row (search_cities s q pat) ->
  exists c co,
    In c (cities s) /\ In co (countries s)
    /\ c_country_code c = Some (co_country_code co)
    /\ city_group s q pat c <> []
    /\ row = city_row s q pat c co (city_group s q pat c).
Proof. forget_extensions.
  unfold search_cities. rewrite in_flat_map. intros [c [Hc H]].
  rewrite in_flat_map in H. destruct H as [co [Hco H]].
  apply in_countries_of in Hco. destruct Hco as [Hco Hcode].
  exists c, co.
  destruct (city_group s q pat c) as [|g grp] eqn:E; simpl in H; [tauto|].
  destruct H as [<-|[]]. repeat split; auto; discriminate.
Qed.

Lemma search_countries_inv (s : Store) (q pat : string) (row : SearchRow) :
  In row (search_countries s q pat) ->
  exists co,
    In co (countries s)
    /\ row = country_row s q pat co (country_group s q pat co).
Proof. forget_extensions.
  unfold search_countries. rewrite in_flat_map. intros [co [Hco H]].
  exists co.
  destruct (country_group s q pat co) as [|g grp] eqn:E; simpl in H; [tauto|].
  destruct H as [<-|[]]. auto.
Qed.

Lemma search_sql_rows (p : SearchParams) (s : Store) (rows : list SearchRow)
    (row : SearchRow) :
  search_sql p s = Some rows -> In row rows ->
  In row (search_cities s (sp_q p) (sp_pattern p))
  \/ In row (search_countries s (sp_q p) (sp_pattern p)).
Proof. forget_extensions.
  unfold search_sql. intros H Hin.
  destruct (sp_limit p) as [n|]; [|discriminate].
  destruct ((0 <=? n) && int8_ok n); [|discriminate].
  inversion H; subst rows; clear H.
  apply in_take, in_sort_by in Hin.
  assert (forall (o : option string) (f : string -> SearchRow -> bool) l,
             In row match o with Some v => List.filter (f v) l | None => l end ->
             In row l) as Hopt.
  { intros [v|] f l; [rewrite filter_In; tauto | tauto]. }
  apply (Hopt (sp_type p) (fun t r => String.eqb (sr_type r) t)) in Hin.
  apply (Hopt (sp_country p) (fun cc r => eq_col_bpchar (sr_country_code r) cc))
    in Hin.
  now apply in_app_or in Hin.
Qed.

Lemma search_ok_inv (rq : SearchReq) (s : Store) (results : list SearchResult)
    (count : nat) :
  result (search rq s) = Ok200 results count ->
  exists q rows,
    rq_q rq = Some q
    /\ search_sql (search_params q rq) s = Some rows
    /\ results = format_search_row <$> rows
    /\ count = length results.
Proof.
  unfold search. destruct (rq_q rq) as [q|]; [|discriminate].
  destruct (negb (Str.truthy q) || _); [discriminate|].
  unfold bind, query, ret, result. simpl.
  destruct (search_sql (search_params q rq) s) as [rows|] eqn:E; simpl;
    [|discriminate].
  intros H. inversion H. exists q, rows. auto.
Qed.

Lemma reverse_ok_inv (rq : ReverseReq) (s : Store) (results : list ReverseResult)
    (count : nat) :
  result (reverse rq s) = Ok200 results count ->
  exists lat lon rows,
    rv_lat rq = Some lat /\ rv_lon rq = Some lon
    /\ reverse_sql lat lon (reverse_radius rq) s = Some rows
    /\ results = format_reverse_row <$> rows
    /\ count = length results.
Proof.
  unfold reverse.
  destruct (rv_lat rq) as [lat|], (rv_lon rq) as [lon|]; try discriminate.
  destruct (negb (Str.truthy lat) || _); [discriminate|].
  unfold bind, query, ret, result. simpl.
  destruct (reverse_sql lat lon (reverse_radius rq) s) as [rows|] eqn:E; simpl;
    [|discriminate].
  intros H. inversion H. exists lat, lon, rows. auto.
Qed.

Lemma reverse_candidates_inv (lo la : num) (meters : Q) (s : Store)
    (row : ReverseRow) :
  In row (reverse_candidates lo la meters s) ->
  exists c co x y,
    In c (cities s) /\ In co (countries s)
    /\ c_country_code c = Some (co_country_code co)
    /\ c_longitude c = Some x /\ c_latitude c = Some y
    /\ ST_DWithin (lo, la) (x, y) meters = true
    /\ row = reverse_row lo la x y c co.
Proof.
  unfold reverse_candidates. rewrite in_flat_map. intros [c [Hc H]].
  rewrite in_flat_map in H. destruct H as [co [Hco H]].
  apply in_countries_of in Hco. destruct Hco as [Hco Hcode].
  destruct (c_longitude c) as [x|] eqn:Ex; [|destruct H].
  destruct (c_latitude c) as [y|] eqn:Ey; [|destruct H].
  destruct (ST_DWithin (lo, la) (x, y) meters) eqn:Ed; [|destruct H].
  destruct H as [<-|[]]. exists c, co, x, y. auto 10.
Qed.

Lemma reverse_sql_inv (lat lon : string) (radius : jsval) (s : Store)
    (rows : list ReverseRow) :
  reverse_sql lat lon radius s = Some rows ->
  exists la lo r,
    pg_float8_in lat = Some la /\ pg_float8_in lon = Some lo
    /\ radius_value radius = Some r
    /\ rows = take 5 (sort_by reverse_order
                        (reverse_candidates lo la (inject_Z (r * 1000)) s)).
Proof.
  unfold reverse_sql.
  destruct (pg_float8_in lat) as [la|]; [|discriminate].
  destruct (pg_float8_in lon) as [lo|]; [|discriminate].
  destruct (radius_value radius) as [r|]; [|discriminate]. simpl.
  destruct (int4_ok r && int4_ok (r * 1000)); [|discriminate].
  intros H. inversion H. exists la, lo, r. auto.
Qed.

(** ** Places without a country *)

Lemma in_fmap {A B} (f : A -> B) (l : list A) (y : B) :
  In y (f <$> l) <-> exists x, y = f x /\ In x l.
Proof.
  rewrite <- list_elem_of_In, list_elem_of_fmap.
  split; intros [x [E H]]; exists x; split; auto; now apply list_elem_of_In.
Qed.

Lemma format_search_row_country_code (row : SearchRow) :
  res_country_code (format_search_row row) = sr_country_code row.
Proof. unfold format_search_row. now destruct (String.eqb _ _). Qed.

Lemma search_row_country (p : SearchParams) (s : Store) (rows : list SearchRow)
    (row : SearchRow) :
  search_sql p s = Some rows -> In row rows ->
  exists co, In co (countries s) /\ sr_country_code row = Some (co_country_code co).
Proof.
  intros H Hin. destruct (search_sql_rows _ _ _ _ H Hin) as [Hc|Hc].
  - apply search_cities_inv in Hc.
    destruct Hc as [c [co [_ [Hco [Hcode [_ ->]]]]]]. now exists co.
  - apply search_countries_inv in Hc. destruct Hc as [co [Hco ->]]. now exists co.
Qed.

Lemma reverse_row_country (lat lon : string) (radius : jsval) (s : Store)
    (rows : list ReverseRow) (row : ReverseRow) :
  reverse_sql lat lon radius s = Some rows -> In row rows ->
  exists co, In co (countries s) /\ rr_country_code row = Some (co_country_code co).
Proof.
  intros H Hin. apply reverse_sql_inv in H.
  destruct H as [la [lo [r [_ [_ [_ ->]]]]]].
  apply in_take, in_sort_by, reverse_candidates_inv in Hin.
  destruct Hin as [c [co [x [y [_ [Hco [Hcode [_ [_ [_ ->]]]]]]]]]].
  now exists co.
Qed.

(** C10: a stored place whose country code is the code of no stored country
    is in no result of [search] and in no result of [reverse], since every
    result carries the code of a stored country; and the insertion of a
    place does not look at the countries: with a fresh id the row is
    added. *)
Theorem place_without_country_never_returned :
  (forall (s : Store) (c : City),
      In c (cities s) ->
      (forall co, In co (countries s) ->
                  c_country_code c <> Some (co_country_code co)) ->
      (forall rq results count r,
          result (search rq s) = Ok200 results count -> In r results ->
          res_country_code r <> c_country_code c)
      /\ (forall rq results count r,
             result (reverse rq s) = Ok200 results count -> In r results ->
             rv_country_code r <> c_country_code c))
  /\ (forall (s : Store) (r : CityCsvRow) (c : City),
         city_of_row r = Some c -> placeExists s (c_geonameid c) = false ->
         insert_city r s = Some (set_cities (cities s ++ [c]) s)).
Proof.
  split.
  - intros s c _ Hno. split.
    + intros rq results count r Hok Hr.
      apply search_ok_inv in Hok. destruct Hok as [q [rows [_ [Hsql [-> _]]]]].
      apply in_fmap in Hr. destruct Hr as [row [-> Hrow]].
      rewrite format_search_row_country_code.
      destruct (search_row_country _ _ _ _ Hsql Hrow) as [co [Hco E]].
      rewrite E. intros E'. now apply (Hno co Hco).
    + intros rq results count r Hok Hr.
      apply reverse_ok_inv in Hok.
      destruct Hok as [lat [lon [rows [_ [_ [Hsql [-> _]]]]]]].
      apply in_fmap in Hr. destruct Hr as [row [-> Hrow]]. simpl.
      destruct (reverse_row_country _ _ _ _ _ _ Hsql Hrow) as [co [Hco E]].
      rewrite E. intros E'. now apply (Hno co Hco).
  - intros s r c Hc Hex. unfold insert_city, insertPlaceIfAbsent.
    rewrite Hc. simpl. now rewrite Hex.
Qed.

(** ** Reverse lookup: nearest places within the radius *)

Lemma num_le_total (a b : num) : num_le a b = true \/ num_le b a = true.
Proof.
  destruct a as [x|], b as [y|]; simpl; auto.
  rewrite !Qle_bool_iff. destruct (Qlt_le_dec x y) as [H|H]; [left|right]; lra.
Qed.

Lemma num_le_trans (a b c : num) :
  num_le a b = true -> num_le b c = true -> num_le a c = true.
Proof.
  destruct a as [x|], b as [y|], c as [z|]; simpl; auto; try discriminate.
  rewrite !Qle_bool_iff. lra.
Qed.

Section Sorting.
Context {A : Type} (le : A -> A -> bool).
Hypothesis le_total : forall a b, le a b = true \/ le b a = true.
Hypothesis le_trans : forall a b c, le a b = true -> le b c = true -> le a c = true.

Let R (a b : A) : Prop := le a b = true.

Lemma insert_by_sorted (x : A) (l : list A) :
  StronglySorted R l -> StronglySorted R (insert_by le x l).
Proof using le_total le_trans.
  induction 1 as [|y l Hl IH Hy]; simpl.
  - constructor; constructor.
  - destruct (le x y) eqn:E.
    + constructor; [now constructor|].
      constructor; [exact E|].
      apply List.Forall_forall. intros z Hz. rewrite List.Forall_forall in Hy.
      apply (le_trans x y z); [exact E | now apply Hy].
    + constructor; [exact IH|].
      apply List.Forall_forall. intros z Hz. apply in_insert_by in Hz.
      destruct Hz as [->|Hz].
      * destruct (le_total x y) as [H|H]; [congruence | exact H].
      * rewrite List.Forall_forall in Hy. now apply Hy.
Qed.

Lemma sort_by_sorted (l : list A) : StronglySorted R (sort_by le l).
Proof using le_total le_trans.
  induction l as [|x l IH]; simpl; [constructor|].
  now apply insert_by_sorted.
Qed.

Lemma take_sorted (n : nat) (l : list A) :
  StronglySorted R l -> StronglySorted R (take n l).
Proof.
  intros H. revert n. induction H as [|y l Hl IH Hy]; intros [|n]; simpl;
    try constructor.
  - apply IH.
  - apply List.Forall_forall. intros z Hz. apply in_take in Hz.
    rewrite List.Forall_forall in Hy. now apply Hy.
Qed.
End Sorting.

Lemma toFixed2_close (d : Q) :
  exists n, toFixed2 (Num d) = Some n
            /\ (Qabs (inject_Z n - d * 100) <= 1 # 2)%Q.
Proof.
  unfold toFixed2. destruct (Qle_bool 0 d) eqn:E.
  - eexists; split; [reflexivity|].
    pose proof (Qfloor_le (d * 100 + (1 # 2))) as H1.
    pose proof (Qlt_floor (d * 100 + (1 # 2))) as H2.
    rewrite inject_Z_plus in H2.
    apply Qabs_Qle_condition. change (inject_Z 1) with 1%Q in H2. split; lra.
  - eexists; split; [reflexivity|].
    pose proof (Qfloor_le (- d * 100 + (1 # 2))) as H1.
    pose proof (Qlt_floor (- d * 100 + (1 # 2))) as H2.
    rewrite inject_Z_plus in H2. rewrite inject_Z_opp.
    apply Qabs_Qle_condition. change (inject_Z 1) with 1%Q in H2. split; lra.
Qed.

(** C2: whenever [reverse] answers with results, these are the formatted
    rows of at most 5 stored places; the radius is the integer that the
    [radius] parameter denotes, and 50 when the parameter is absent; each
    row's distance is the distance in kilometers between the query point
    and the place, and it is at most the radius; the rows are in ascending
    order of distance; and [distance_km] is that distance rounded to two
    decimals (printed hundredths within half a hundredth of it). *)
Theorem reverse_nearest_within_radius :
  DWithin_sound ->
  forall (rq : ReverseReq) (s : Store) (results : list ReverseResult) (count : nat),
    result (reverse rq s) = Ok200 results count ->
    exists lat lon la lo r rows,
      rv_lat rq = Some lat /\ rv_lon rq = Some lon
      /\ pg_float8_in lat = Some la /\ pg_float8_in lon = Some lo
      /\ match rv_radius rq with
         | Some text => pg_int4_in text = Some r
         | None => r = 50
         end
      /\ results = format_reverse_row <$> rows
      /\ count = length results
      /\ (length results <= 5)%nat
      /\ Forall (fun row =>
                   exists c x y m n,
                     In c (cities s)
                     /\ rr_geonameid row = c_geonameid c
                     /\ c_longitude c = Some x /\ c_latitude c = Some y
                     /\ ST_Distance (lo, la) (x, y) = Num m
                     /\ rr_distance_km row = Num (m / 1000)
                     /\ (m / 1000 <= inject_Z r)%Q
                     /\ rv_distance_km (format_reverse_row row) = Some n
                     /\ (Qabs (inject_Z n - (m / 1000) * 100) <= 1 # 2)%Q)
                rows
      /\ StronglySorted
           (fun a b => num_le (rr_distance_km a) (rr_distance_km b) = true) rows.
Proof.
  intros Hsound rq s results count Hok.
  apply reverse_ok_inv in Hok.
  destruct Hok as [lat [lon [rows [Hlat [Hlon [Hsql [-> ->]]]]]]].
  pose proof Hsql as Hinv. apply reverse_sql_inv in Hinv.
  destruct Hinv as [la [lo [r [Hla [Hlo [Hr Hrows]]]]]].
  exists lat, lon, la, lo, r, rows. repeat split; auto.
  - unfold reverse_radius in Hr. destruct (rv_radius rq) as [text|].
    + exact Hr.
    + simpl in Hr. now inversion Hr.
  - rewrite length_fmap, Hrows, length_take. lia.
  - apply List.Forall_forall. intros row Hrow. rewrite Hrows in Hrow.
    apply in_take, in_sort_by, reverse_candidates_inv in Hrow.
    destruct Hrow as [c [co [x [y [Hc [_ [_ [Hx [Hy [Hd ->]]]]]]]]]].
    destruct (Hsound _ _ _ Hd) as [m [Hm Hle]].
    destruct (toFixed2_close (m / 1000)) as [n [Hn Hclose]].
    exists c, x, y, m, n. simpl. rewrite Hm. simpl. repeat split; auto.
    rewrite inject_Z_mult in Hle. change (inject_Z 1000) with 1000%Q in Hle.
    unfold Qdiv. change (/ 1000)%Q with (1 # 1000)%Q. lra.
  - rewrite Hrows. apply take_sorted.
    apply (sort_by_sorted reverse_order).
    + intros a b. apply num_le_total.
    + intros a b c. apply num_le_trans.
Qed.


(** ** Alternate names of unknown places *)

Lemma filter_nil_existsb {A} (f : A -> bool) (l : list A) :
  existsb f l = false -> List.filter f l = [].
Proof.
  induction l as [|x l IH]; simpl; [reflexivity|].
  destruct (f x); simpl; [discriminate|exact IH].
Qed.

Lemma filter_pos_existsb {A} (f : A -> bool) (l : list A) :
  (0 <? length (List.filter f l))%nat = true -> existsb f l = true.
Proof.
  intros H. destruct (existsb f l) eqn:E; [reflexivity|].
  now rewrite (filter_nil_existsb f l E) in H.
Qed.

Lemma processRow_unknown (row : AltRow) (s : Store) :
  unknown_place s row ->
  processRow row s = (0, s, [SqlSelectCity (Str.parseInt (ar_geonameid row))]).
Proof.
  intros Hu. unfold processRow, bind, query, select_city.
  destruct (Str.parseInt (ar_geonameid row)) as [id|] eqn:E; [|reflexivity].
  destruct (int4_ok id); [|reflexivity].
  unfold placeExists in Hu. rewrite (filter_nil_existsb _ _ (Hu id E)).
  reflexivity.
Qed.

Lemma alternate_name_of_row_geonameid (row : AltRow) (a : AlternateName) :
  alternate_name_of_row row = Some a ->
  an_geonameid a = Str.parseInt (ar_geonameid row).
Proof.
  unfold alternate_name_of_row.
  destruct (Str.parseInt (ar_alternatenameid row)) as [id|]; [|discriminate].
  destruct (Str.parseInt (ar_geonameid row)) as [gid|]; [|discriminate]. simpl.
  destruct (_ && _); [|discriminate].
  intros H. now inversion H.
Qed.

Lemma processRow_known (row : AltRow) (s : Store) :
  final (processRow row s) = s
  \/ exists a, known_place s a
               /\ final (processRow row s)
                  = set_alternate_names (alternate_names s ++ [a]) s.
Proof.
  unfold processRow, bind, query, execute, final, insert_alternate_name. simpl.
  destruct (select_city _ s) as [n|] eqn:Es; simpl; [|now left].
  destruct (0 <? n)%nat eqn:En; simpl; [|now left].
  destruct (alternate_name_of_row row) as [a|] eqn:Ea; simpl; [|now left].
  unfold insertAlternateNameIfAbsent.
  destruct (existsb _ (alternate_names s)); simpl; [now left|].
  right. exists a. split; [|reflexivity].
  apply alternate_name_of_row_geonameid in Ea.
  unfold select_city in Es.
  destruct (Str.parseInt (ar_geonameid row)) as [id|]; [|discriminate].
  destruct (int4_ok id); [|discriminate].
  inversion Es; subst n. exists id. split; [exact Ea|].
  now apply filter_pos_existsb.
Qed.

Lemma process_rows_known (rows : list AltRow) (n : Z) (s : Store) :
  exists l, Forall (known_place s) l
            /\ final (process_rows rows n s)
               = set_alternate_names (alternate_names s ++ l) s.
Proof.
  revert n s. induction rows as [|row rows IH]; intros n s; simpl.
  - exists []. split; [constructor|]. unfold ret, final; simpl.
    now rewrite app_nil_r, set_alternate_names_same.
  - unfold bind.
    assert (exists l1, Forall (known_place s) l1
                       /\ final (processRow row s)
                          = set_alternate_names (alternate_names s ++ l1) s)
      as [l1 [K1 H1]].
    { destruct (processRow_known row s) as [H|[a [Ka H]]].
      - exists []. split; [constructor|].
        now rewrite H, app_nil_r, set_alternate_names_same.
      - exists [a]. split; [now constructor | exact H]. }
    destruct (processRow row s) as [[m s1] t1] eqn:E1.
    unfold final in H1; simpl in H1. subst s1.
    specialize (IH (n + m) (set_alternate_names (alternate_names s ++ l1) s)).
    destruct IH as [l2 [K2 H2]].
    destruct (process_rows rows (n + m) _) as [[k s2] t2] eqn:E2.
    unfold final in *; simpl in *. subst s2.
    exists (l1 ++ l2). split; [|apply set_alternate_names_app].
    apply Forall_app. split; [exact K1 | exact K2].
Qed.

Lemma loadAlternateNames_known langs (lines : list string) (s : Store)
    (a : AlternateName) :
  In a (alternate_names (final (loadAlternateNames langs lines s))) ->
  In a (alternate_names s) \/ known_place s a.
Proof.
  rewrite loadAlternateNames_rows.
  destruct (0 <? _); [now left|].
  destruct (process_rows_known (accepted langs lines) 0 s) as [l [K H]].
  destruct (process_rows (accepted langs lines) 0 s) as [[n s1] t1].
  unfold final in *; simpl in *. subst s1. simpl.
  rewrite in_app_iff. intros [Hin|Hin]; [now left|right].
  rewrite List.Forall_forall in K. now apply K.
Qed.

(** ** The translation mapping *)

Lemma foldl_insert_lookup (kvs : list (string * string)) (m : gmap string string)
    (k : string) :
  foldl (fun m kv => <[kv.1 := kv.2]> m) m kvs !! k
  = match last (omap (fun kv => if String.eqb kv.1 k then Some kv.2 else None) kvs)
    with
    | Some v => Some v
    | None => m !! k
    end.
Proof.
  revert m. induction kvs as [|[k' v'] kvs IH]; intros m; [reflexivity|].
  cbn [foldl omap list_omap fst snd]. rewrite IH.
  destruct (String.eqb_spec k' k) as [->|Hne].
  - rewrite last_cons. destruct (last _); [reflexivity|].
    now rewrite lookup_insert_eq.
  - destruct (last _); [reflexivity|].
    now rewrite lookup_insert_ne.
Qed.

Lemma omap_pairs_last (lang : string) (l : list AlternateName) :
  omap (fun kv : string * string => if String.eqb kv.1 lang then Some kv.2 else None)
       (omap non_null_pair (language_pairs l))
  = omap (fun a =>
            match an_isolanguage a, an_alternate_name a with
            | Some k, Some v => if String.eqb k lang then Some v else None
            | _, _ => None
            end) l.
Proof.
  induction l as [|a l IH]; simpl; [reflexivity|].
  destruct (an_isolanguage a) as [k|], (an_alternate_name a) as [v|]; simpl;
    try exact IH.
  destruct (String.eqb k lang); simpl; [f_equal|]; exact IH.
Qed.

(** Later rows replace earlier ones of the same language. *)
Lemma json_object_agg_lookup (l : list AlternateName) (lang : string) :
  default ∅ (json_object_agg (language_pairs l)) !! lang = last_for lang l.
Proof.
  unfold json_object_agg, last_for. rewrite <- omap_pairs_last.
  destruct (omap non_null_pair (language_pairs l)) as [|kv kvs] eqn:E.
  - reflexivity.
  - cbn [from_option id]. rewrite foldl_insert_lookup.
    now destruct (last _).
Qed.

Lemma filter_fmap_Some {A} (f : option A -> bool) (l : list A) :
  List.filter f (Some <$> l) = Some <$> List.filter (fun a => f (Some a)) l.
Proof.
  induction l as [|a l IH]; simpl; [reflexivity|].
  destruct (f (Some a)); simpl; [f_equal|]; exact IH.
Qed.

Lemma pairs_fmap_Some (l : list AlternateName) :
  (fun alt : option AlternateName =>
     (alt ≫= an_isolanguage, alt ≫= an_alternate_name)) <$> (Some <$> l)
  = language_pairs l.
Proof. induction l as [|a l IH]; simpl; [reflexivity|]. f_equal. exact IH. Qed.

Lemma city_group_pairs (s : Store) (q pat : string) (c : City) :
  json_object_agg
    ((fun alt => (alt ≫= an_isolanguage, alt ≫= an_alternate_name))
       <$> city_group s q pat c)
  = json_object_agg
      (language_pairs
         (List.filter (fun alt => city_where q pat c (Some alt))
                      (alternates_of s c))).
Proof.
  unfold city_group, left_join, alternates_of.
  destruct (List.filter _ (alternate_names s)) as [|a l] eqn:E.
  - simpl. now destruct (city_where q pat c None).
  - now rewrite filter_fmap_Some, pairs_fmap_Some.
Qed.

Lemma city_row_translations (s : Store) (q pat : string) (c : City) (co : Country) :
  res_name_translations
    (format_search_row (city_row s q pat c co (city_group s q pat c)))
  = translations_served s q pat c.
Proof.
  unfold format_search_row, city_row, translations_served, COALESCE.
  cbn [sr_type sr_name sr_name_translations_agg from_option id String.eqb
       res_name_translations].
  rewrite city_group_pairs.
  simpl. now destruct (Str.truthy_opt _).
Qed.

Lemma search_city_row_inv (p : SearchParams) (s : Store) (rows : list SearchRow)
    (row : SearchRow) :
  search_sql p s = Some rows -> In row rows -> sr_type row = "city" ->
  exists c co,
    In c (cities s) /\ In co (countries s)
    /\ c_country_code c = Some (co_country_code co)
    /\ row = city_row s (sp_q p) (sp_pattern p) c co
               (city_group s (sp_q p) (sp_pattern p) c).
Proof.
  intros H Hin Hty. destruct (search_sql_rows _ _ _ _ H Hin) as [Hc|Hc].
  - apply search_cities_inv in Hc.
    destruct Hc as [c [co [Hc [Hco [Hcode [_ ->]]]]]]. exists c, co. auto.
  - apply search_countries_inv in Hc. destruct Hc as [co [_ ->]]. discriminate.
Qed.

Lemma last_for_stored (lang name : string) (l : list AlternateName) :
  last_for lang l = Some name ->
  exists a, In a l /\ an_isolanguage a = Some lang
            /\ an_alternate_name a = Some name.
Proof.
  unfold last_for. intros H. apply last_Some_elem_of in H.
  apply list_elem_of_omap in H. destruct H as [a [Ha E]].
  exists a. apply list_elem_of_In in Ha. split; [exact Ha|].
  destruct (an_isolanguage a) as [k|]; [|discriminate].
  destruct (an_alternate_name a) as [v|]; [|discriminate].
  destruct (String.eqb_spec k lang) as [->|]; [|discriminate].
  now inversion E.
Qed.

Lemma served_pair_is_stored (s : Store) (q pat : string) (c : City)
    (lang name : string) :
  translations_served s q pat c !! lang = Some name ->
  (lang = "en" /\ name = c_name c)
  \/ exists a, In a (alternate_names s)
               /\ an_geonameid a = Some (c_geonameid c)
               /\ an_isolanguage a = Some lang
               /\ an_alternate_name a = Some name.
Proof.
  unfold translations_served.
  assert (default ∅ (json_object_agg
                      (language_pairs
                         (List.filter (fun alt => city_where q pat c (Some alt))
                                      (alternates_of s c)))) !! lang = Some name ->
          exists a, In a (alternate_names s)
                    /\ an_geonameid a = Some (c_geonameid c)
                    /\ an_isolanguage a = Some lang
                    /\ an_alternate_name a = Some name) as Hagg.
  { rewrite json_object_agg_lookup. intros H.
    apply last_for_stored in H. destruct H as [a [Ha [Hl Hn]]].
    apply filter_In in Ha. destruct Ha as [Ha _].
    unfold alternates_of in Ha. apply filter_In in Ha. destruct Ha as [Ha Hid].
    exists a. repeat split; auto. now apply eq_col_Z_true. }
  destruct (Str.truthy_opt _).
  - intros H. right. now apply Hagg.
  - destruct (String.eqb_spec "en" lang) as [<-|Hne].
    + rewrite lookup_insert_eq. intros H. inversion H. now left.
    + rewrite lookup_insert_ne by exact Hne. intros H. right. now apply Hagg.
Qed.



(** ** The scoring ladder of the city branch *)

Lemma qmax_range (a b lo hi : Q) :
  (lo <= a <= hi)%Q -> (lo <= b <= hi)%Q -> (lo <= qmax a b <= hi)%Q.
Proof. unfold qmax. now destruct (Qle_bool a b). Qed.

Lemma GREATEST_range (x : Q) (rest : list (option Q)) :
  (0 <= x <= 1)%Q ->
  Forall (fun o => forall y, o = Some y -> (0 <= y <= 1)%Q) rest ->
  (0 <= GREATEST x rest <= 1)%Q.
Proof.
  unfold GREATEST. intros Hx H. revert x Hx.
  induction H as [|o rest Ho _ IH]; intros x Hx; simpl; [exact Hx|].
  apply IH. destruct o as [y|]; [|exact Hx].
  apply qmax_range; [exact Hx | now apply Ho].
Qed.

Lemma MAX_range (l : list (option Q)) :
  Forall (fun o => forall y, o = Some y -> (0 <= y <= 1)%Q) l ->
  forall y, MAX l = Some y -> (0 <= y <= 1)%Q.
Proof.
  unfold MAX. intros H.
  assert (forall acc : option Q,
             (forall a, acc = Some a -> (0 <= a <= 1)%Q) ->
             forall y,
               foldl (fun acc o =>
                        match acc, o with
                        | Some a, Some y => Some (qmax a y)
                        | None, Some y => Some y
                        | _, None => acc
                        end) acc l = Some y ->
               (0 <= y <= 1)%Q) as Hgen.
  { induction H as [|o l Ho _ IH]; intros acc Hacc y; simpl.
    - apply Hacc.
    - apply IH. intros a.
      destruct acc as [b|], o as [z|]; intros E; inversion E; subst;
        auto using qmax_range. }
  apply Hgen. discriminate.
Qed.




(** ** Strings: append, reverse, patterns *)

Lemma str_app_cons (c : ascii) (s t : string) :
  (String c s ++ t)%string = String c (s ++ t)%string.
Proof. reflexivity. Qed.

Lemma str_app_nil_l (s : string) : (EmptyString ++ s)%string = s.
Proof. reflexivity. Qed.

Lemma str_app_nil_r (s : string) : (s ++ EmptyString)%string = s.
Proof.
  induction s as [|c s IH]; [reflexivity|]. now rewrite str_app_cons, IH.
Qed.

Lemma str_app_assoc (a b c : string) :
  ((a ++ b) ++ c)%string = (a ++ (b ++ c))%string.
Proof.
  induction a as [|x a IH]; [reflexivity|]. now rewrite !str_app_cons, IH.
Qed.

Lemma str_length_app (a b : string) :
  String.length (a ++ b)%string = (String.length a + String.length b)%nat.
Proof.
  induction a as [|x a IH]; [reflexivity|].
  rewrite str_app_cons. simpl. now rewrite IH.
Qed.

Lemma str_rev_app (s t : string) :
  String.rev_app s t = (String.rev s ++ t)%string.
Proof.
  revert t. induction s as [|c s IH]; intros t; [reflexivity|].
  unfold String.rev. simpl. rewrite (IH (String c t)), (IH (String c EmptyString)).
  now rewrite str_app_assoc.
Qed.

Lemma str_rev_cons (c : ascii) (s : string) :
  String.rev (String c s) = (String.rev s ++ String c EmptyString)%string.
Proof. unfold String.rev at 1. simpl. apply str_rev_app. Qed.

Lemma like_percent (p s : string) :
  Str.like (String "%" p) s
  = Str.like p s
    || match s with
       | EmptyString => false
       | String _ s' => Str.like (String "%" p) s'
       end.
Proof. destruct s; reflexivity. Qed.

(** [%] followed by [p] matches [s] when [p] matches a suffix of [s]. *)
Lemma like_star (p s : string) :
  Str.like (String "%" p) s = true
  <-> exists pre post, s = (pre ++ post)%string /\ Str.like p post = true.
Proof.
  induction s as [|c s IH].
  - rewrite like_percent, orb_false_r. split.
    + intros H. exists EmptyString, EmptyString. auto.
    + intros (pre & post & E & H). destruct pre as [|x pre]; [|discriminate].
      rewrite str_app_nil_l in E. now subst post.
  - rewrite like_percent, orb_true_iff, IH. split.
    + intros [H|(pre & post & -> & H)].
      * exists EmptyString, (String c s). auto.
      * exists (String c pre), post. auto.
    + intros (pre & post & E & H). destruct pre as [|x pre].
      * rewrite str_app_nil_l in E. subst post. now left.
      * rewrite str_app_cons in E. inversion E; subst. right. eauto.
Qed.

Lemma like_any (s : string) : Str.like "%" s = true.
Proof.
  apply like_star. exists s, EmptyString. split; [|reflexivity].
  now rewrite str_app_nil_r.
Qed.

Lemma like_literal_cons (c : ascii) (p s : string) :
  is_wildcard c = false ->
  Str.like (String c p) s
  = match s with
    | EmptyString => false
    | String d s' => Ascii.eqb c d && Str.like p s'
    end.
Proof.
  unfold is_wildcard. intros H.
  apply orb_false_iff in H. destruct H as [H H3].
  apply orb_false_iff in H. destruct H as [H1 H2].
  destruct s; simpl; now rewrite H1, H2, H3.
Qed.

(** A literal prefix of a pattern matches itself and nothing else. *)
Lemma like_literal_app (p r s : string) :
  literal p = true ->
  (Str.like (p ++ r) s = true
   <-> exists s', s = (p ++ s')%string /\ Str.like r s' = true).
Proof.
  revert s. induction p as [|c p IH]; intros s Hp.
  - rewrite str_app_nil_l. split.
    + intros H. exists s. auto.
    + intros (s' & E & H). rewrite str_app_nil_l in E. now subst.
  - simpl in Hp. apply andb_true_iff in Hp. destruct Hp as [Hc Hp].
    apply negb_true_iff in Hc.
    rewrite str_app_cons, like_literal_cons by exact Hc.
    destruct s as [|d s].
    + split; [discriminate|]. intros (s' & E & _). discriminate.
    + rewrite andb_true_iff, Ascii.eqb_eq, (IH s Hp). split.
      * intros [-> (s' & -> & H)]. exists s'. auto.
      * intros (s' & E & H). rewrite str_app_cons in E. inversion E; subst.
        split; eauto.
Qed.

Lemma toLowerCase_app (a b : string) :
  Str.toLowerCase (a ++ b)%string
  = (Str.toLowerCase a ++ Str.toLowerCase b)%string.
Proof.
  induction a as [|c a IH]; [reflexivity|].
  rewrite str_app_cons. unfold Str.toLowerCase in *. simpl.
  now rewrite IH.
Qed.

Lemma is_wildcard_lower (c : ascii) :
  is_wildcard (Str.lower_ascii c) = is_wildcard c.
Proof. destruct c as [[] [] [] [] [] [] [] []]; reflexivity. Qed.

Lemma literal_lower (q : string) : literal (Str.toLowerCase q) = literal q.
Proof.
  induction q as [|c q IH]; [reflexivity|].
  unfold Str.toLowerCase in *. simpl. now rewrite is_wildcard_lower, IH.
Qed.

Lemma ilike_literal (q name : string) :
  literal q = true ->
  (Str.ilike name ("%" ++ q ++ "%")%string = true
   <-> contains (Str.toLowerCase name) (Str.toLowerCase q)).
Proof.
  intros Hq. unfold Str.ilike, contains.
  rewrite !toLowerCase_app.
  change (Str.toLowerCase "%") with "%"%string.
  change ("%" ++ Str.toLowerCase q ++ "%")%string
    with (String "%" (Str.toLowerCase q ++ "%"))%string.
  rewrite like_star. rewrite <- literal_lower in Hq. split.
  - intros (pre & post & E & H).
    apply (like_literal_app _ _ _ Hq) in H. destruct H as (s' & -> & _).
    now exists pre, s'.
  - intros (pre & post & E). exists pre, (Str.toLowerCase q ++ post)%string.
    split; [exact E|].
    apply (like_literal_app _ _ _ Hq). exists post. split; [reflexivity|].
    apply like_any.
Qed.

Lemma lower_upper_ascii (c : ascii) :
  Str.lower_ascii (Str.upper_ascii c) = Str.lower_ascii c.
Proof. destruct c as [[] [] [] [] [] [] [] []]; reflexivity. Qed.

Lemma toLowerCase_toUpperCase (s : string) :
  Str.toLowerCase (Str.toUpperCase s) = Str.toLowerCase s.
Proof.
  induction s as [|c s IH]; simpl; [reflexivity|].
  unfold Str.toUpperCase, Str.toLowerCase in *; simpl.
  now rewrite lower_upper_ascii, IH.
Qed.

(** X1: for a name and a query made of ASCII characters, the query without
    [%], [_] and backslash, the substring test [name ILIKE '%q%'] of the
    search holds exactly when the lower-cased name contains the lower-cased
    query, so it does not depend on the case of either; and a name equal
    to the query up to case passes it. *)
Theorem substring_match_ignores_case :
  forall q name : string,
    Str.ascii_only q = true -> Str.ascii_only name = true ->
    literal q = true ->
    (Str.ilike name ("%" ++ q ++ "%")%string = true
     <-> contains (Str.toLowerCase name) (Str.toLowerCase q))
    /\ Str.ilike (Str.toUpperCase name) ("%" ++ Str.toUpperCase q ++ "%")%string
       = Str.ilike name ("%" ++ q ++ "%")%string
    /\ (lower_eq name q = true ->
        Str.ilike name ("%" ++ q ++ "%")%string = true).
Proof.
  intros q name _ _ Hq. split; [now apply ilike_literal|]. split.
  - unfold Str.ilike. rewrite !toLowerCase_app.
    now rewrite !toLowerCase_toUpperCase.
  - unfold lower_eq. intros E. apply String.eqb_eq in E.
    apply ilike_literal; [exact Hq|]. rewrite E.
    exists EmptyString, EmptyString. now rewrite str_app_nil_r.
Qed.

(** ** Wild cards in the query *)

Lemma all_of_app (c : ascii) (a b : string) :
  all_of c (a ++ b)%string = all_of c a && all_of c b.
Proof.
  induction a as [|x a IH]; [reflexivity|].
  rewrite str_app_cons. simpl. now rewrite IH, andb_assoc.
Qed.

Lemma all_of_lower (c : ascii) (s : string) :
  Str.lower_ascii c = c -> all_of c s = true -> Str.toLowerCase s = s.
Proof.
  intros Hc. induction s as [|x s IH]; [reflexivity|]. simpl.
  intros H. apply andb_true_iff in H. destruct H as [Hx Hs].
  apply Ascii.eqb_eq in Hx. subst x.
  unfold Str.toLowerCase in *. simpl. now rewrite Hc, IH.
Qed.

Lemma like_percents (p s : string) :
  all_of "%" p = true -> Str.like (String "%" p) s = true.
Proof.
  revert s. induction p as [|c p IH]; intros s H; [apply like_any|].
  simpl in H. apply andb_true_iff in H. destruct H as [Hc Hp].
  apply Ascii.eqb_eq in Hc. subst c.
  rewrite like_percent, (IH s Hp). reflexivity.
Qed.

Lemma like_underscores (u r s : string) :
  all_of "_" u = true ->
  (Str.like (u ++ r) s = true
   <-> exists a b, s = (a ++ b)%string
                   /\ String.length a = String.length u
                   /\ Str.like r b = true).
Proof.
  revert s. induction u as [|c u IH]; intros s H.
  - rewrite str_app_nil_l. split.
    + intros Hr. exists EmptyString, s. auto.
    + intros (a & b & E & Ha & Hr). destruct a; [|discriminate].
      rewrite str_app_nil_l in E. now subst.
  - simpl in H. apply andb_true_iff in H. destruct H as [Hc Hu].
    apply Ascii.eqb_eq in Hc. subst c. rewrite str_app_cons.
    destruct s as [|d s].
    + split; [discriminate|]. intros (a & b & E & Ha & _).
      destruct a; discriminate.
    + change (Str.like (String "_" (u ++ r)) (String d s))
        with (Str.like (u ++ r) s).
      rewrite (IH s Hu). split.
      * intros (a & b & -> & Ha & Hr). exists (String d a), b.
        simpl. auto.
      * intros (a & b & E & Ha & Hr). destruct a as [|x a]; [discriminate|].
        rewrite str_app_cons in E. inversion E; subst.
        exists a, b. simpl in Ha. auto.
Qed.

Lemma str_split_at (n : nat) (s : string) :
  (n <= String.length s)%nat ->
  exists a b, s = (a ++ b)%string /\ String.length a = n.
Proof.
  revert s. induction n as [|n IH]; intros s H.
  - exists EmptyString, s. auto.
  - destruct s as [|c s]; simpl in H; [lia|].
    destruct (IH s) as (a & b & -> & Ha); [lia|].
    exists (String c a), b. simpl. auto.
Qed.

(** X2: the query is put between two [%] as it is, so its own wild cards
    are interpreted: a query made of [%] only passes the substring test of
    every name, and a query made of [_] only passes the test of exactly the
    names with at least as many characters. *)
Theorem wildcards_in_query_are_interpreted :
  (forall q name : string,
      all_of "%" q = true ->
      Str.ilike name ("%" ++ q ++ "%")%string = true)
  /\ (forall q name : string,
         all_of "_" q = true ->
         Str.ilike name ("%" ++ q ++ "%")%string
         = (String.length q <=? String.length name)%nat).
Proof.
  split.
  - intros q name Hq. unfold Str.ilike.
    rewrite !toLowerCase_app, (all_of_lower "%" q eq_refl Hq).
    change (Str.toLowerCase "%") with "%"%string.
    change ("%" ++ q ++ "%")%string with (String "%" (q ++ "%"))%string.
    apply like_percents. now rewrite all_of_app, Hq.
  - intros q name Hq. unfold Str.ilike.
    rewrite !toLowerCase_app, (all_of_lower "_" q eq_refl Hq).
    change (Str.toLowerCase "%") with "%"%string.
    change ("%" ++ q ++ "%")%string with (String "%" (q ++ "%"))%string.
    assert (String.length (Str.toLowerCase name) = String.length name) as Hlen.
    { unfold Str.toLowerCase. induction name as [|c n IH]; simpl; auto. }
    rewrite <- Hlen.
    apply eq_true_iff_eq. rewrite like_star, Nat.leb_le. split.
    + intros (pre & post & E & H).
      apply (like_underscores _ _ _ Hq) in H.
      destruct H as (a & b & -> & Ha & _).
      rewrite E, !str_length_app. lia.
    + intros H. destruct (str_split_at _ _ H) as (a & b & E & Ha).
      exists EmptyString, (Str.toLowerCase name). split; [reflexivity|].
      apply (like_underscores _ _ _ Hq). exists a, b.
      split; [exact E|]. split; [exact Ha | apply like_any].
Qed.

(** ** Splitting and joining *)

Lemma split_aux_nonempty (sep : ascii) (s cur : string) :
  Str.split_aux sep s cur <> [].
Proof.
  revert cur. induction s as [|c s IH]; intros cur; simpl; [discriminate|].
  destruct (Ascii.eqb c sep); [discriminate | apply IH].
Qed.

Lemma join_cons (sep : ascii) (x : string) (l : list string) :
  l <> [] -> join sep (x :: l) = (x ++ String sep (join sep l))%string.
Proof. destruct l; [congruence | reflexivity]. Qed.

Lemma split_aux_join (sep : ascii) (s cur : string) :
  join sep (Str.split_aux sep s cur) = (String.rev cur ++ s)%string.
Proof.
  revert cur. induction s as [|c s IH]; intros cur; simpl.
  - now rewrite str_app_nil_r.
  - destruct (Ascii.eqb_spec c sep) as [->|Hne].
    + rewrite join_cons by apply split_aux_nonempty.
      now rewrite IH.
    + rewrite IH, str_rev_cons, str_app_assoc. reflexivity.
Qed.

Lemma occurrences_app (c : ascii) (a b : string) :
  occurrences c (a ++ b)%string = (occurrences c a + occurrences c b)%nat.
Proof.
  induction a as [|x a IH]; [reflexivity|].
  rewrite str_app_cons. simpl. rewrite IH. lia.
Qed.

Lemma occurrences_rev (c : ascii) (s : string) :
  occurrences c (String.rev s) = occurrences c s.
Proof.
  induction s as [|x s IH]; [reflexivity|].
  rewrite str_rev_cons, occurrences_app, IH. simpl. lia.
Qed.

Lemma split_aux_pieces (sep : ascii) (s cur : string) :
  occurrences sep cur = 0%nat ->
  List.Forall (fun p => occurrences sep p = 0%nat) (Str.split_aux sep s cur).
Proof.
  revert cur. induction s as [|c s IH]; intros cur Hcur; simpl.
  - constructor; [now rewrite occurrences_rev | constructor].
  - destruct (Ascii.eqb c sep) eqn:E.
    + constructor; [now rewrite occurrences_rev | now apply IH].
    + apply IH. simpl. now rewrite E.
Qed.

Lemma split_aux_length (sep : ascii) (s cur : string) :
  length (Str.split_aux sep s cur) = S (occurrences sep s).
Proof.
  revert cur. induction s as [|c s IH]; intros cur; simpl; [reflexivity|].
  destruct (Ascii.eqb c sep); simpl; now rewrite IH.
Qed.

Lemma split_aux_piece (sep : ascii) (x cur : string) :
  occurrences sep x = 0%nat ->
  Str.split_aux sep x cur = [(String.rev cur ++ x)%string]
  /\ forall rest,
       Str.split_aux sep (x ++ String sep rest) cur
       = (String.rev cur ++ x)%string :: Str.split_aux sep rest EmptyString.
Proof.
  revert cur. induction x as [|c x IH]; intros cur Hx.
  - rewrite str_app_nil_r. split; [reflexivity|]. intros rest.
    rewrite str_app_nil_l. simpl. now rewrite Ascii.eqb_refl.
  - simpl in Hx. destruct (Ascii.eqb c sep) eqn:E; [discriminate|].
    destruct (IH (String c cur) Hx) as [H1 H2].
    rewrite str_rev_cons, str_app_assoc in H1, H2.
    split.
    + simpl. rewrite E. exact H1.
    + intros rest. rewrite str_app_cons. simpl. rewrite E. apply H2.
Qed.

(** X3: [split] and [join] are inverse to each other: joining the pieces of
    a string with the separator gives the string back, no piece holds the
    separator, and there is one piece more than separators; the pieces of a
    join of separator-free strings are these strings; and so the
    [spoken_languages] of a country result, joined with commas, are the
    stored column. *)
Theorem split_join_round_trip :
  forall sep : ascii,
    (forall s : string,
        join sep (Str.split sep s) = s
        /\ List.Forall (fun p => occurrences sep p = 0%nat) (Str.split sep s)
        /\ length (Str.split sep s) = S (occurrences sep s))
    /\ (forall l : list string,
           l <> [] ->
           List.Forall (fun p => occurrences sep p = 0%nat) l ->
           Str.split sep (join sep l) = l)
    /\ (forall (row : SearchRow) (v : string),
           sr_type row <> "city" -> sr_spoken_languages row = Some v ->
           v <> EmptyString ->
           exists l, res_spoken_languages (format_search_row row) = Some l
                     /\ join "," l = v).
Proof.
  intros sep. split; [|split]; cycle 2.
  { intros row v Hty Hv Hne. unfold format_search_row.
    destruct (String.eqb_spec (sr_type row) "city") as [E|_]; [contradiction|].
    simpl. rewrite Hv. destruct v as [|c v]; [congruence|].
    eexists. split; [reflexivity|]. unfold Str.split. apply split_aux_join. }
  - intros s. unfold Str.split. split; [|split].
    + now rewrite split_aux_join.
    + now apply split_aux_pieces.
    + apply split_aux_length.
  - intros l Hne Hl. unfold Str.split.
    induction Hl as [|x l Hx Hl IH]; [congruence|].
    destruct (split_aux_piece sep x EmptyString Hx) as [H1 H2].
    destruct l as [|y l].
    + simpl. rewrite H1. reflexivity.
    + rewrite join_cons by discriminate. rewrite H2.
      rewrite IH by discriminate. reflexivity.
Qed.

(** ** [parseInt] *)

Lemma digit_not_special (c : ascii) :
  is_digit c = true ->
  Str.is_ws c = false /\ c <> "-"%char /\ c <> "+"%char
  /\ Ascii.eqb c "x" || Ascii.eqb c "X" = false.
Proof.
  destruct c as [[] [] [] [] [] [] [] []]; intros H;
    try (vm_compute in H; discriminate);
    repeat split; try reflexivity; discriminate.
Qed.

Lemma parseInt_unsigned (c : ascii) (r : string) :
  Str.is_ws c = false -> c <> "-"%char -> c <> "+"%char ->
  Str.parseInt (String c r)
  = match Str.strip_hex_prefix (String c r) with
    | Some h => Str.parse_digits 16 h None
    | None => Str.parse_digits 10 (String c r) None
    end.
Proof.
  intros Hw Hm Hp. unfold Str.parseInt. cbn [Str.skip_ws]. rewrite Hw.
  assert (forall o : option Z, (fun m => if false then - m else m) <$> o = o) as Hid
    by (intros [m|]; reflexivity).
  destruct c as [[] [] [] [] [] [] [] []]; try congruence; apply Hid.
Qed.

Lemma strip_hex_prefix_none (a : ascii) (s : string) :
  match s with
  | String x _ => Ascii.eqb x "x" || Ascii.eqb x "X" = false
  | EmptyString => True
  end ->
  Str.strip_hex_prefix (String a s) = None.
Proof.
  destruct s as [|x s]; intros H.
  - destruct a as [[] [] [] [] [] [] [] []]; reflexivity.
  - destruct a as [[] [] [] [] [] [] [] []]; try reflexivity.
    unfold Str.strip_hex_prefix. now rewrite H.
Qed.

Lemma parse_digits_app (d : string) (c : ascii) (rest : string) (acc : option Z) :
  all_digits d = true -> is_digit c = false ->
  Str.parse_digits 10 (d ++ String c rest) acc = Str.parse_digits 10 d acc.
Proof.
  intros Hd Hc. revert acc. induction d as [|x d IH]; intros acc.
  - rewrite str_app_nil_l. simpl. unfold is_digit in Hc.
    now destruct (Str.digit_val 10 c).
  - rewrite str_app_cons. simpl in Hd. apply andb_true_iff in Hd.
    destruct Hd as [Hx Hd]. cbn [Str.parse_digits].
    destruct (Str.digit_val 10 x); [now apply IH | reflexivity].
Qed.

Lemma parse_digits_some (d : string) (a : Z) :
  is_Some (Str.parse_digits 10 d (Some a)).
Proof.
  revert a. induction d as [|x d IH]; intros a; simpl; [eauto|].
  destruct (Str.digit_val 10 x); [apply IH | eauto].
Qed.

(** X25: [parseInt] reads the leading decimal number and ignores what
    follows it, and gives [NaN] for a text that starts with no digit, sign
    or blank; so a [limit] such as [5abc] is the limit 5, while a valid
    search with a [limit] such as [abc] is answered with 500 after the
    statement was sent. *)
Theorem parseInt_reads_the_leading_number :
  (forall (d : string) (c : ascii) (rest : string),
      d <> EmptyString -> all_digits d = true -> is_digit c = false ->
      Ascii.eqb c "x" || Ascii.eqb c "X" = false ->
      Str.parseInt (d ++ String c rest) = Str.parseInt d
      /\ is_Some (Str.parseInt d))
  /\ (forall (c : ascii) (rest : string),
         is_digit c = false -> Str.is_ws c = false ->
         c <> "-"%char -> c <> "+"%char ->
         Str.parseInt (String c rest) = None)
  /\ (forall (rq : SearchReq) (q : string) (c : ascii) (rest : string) (s : Store),
         rq_q rq = Some q -> (2 <= String.length q)%nat ->
         rq_limit rq = Some (String c rest) ->
         is_digit c = false -> Str.is_ws c = false ->
         c <> "-"%char -> c <> "+"%char ->
         search rq s = (Err500, s, [SqlSearch (search_params q rq)])).
Proof.
  assert (forall (c : ascii) (rest : string),
             is_digit c = false -> Str.is_ws c = false ->
             c <> "-"%char -> c <> "+"%char ->
             Str.parseInt (String c rest) = None) as Hnan.
  { intros c rest Hd Hw Hm Hp. rewrite parseInt_unsigned by assumption.
    replace (Str.strip_hex_prefix (String c rest)) with (@None string).
    - cbn [Str.parse_digits]. unfold is_digit in Hd.
      now destruct (Str.digit_val 10 c).
    - destruct c as [[] [] [] [] [] [] [] []]; try reflexivity.
      vm_compute in Hd. discriminate. }
  split; [|split; [exact Hnan|]].
  - intros d c rest Hne Hd Hc Hx.
    destruct d as [|d0 d]; [congruence|].
    simpl in Hd. apply andb_true_iff in Hd. destruct Hd as [Hd0 Hd].
    destruct (digit_not_special d0 Hd0) as (Hw & Hm & Hp & _).
    rewrite str_app_cons, !parseInt_unsigned by assumption.
    rewrite !strip_hex_prefix_none.
    + split.
      * rewrite <- str_app_cons. apply parse_digits_app; [|exact Hc].
        simpl. now rewrite Hd0, Hd.
      * cbn [Str.parse_digits]. unfold is_digit in Hd0.
        destruct (Str.digit_val 10 d0); [apply parse_digits_some | discriminate].
    + destruct d as [|d1 d]; [exact I|]. simpl in Hd.
      apply andb_true_iff in Hd. destruct Hd as [Hd1 _].
      now destruct (digit_not_special d1 Hd1) as (_ & _ & _ & H).
    + destruct d as [|d1 d].
      * rewrite str_app_nil_l. exact Hx.
      * rewrite str_app_cons. simpl in Hd.
        apply andb_true_iff in Hd. destruct Hd as [Hd1 _].
        now destruct (digit_not_special d1 Hd1) as (_ & _ & _ & H).
  - intros rq q c rest s Hq Hlen Hlim Hd Hw Hm Hp. unfold search. rewrite Hq.
    replace (negb (Str.truthy q) || (String.length q <? 2)%nat) with false.
    + unfold bind, query, ret. unfold search_sql at 1.
      cbn [sp_limit search_params]. unfold search_limit at 1.
      rewrite Hlim, (Hnan c rest Hd Hw Hm Hp). reflexivity.
    + symmetry. apply orb_false_iff. split.
      * destruct q; [simpl in Hlen; lia | reflexivity].
      * apply Nat.ltb_ge. exact Hlen.
Qed.

(** ** The API key guard *)

Lemma includes_spec (l : list string) (x : string) :
  includes l x = true <-> In x l.
Proof.
  unfold includes. rewrite existsb_exists. split.
  - intros [y [Hy E]]. apply String.eqb_eq in E. now subst.
  - intros H. exists x. split; [exact H | apply String.eqb_refl].
Qed.

(** X4: a request whose key (the [X-API-Key] header, or the [api_key]
    parameter when the header is missing or empty) is missing, empty or not
    among the valid keys is answered with 401, the handler is not run, the
    store is untouched and no statement is sent; a key among the valid keys
    lets the handler run as it is; a header that is not empty decides alone,
    so a valid [api_key] parameter does not help a request with a wrong
    header; and without [API_KEYS] the only valid key is the demo key. *)
Theorem api_key_guard :
  (forall A (keys : list string) (header query : option string) (next : DB A)
          (s : Store),
      (forall k, request_api_key header query = Some k ->
                 k = EmptyString \/ ~ In k keys) ->
      authenticateApiKey keys header query next s = (Unauthorized401, s, []))
  /\ (forall A (keys : list string) (header query : option string) (next : DB A)
             (s : Store) (k : string),
         request_api_key header query = Some k ->
         k <> EmptyString -> In k keys ->
         result (authenticateApiKey keys header query next s)
         = Next (result (next s))
         /\ final (authenticateApiKey keys header query next s) = final (next s)
         /\ trace (authenticateApiKey keys header query next s) = trace (next s))
  /\ (forall (keys : list string) (h : string) (query : option string)
             (rq : SearchReq) (s : Store),
         h <> EmptyString -> ~ In h keys ->
         search_route keys (Some h) query rq s = (Unauthorized401, s, []))
  /\ (forall env, Str.truthy_opt env = false ->
                  validApiKeys env = ["demo-key-12345"]).
Proof.
  assert (forall A (keys : list string) (header query : option string)
                 (next : DB A) (s : Store),
             (forall k, request_api_key header query = Some k ->
                        k = EmptyString \/ ~ In k keys) ->
             authenticateApiKey keys header query next s
             = (Unauthorized401, s, [])) as Hreject.
  { intros A keys header query next s H. unfold authenticateApiKey.
    destruct (request_api_key header query) as [k|]; [|reflexivity].
    destruct (H k eq_refl) as [->|Hk]; [reflexivity|].
    destruct (includes keys k) eqn:E.
    - apply includes_spec in E. contradiction.
    - now rewrite orb_true_r. }
  split; [exact Hreject|]. split; [|split].
  - intros A keys header query next s k Hk Hne Hin.
    unfold authenticateApiKey. rewrite Hk.
    apply includes_spec in Hin. rewrite Hin.
    destruct k as [|c k]; [congruence|]. simpl.
    unfold bind, ret, result, final, trace.
    destruct (next s) as [[a s1] t1]. simpl. now rewrite app_nil_r.
  - intros keys h query rq s Hne Hin. apply Hreject.
    intros k Hk. right. unfold request_api_key in Hk.
    destruct h as [|c h]; [congruence|]. simpl in Hk. now inversion Hk; subst.
  - intros [v|] H; [|reflexivity]. simpl in H. unfold validApiKeys.
    now rewrite H.
Qed.

(** ** What the server answers to [GET /search] *)

Lemma format_search_row_type (row : SearchRow) :
  res_type (format_search_row row) = sr_type row.
Proof. unfold format_search_row. now destruct (String.eqb _ _). Qed.

(** The handler [search] is [search_with] over the rows that the statement
    describes. *)
Lemma search_with_rows (rq : SearchReq) :
  search rq = search_with search_sql rq.
Proof. reflexivity. Qed.

(** PostgreSQL rejects the statement: the [json] column
    [name_translations_agg] of the city branch meets a [jsonb] column. *)
Lemma search_statement_rejected : search_results_columns = None.
Proof. reflexivity. Qed.

Lemma pg_search_sql_rejected (p : SearchParams) (s : Store) :
  pg_search_sql p s = None.
Proof. reflexivity. Qed.

Lemma valid_query (q : string) :
  (2 <= String.length q)%nat ->
  negb (Str.truthy q) || (String.length q <? 2)%nat = false.
Proof.
  intros H. apply orb_false_iff. split.
  - destruct q; [simpl in H; lia | reflexivity].
  - now apply Nat.ltb_ge.
Qed.

Lemma pg_search_valid (rq : SearchReq) (q : string) (s : Store) :
  rq_q rq = Some q -> (2 <= String.length q)%nat ->
  pg_search rq s = (Err500, s, [SqlSearch (search_params q rq)]).
Proof.
  intros Hq Hlen. unfold pg_search, search_with. rewrite Hq.
  rewrite (valid_query q Hlen). reflexivity.
Qed.

Lemma pg_search_invalid (rq : SearchReq) (s : Store) :
  (forall q, rq_q rq = Some q -> (String.length q < 2)%nat) ->
  pg_search rq s = (Err400 QueryRequiredAtLeast2Characters, s, []).
Proof.
  intros Hq. unfold pg_search, search_with.
  destruct (rq_q rq) as [q|] eqn:E; [|reflexivity].
  rewrite truthy_length by now apply Hq. reflexivity.
Qed.

Lemma pg_search_never_ok (rq : SearchReq) (s : Store)
    (results : list SearchResult) (count : nat) :
  result (pg_search rq s) <> Ok200 results count.
Proof.
  destruct (rq_q rq) as [q|] eqn:Eq.
  - destruct (le_lt_dec 2 (String.length q)) as [H|H].
    + rewrite (pg_search_valid rq q s Eq H). discriminate.
    + rewrite pg_search_invalid; [discriminate|].
      intros q' E. rewrite Eq in E. inversion E; subst. exact H.
  - rewrite pg_search_invalid; [discriminate|]. intros q' E. congruence.
Qed.

(** X5: what the server answers to [GET /search].  It answers 400, with no
    statement sent, when [q] is missing or shorter than 2.  Otherwise it
    sends one statement, whose parameters are [q], [%q%], the type when it
    is [city] or [country], and the limit, which is 10 under
    [autocomplete=true] and 20 otherwise when none is given; PostgreSQL
    rejects the statement, whose [UNION ALL] pairs the [json] column
    [name_translations_agg] of the city branch with a [jsonb] column, so
    the store is left as it is and the answer is 500.  No request is
    answered with results. *)
Theorem search_answers :
  forall (rq : SearchReq) (s : Store),
    ((forall q, rq_q rq = Some q -> (String.length q < 2)%nat) ->
     pg_search rq s = (Err400 QueryRequiredAtLeast2Characters, s, []))
    /\ (forall q,
           rq_q rq = Some q -> (2 <= String.length q)%nat ->
           pg_search rq s = (Err500, s, [SqlSearch (search_params q rq)])
           /\ sp_q (search_params q rq) = q
           /\ sp_pattern (search_params q rq) = ("%" ++ q ++ "%")%string
           /\ (forall t, sp_type (search_params q rq) = Some t <->
                         rq_type rq = Some t /\ (t = "city" \/ t = "country"))
           /\ (rq_limit rq = None ->
               (rq_autocomplete rq = Some "true" ->
                sp_limit (search_params q rq) = Some 10)
               /\ (rq_autocomplete rq <> Some "true" ->
                   sp_limit (search_params q rq) = Some 20)))
    /\ (forall results count, result (pg_search rq s) <> Ok200 results count)
    /\ union_type PgJson PgJsonb = None
    /\ In ("name_translations_agg", PgJson) search_city_columns
    /\ In ("name_translations_agg", PgJsonb) search_country_columns.
Proof.
  intros rq s. split; [apply pg_search_invalid|]. split; [|split].
  - intros q Hq Hlen. split; [now apply pg_search_valid|].
    split; [reflexivity|]. split; [reflexivity|]. split.
    + intros t. unfold search_params. cbn [sp_type].
      destruct (rq_type rq) as [t'|]; [|split; [discriminate | intros [H _]; discriminate]].
      destruct (Str.truthy t' && (String.eqb t' "city" || String.eqb t' "country"))
        eqn:E.
      * apply andb_true_iff in E. destruct E as [_ E].
        apply orb_true_iff in E. rewrite !String.eqb_eq in E.
        split; [intros H; inversion H; subst; auto | intros [H _]; exact H].
      * split; [discriminate|]. intros [H Ht]. inversion H; subst t'.
        destruct Ht as [-> | ->]; discriminate.
    + intros Hnone. unfold search_params, search_limit. cbn [sp_limit].
      rewrite Hnone. split.
      * intros Ha. now rewrite Ha.
      * intros Ha. destruct (rq_autocomplete rq) as [a|]; simpl; [|reflexivity].
        destruct (String.eqb a "true") eqn:Ea; [|reflexivity].
        apply String.eqb_eq in Ea. congruence.
  - apply pg_search_never_ok.
  - split; [reflexivity|]. split; simpl; auto 20.
Qed.

(** ** Case of the country code *)



(** ** Sorting and the range of the fallback score *)

Lemma insert_by_perm {A} (le : A -> A -> bool) (x : A) (l : list A) :
  Permutation (insert_by le x l) (x :: l).
Proof. forget_extensions.
  induction l as [|y l IH]; simpl; [reflexivity|].
  destruct (le x y); [reflexivity|].
  rewrite IH. apply perm_swap.
Qed.

Lemma sort_by_perm {A} (le : A -> A -> bool) (l : list A) :
  Permutation (sort_by le l) l.
Proof. forget_extensions.
  induction l as [|x l IH]; simpl; [reflexivity|].
  rewrite insert_by_perm. now constructor.
Qed.

Lemma sorted_app_inv {A} (R : A -> A -> Prop) (a b : list A) :
  StronglySorted R (a ++ b) ->
  forall x y, In x a -> In y b -> R x y.
Proof. forget_extensions.
  induction a as [|z a IH]; simpl; intros H x y Hx Hy; [destruct Hx|].
  apply StronglySorted_inv in H. destruct H as [Hs Hz].
  destruct Hx as [->|Hx].
  - rewrite List.Forall_forall in Hz. apply Hz. apply in_or_app. now right.
  - now apply (IH Hs).
Qed.

Lemma country_fuzzy_range (q : string) (co : Country)
    (grp : list (option CountryAlternateName)) :
  similarity_range ->
  (0 <= GREATEST (similarity (co_name co) q)
          [Some (COALESCE
                   (MAX ((fun alt => similarity_col (alt ≫= can_name) q)
                           <$> grp)) 0%Q)] * 10 <= 10)%Q.
Proof.
  intros Hsim.
  assert (0 <= GREATEST (similarity (co_name co) q)
                 [Some (COALESCE
                          (MAX ((fun alt => similarity_col (alt ≫= can_name) q)
                                  <$> grp)) 0%Q)] <= 1)%Q as H; [|lra].
  apply GREATEST_range; [apply Hsim|].
  constructor; [|constructor].
  intros y E. inversion E; subst y; clear E. unfold COALESCE.
  destruct (MAX _) as [m|] eqn:Em; simpl; [|lra].
  apply (MAX_range _) in Em; [exact Em|].
  apply List.Forall_forall. intros o Ho y E. apply in_fmap in Ho.
  destruct Ho as [alt [-> _]].
  destruct (alt ≫= can_name); simpl in E; inversion E.
  apply Hsim.
Qed.


(** ** No place is listed twice *)

Lemma filter_at_most_one {A K} (f : A -> K) (P : A -> bool) (l : list A) :
  List.NoDup (List.map f l) ->
  (forall x y, In x l -> In y l -> P x = true -> P y = true -> f x = f y) ->
  (length (List.filter P l) <= 1)%nat.
Proof. forget_extensions.
  induction l as [|x l IH]; simpl; intros Hnd Hsame; [lia|].
  inversion Hnd as [|? ? Hx Hl]; subst.
  destruct (P x) eqn:Px.
  - assert (List.filter P l = []) as ->; [|simpl; lia].
    destruct (List.filter P l) as [|y t] eqn:E; [reflexivity|]. exfalso.
    assert (In y (List.filter P l)) as Hy by (rewrite E; now left).
    apply filter_In in Hy. destruct Hy as [Hy Py].
    apply Hx. rewrite (Hsame x y); auto. now apply in_map.
  - apply IH; [exact Hl|]. intros a b Ha Hb. apply Hsame; now right.
Qed.

Lemma nodup_short {A} (l : list A) : (length l <= 1)%nat -> List.NoDup l.
Proof. forget_extensions.
  destruct l as [|x [|y l]]; simpl; intros H; try lia.
  - constructor.
  - constructor; [intros [] | constructor].
Qed.

Lemma flat_map_short {A B} (g : A -> list B) (l : list A) :
  (length l <= 1)%nat -> (forall a, (length (g a) <= 1)%nat) ->
  (length (flat_map g l) <= 1)%nat.
Proof. forget_extensions.
  destruct l as [|x [|y l]]; simpl; intros H Hg; try lia.
  rewrite app_nil_r. apply Hg.
Qed.

Lemma nodup_flat_map_key {A B K} (f : A -> K) (k : B -> K) (g : A -> list B)
    (l : list A) :
  List.NoDup (List.map f l) ->
  (forall a b, In a l -> In b (g a) -> k b = f a) ->
  (forall a, In a l -> (length (g a) <= 1)%nat) ->
  List.NoDup (List.map k (flat_map g l)).
Proof. forget_extensions.
  induction l as [|x l IH]; simpl; intros Hnd Hk Hg; [constructor|].
  inversion Hnd as [|? ? Hx Hl]; subst.
  rewrite List.map_app. apply List.NoDup_app.
  - apply nodup_short. rewrite length_map. apply Hg. now left.
  - apply IH; auto.
  - intros v Hv Hv'. apply in_map_iff in Hv. destruct Hv as (b & <- & Hb).
    apply in_map_iff in Hv'. destruct Hv' as (b' & E & Hb').
    apply in_flat_map in Hb'. destruct Hb' as (a' & Ha' & Hb').
    apply Hx. rewrite <- (Hk x b), <- E, (Hk a' b'); auto.
    now apply in_map.
Qed.

Lemma nodup_map_take_sort {A K} (k : A -> K) (le : A -> A -> bool) (n : nat)
    (l : list A) :
  List.NoDup (List.map k l) ->
  List.NoDup (List.map k (take n (sort_by le l))).
Proof. forget_extensions.
  intros H.
  assert (List.NoDup (List.map k (sort_by le l))) as Hs.
  { apply (Permutation_NoDup (l := List.map k l)); [|exact H].
    apply Permutation_map. symmetry. apply sort_by_perm. }
  rewrite <- (take_drop n (sort_by le l)), List.map_app in Hs.
  now apply List.NoDup_app_remove_r in Hs.
Qed.

Lemma countries_of_at_most_one (s : Store) (c : City) :
  unique_countries s -> (length (countries_of s c) <= 1)%nat.
Proof.
  intros Hu. unfold countries_of.
  apply (filter_at_most_one co_country_code); [exact Hu|].
  intros x y _ _ Hx Hy.
  apply eq_col_str_true in Hx. apply eq_col_str_true in Hy. congruence.
Qed.

Lemma reverse_candidates_unique (lo la : num) (meters : Q) (s : Store) :
  unique_places s -> unique_countries s ->
  List.NoDup (List.map rr_geonameid (reverse_candidates lo la meters s)).
Proof.
  intros Hp Hc. unfold reverse_candidates.
  apply (nodup_flat_map_key c_geonameid).
  - exact Hp.
  - intros c row _ Hrow. apply in_flat_map in Hrow.
    destruct Hrow as (co & _ & Hrow).
    destruct (c_longitude c) as [x|]; [|destruct Hrow].
    destruct (c_latitude c) as [y|]; [|destruct Hrow].
    destruct (ST_DWithin (lo, la) (x, y) meters); [|destruct Hrow].
    destruct Hrow as [<-|[]]. reflexivity.
  - intros c _. apply flat_map_short; [now apply countries_of_at_most_one|].
    intros co. destruct (c_longitude c), (c_latitude c); simpl; try lia.
    destruct (ST_DWithin _ _ _); simpl; lia.
Qed.

(** X10: when place ids and country codes are unique in the store, as their
    primary keys make them, a reverse lookup returns no place twice: its
    rows differ pairwise in place id. *)
Theorem results_list_each_place_once :
  forall s : Store,
    unique_places s -> unique_countries s ->
    forall (lat lon : string) (radius : jsval) (rows : list ReverseRow),
      reverse_sql lat lon radius s = Some rows ->
      List.NoDup (List.map rr_geonameid rows).
Proof.
  intros s Hp Hc lat lon radius rows Hsql. apply reverse_sql_inv in Hsql.
  destruct Hsql as (la & lo & r & _ & _ & _ & ->).
  apply nodup_map_take_sort. now apply reverse_candidates_unique.
Qed.

(** ** The printed distances *)

Lemma toFixed2_mono (x y : Q) :
  (x <= y)%Q ->
  exists a b, toFixed2 (Num x) = Some a /\ toFixed2 (Num y) = Some b /\ a <= b.
Proof.
  intros H. unfold toFixed2.
  destruct (Qle_bool 0 x) eqn:Ex, (Qle_bool 0 y) eqn:Ey;
    eexists _, _; (split; [reflexivity|]); (split; [reflexivity|]).
  - apply Qfloor_resp_le. lra.
  - apply Qle_bool_iff in Ex.
    assert (~ (0 <= y)%Q) by (rewrite <- Qle_bool_iff; congruence). lra.
  - apply Qle_bool_iff in Ey.
    assert (~ (0 <= x)%Q) as Hx by (rewrite <- Qle_bool_iff; congruence).
    pose proof (Qfloor_resp_le 0 (- x * 100 + (1 # 2)) ltac:(lra)) as H1.
    pose proof (Qfloor_resp_le 0 (y * 100 + (1 # 2)) ltac:(lra)) as H2.
    change (Qfloor 0) with 0 in H1, H2. lia.
  - pose proof (Qfloor_resp_le (- y * 100 + (1 # 2)) (- x * 100 + (1 # 2))
                  ltac:(lra)). lia.
Qed.

Lemma Qfloor_half (z : Z) : Qfloor (inject_Z z + (1 # 2)) = z.
Proof.
  apply Z.le_antisymm.
  - assert (Qfloor (inject_Z z + (1 # 2)) < z + 1); [|lia].
    pose proof (Qfloor_le (inject_Z z + (1 # 2))) as H.
    rewrite Zlt_Qlt, inject_Z_plus. change (inject_Z 1) with 1%Q. lra.
  - rewrite <- (Qfloor_Z z) at 1. apply Qfloor_resp_le. lra.
Qed.

Lemma sorted_fmap {A B} (R : A -> A -> Prop) (S : B -> B -> Prop) (f : A -> B)
    (l : list A) :
  (forall a b, In a l -> In b l -> R a b -> S (f a) (f b)) ->
  StronglySorted R l -> StronglySorted S (f <$> l).
Proof. forget_extensions.
  intros H Hs. induction Hs as [|x l Hl IH Hx]; simpl; constructor.
  - apply IH. intros a b Ha Hb. apply H; now right.
  - apply List.Forall_forall. intros y Hy. apply in_fmap in Hy.
    destruct Hy as (b & -> & Hb). rewrite List.Forall_forall in Hx.
    apply H; [now left | now right | now apply Hx].
Qed.

(** X11: in an answer of [reverse], the printed [distance_km] values are
    numbers, they never decrease from one result to the next, and none
    exceeds the radius: the integer that the [radius] parameter denotes,
    or 50 when the parameter is absent. *)
Theorem reverse_distances_printed_in_order :
  DWithin_sound ->
  forall (rq : ReverseReq) (s : Store) (results : list ReverseResult) (count : nat),
    result (reverse rq s) = Ok200 results count ->
    StronglySorted
      (fun a b => exists x y, rv_distance_km a = Some x
                              /\ rv_distance_km b = Some y /\ x <= y)
      results
    /\ exists r,
         match rv_radius rq with
         | Some text => pg_int4_in text = Some r
         | None => r = 50
         end
         /\ forall a, In a results ->
                      exists x, rv_distance_km a = Some x /\ x <= 100 * r.
Proof.
  intros Hsound rq s results count Hok.
  apply reverse_ok_inv in Hok.
  destruct Hok as (lat & lon & rows & _ & _ & Hsql & -> & _).
  apply reverse_sql_inv in Hsql.
  destruct Hsql as (la & lo & r & _ & _ & Hr & Hrows).
  assert (forall row, In row rows ->
                      exists m, rr_distance_km row = Num (m / 1000)
                                /\ (m / 1000 <= inject_Z r)%Q) as Hnum.
  { intros row Hrow. rewrite Hrows in Hrow.
    apply in_take, in_sort_by, reverse_candidates_inv in Hrow.
    destruct Hrow as (c & co & x & y & _ & _ & _ & _ & _ & Hd & ->).
    destruct (Hsound _ _ _ Hd) as (m & Hm & Hle). exists m.
    simpl. rewrite Hm. split; [reflexivity|].
    rewrite inject_Z_mult in Hle. change (inject_Z 1000) with 1000%Q in Hle.
    unfold Qdiv. change (/ 1000)%Q with (1 # 1000)%Q. lra. }
  split.
  - apply (sorted_fmap (fun a b => num_le (rr_distance_km a) (rr_distance_km b)
                                   = true)).
    + intros a b Ha Hb Hab.
      destruct (Hnum a Ha) as (ma & Ea & _), (Hnum b Hb) as (mb & Eb & _).
      simpl. rewrite Ea, Eb in *. simpl in Hab. apply Qle_bool_iff in Hab.
      apply toFixed2_mono. exact Hab.
    + rewrite Hrows. apply take_sorted. apply (sort_by_sorted reverse_order).
      * intros a b. apply num_le_total.
      * intros a b c. apply num_le_trans.
  - exists r. split.
    { unfold reverse_radius in Hr. destruct (rv_radius rq) as [text|];
        [exact Hr | simpl in Hr; now inversion Hr]. }
    intros a Ha. apply in_fmap in Ha.
    destruct Ha as (row & -> & Hrow). destruct (Hnum row Hrow) as (m & Em & Hle).
    simpl. rewrite Em.
    destruct (toFixed2_mono _ _ Hle) as (x & y & Hx & Hy & Hxy).
    exists x. split; [exact Hx|].
    assert (toFixed2 (Num (inject_Z r)) = Some (100 * r)) as Hy'.
    { unfold toFixed2. destruct (Qle_bool 0 (inject_Z r)); f_equal.
      - assert (inject_Z r * 100 + (1 # 2) == inject_Z (100 * r) + (1 # 2))%Q as E
          by (rewrite inject_Z_mult; change (inject_Z 100) with 100%Q; lra).
        rewrite (Qfloor_comp _ _ E). apply Qfloor_half.
      - assert (- inject_Z r * 100 + (1 # 2)
                == inject_Z (- (100 * r)) + (1 # 2))%Q as E
          by (rewrite inject_Z_opp, inject_Z_mult;
              change (inject_Z 100) with 100%Q; lra).
        rewrite (Qfloor_comp _ _ E), Qfloor_half. lia. }
    rewrite Hy' in Hy. inversion Hy; subst. exact Hxy.
Qed.

(** ** The radius of [reverse] *)

(** X26: the radius of [reverse].  Without the parameter the radius is 50;
    a radius above 2147483 or below -2147483, whose product with 1000
    leaves the range of [integer], makes a request with [lat] and [lon]
    fail with 500 after the statement was sent, the store being as it
    was. *)
Theorem reverse_radius_limits :
  (forall rq : ReverseReq,
      rv_radius rq = None -> radius_value (reverse_radius rq) = Some 50)
  /\ (forall (rq : ReverseReq) (lat lon : string) (r : Z) (s : Store),
         rv_lat rq = Some lat -> lat <> EmptyString ->
         rv_lon rq = Some lon -> lon <> EmptyString ->
         radius_value (reverse_radius rq) = Some r ->
         2147483 < r \/ r < - 2147483 ->
         reverse rq s = (Err500, s, [SqlReverse lat lon (reverse_radius rq)])).
Proof.
  split.
  - intros rq H. unfold reverse_radius. rewrite H. reflexivity.
  - intros rq lat lon r s Hlat Hnl Hlon Hnlo Hr Hbig. unfold reverse.
    rewrite Hlat, Hlon.
    destruct lat as [|a lat]; [congruence|]. destruct lon as [|b lon]; [congruence|].
    cbn [Str.truthy negb orb]. unfold bind, query.
    assert (reverse_sql (String a lat) (String b lon) (reverse_radius rq) s = None)
      as ->; [|reflexivity].
    unfold reverse_sql.
    destruct (pg_float8_in (String a lat)); [|reflexivity]. cbn [mbind option_bind].
    destruct (pg_float8_in (String b lon)); [|reflexivity]. cbn [mbind option_bind].
    rewrite Hr. cbn [mbind option_bind].
    replace (int4_ok r && int4_ok (r * 1000)) with false; [reflexivity|].
    symmetry. unfold int4_ok. lia.
Qed.

(** ** The nearest places *)

(** X28: [reverse] returns the nearest places.  The rows of the statement
    are the first five, in ascending order of distance, of the stored
    places with a stored country that [ST_DWithin] holds within the
    radius: every such place is a candidate, the rows are
    min(5, candidates) many, and every candidate left out is no nearer
    than every row returned. *)
Theorem reverse_returns_the_nearest :
  forall (lat lon : string) (radius : jsval) (s : Store) (rows : list ReverseRow),
    reverse_sql lat lon radius s = Some rows ->
    exists la lo r,
      pg_float8_in lat = Some la /\ pg_float8_in lon = Some lo
      /\ radius_value radius = Some r
      /\ length rows
         = Nat.min 5 (length (reverse_candidates lo la (inject_Z (r * 1000)) s))
      /\ (exists rest,
             Permutation (rows ++ rest)
                         (reverse_candidates lo la (inject_Z (r * 1000)) s)
             /\ forall x y, In x rows -> In y rest ->
                            num_le (rr_distance_km x) (rr_distance_km y) = true)
      /\ (forall c co x y,
             In c (cities s) -> In co (countries s) ->
             c_country_code c = Some (co_country_code co) ->
             c_longitude c = Some x -> c_latitude c = Some y ->
             ST_DWithin (lo, la) (x, y) (inject_Z (r * 1000)) = true ->
             In (reverse_row lo la x y c co)
                (reverse_candidates lo la (inject_Z (r * 1000)) s)).
Proof.
  intros lat lon radius s rows Hsql. apply reverse_sql_inv in Hsql.
  destruct Hsql as (la & lo & r & Hla & Hlo & Hr & ->).
  exists la, lo, r. split; [exact Hla|]. split; [exact Hlo|]. split; [exact Hr|].
  pose proof (sort_by_sorted reverse_order
                (fun a b => num_le_total _ _) (fun a b c => num_le_trans _ _ _)
                (reverse_candidates lo la (inject_Z (r * 1000)) s)) as Hsorted.
  split; [|split].
  - rewrite length_take, (Permutation_length (sort_by_perm _ _)). reflexivity.
  - exists (drop 5 (sort_by reverse_order
                      (reverse_candidates lo la (inject_Z (r * 1000)) s))).
    split.
    + rewrite take_drop. apply sort_by_perm.
    + intros x y Hx Hy. rewrite <- (take_drop 5) in Hsorted.
      exact (sorted_app_inv _ _ _ Hsorted x y Hx Hy).
  - intros c co x y Hc Hco Hcode Hx Hy Hd. unfold reverse_candidates.
    apply in_flat_map. exists c. split; [exact Hc|].
    apply in_flat_map. exists co. split.
    + unfold countries_of. apply filter_In. split; [exact Hco|].
      rewrite Hcode. simpl. apply String.eqb_refl.
    + rewrite Hx, Hy, Hd. now left.
Qed.

(** ** Invariants of the ingestion *)

Lemma import_cities_cons (r : CityCsvRow) (rows : list CityCsvRow) (n : Z)
    (s : Store) :
  import_cities (r :: rows) n s
  = match city_of_row r with
    | Some c =>
        let '(b, s2, t) := import_cities rows (n + 1) (insertPlaceIfAbsent c s) in
        (b, s2, SqlInsertCity r :: t)
    | None =>
        let '(b, s2, t) := import_cities rows n s in
        (b, s2, SqlInsertCity r :: t)
    end.
Proof.
  simpl. unfold bind, execute, insert_city.
  destruct (city_of_row r) as [c|]; simpl; reflexivity.
Qed.

Lemma import_cities_preserves (Inv : Store -> Prop) :
  (forall s r c, Inv s -> city_of_row r = Some c ->
                 placeExists s (c_geonameid c) = false ->
                 Inv (set_cities (cities s ++ [c]) s)) ->
  forall rows n s, Inv s -> Inv (final (import_cities rows n s)).
Proof.
  intros Hstep rows. induction rows as [|r rows IH]; intros n s Hs; [exact Hs|].
  rewrite import_cities_cons. destruct (city_of_row r) as [c|] eqn:Er.
  - assert (Inv (insertPlaceIfAbsent c s)) as Hs'.
    { unfold insertPlaceIfAbsent.
      destruct (placeExists s (c_geonameid c)) eqn:E;
        [exact Hs | now apply (Hstep s r c)]. }
    specialize (IH (n + 1) _ Hs').
    destruct (import_cities rows (n + 1) _) as [[b s2] t]. exact IH.
  - specialize (IH n s Hs). destruct (import_cities rows n s) as [[b s2] t].
    exact IH.
Qed.

Lemma loadCitiesData_preserves (Inv : Store -> Prop) :
  (forall s r c, Inv s -> city_of_row r = Some c ->
                 placeExists s (c_geonameid c) = false ->
                 Inv (set_cities (cities s ++ [c]) s)) ->
  forall rows s, Inv s -> Inv (final (loadCitiesData rows s)).
Proof.
  intros Hstep rows s Hs. unfold loadCitiesData, bind, query.
  destruct (0 <? _); [exact Hs|].
  pose proof (import_cities_preserves Inv Hstep rows 0 s Hs) as H.
  destruct (import_cities rows 0 s) as [[b s2] t]. exact H.
Qed.

Lemma process_rows_cons (row : AltRow) (rest : list AltRow) (n : Z) (s : Store) :
  process_rows (row :: rest) n s
  = let '(m, s1, t1) := processRow row s in
    let '(b, s2, t2) := process_rows rest (n + m) s1 in
    (b, s2, t1 ++ t2).
Proof. reflexivity. Qed.

Lemma processRow_cases (row : AltRow) (s : Store) :
  final (processRow row s) = s
  \/ exists a,
       alternate_name_of_row row = Some a /\ known_place s a
       /\ existsb (fun x => Z.eqb (an_alternatenameid x) (an_alternatenameid a))
                  (alternate_names s) = false
       /\ final (processRow row s)
          = set_alternate_names (alternate_names s ++ [a]) s.
Proof.
  unfold processRow, bind, query, execute, final, insert_alternate_name. simpl.
  destruct (select_city _ s) as [n|] eqn:Es; simpl; [|now left].
  destruct (0 <? n)%nat eqn:En; simpl; [|now left].
  destruct (alternate_name_of_row row) as [a|] eqn:Ea; simpl; [|now left].
  unfold insertAlternateNameIfAbsent.
  destruct (existsb _ (alternate_names s)) eqn:Ex; simpl; [now left|].
  right. exists a. split; [reflexivity|]. split; [|split; [exact Ex | reflexivity]].
  apply alternate_name_of_row_geonameid in Ea.
  unfold select_city in Es.
  destruct (Str.parseInt (ar_geonameid row)) as [id|]; [|discriminate].
  destruct (int4_ok id); [|discriminate].
  inversion Es; subst n. exists id. split; [exact Ea|].
  now apply filter_pos_existsb.
Qed.

Lemma process_rows_preserves (Inv : Store -> Prop) :
  (forall s a, Inv s -> known_place s a ->
               existsb (fun x => Z.eqb (an_alternatenameid x) (an_alternatenameid a))
                       (alternate_names s) = false ->
               Inv (set_alternate_names (alternate_names s ++ [a]) s)) ->
  forall rows n s, Inv s -> Inv (final (process_rows rows n s)).
Proof.
  intros Hstep rows. induction rows as [|row rows IH]; intros n s Hs; [exact Hs|].
  simpl. unfold bind.
  assert (Inv (final (processRow row s))) as Hs'.
  { destruct (processRow_cases row s) as [->|(a & _ & Hk & Hx & ->)];
      [exact Hs | now apply Hstep]. }
  destruct (processRow row s) as [[m s1] t1]. unfold final in Hs'. simpl in Hs'.
  specialize (IH (n + m) s1 Hs').
  destruct (process_rows rows (n + m) s1) as [[k s2] t2]. exact IH.
Qed.

Lemma loadAlternateNames_preserves (Inv : Store -> Prop) :
  (forall s a, Inv s -> known_place s a ->
               existsb (fun x => Z.eqb (an_alternatenameid x) (an_alternatenameid a))
                       (alternate_names s) = false ->
               Inv (set_alternate_names (alternate_names s ++ [a]) s)) ->
  forall langs lines s, Inv s -> Inv (final (loadAlternateNames langs lines s)).
Proof.
  intros Hstep langs lines s Hs. rewrite loadAlternateNames_rows.
  destruct (0 <? _); [exact Hs|].
  pose proof (process_rows_preserves Inv Hstep (accepted langs lines) 0 s Hs) as H.
  destruct (process_rows (accepted langs lines) 0 s) as [[n s1] t]. exact H.
Qed.

Lemma seed_countries_cons (c : CountrySeed) (l : list CountrySeed) (s : Store) :
  seed_countries (c :: l) s
  = match country_of_seed c with
    | Some new =>
        let '(r, s2, t) :=
          seed_countries l (set_countries (upsert_country_row new (countries s)) s)
        in (r, s2, SqlUpsertCountry c :: t)
    | None => (None, s, [SqlUpsertCountry c])
    end.
Proof.
  simpl. unfold bind, execute, upsertCountry.
  destruct (country_of_seed c) as [new|]; simpl; reflexivity.
Qed.

Lemma seed_countries_preserves (Inv : Store -> Prop) :
  (forall s new, Inv s ->
                 Inv (set_countries (upsert_country_row new (countries s)) s)) ->
  forall seeds s, Inv s -> Inv (final (seed_countries seeds s)).
Proof.
  intros Hstep seeds. induction seeds as [|c seeds IH]; intros s Hs; [exact Hs|].
  rewrite seed_countries_cons. destruct (country_of_seed c) as [new|]; [|exact Hs].
  specialize (IH _ (Hstep s new Hs)).
  destruct (seed_countries seeds _) as [[r s2] t]. exact IH.
Qed.

Lemma loadCountriesData_seed (seeds : list CountrySeed) (s : Store) :
  loadCountriesData seeds s
  = let '(r, s2, t) := seed_countries seeds s in
    (r, s2, SqlDropCityConstraint :: SqlDropAlternateNameConstraint :: t).
Proof.
  unfold loadCountriesData, bind, query.
  now destruct (seed_countries seeds s) as [[r s2] t].
Qed.

Lemma loadCountriesData_preserves (Inv : Store -> Prop) :
  (forall s new, Inv s ->
                 Inv (set_countries (upsert_country_row new (countries s)) s)) ->
  forall seeds s, Inv s -> Inv (final (loadCountriesData seeds s)).
Proof.
  intros Hstep seeds s Hs. rewrite loadCountriesData_seed.
  pose proof (seed_countries_preserves Inv Hstep seeds s Hs) as H.
  destruct (seed_countries seeds s) as [[r s2] t]. exact H.
Qed.

Lemma nodup_snoc {A} (l : list A) (x : A) :
  List.NoDup l -> ~ In x l -> List.NoDup (l ++ [x]).
Proof. forget_extensions.
  intros Hl Hx. apply List.NoDup_app; [exact Hl | |].
  - constructor; [intros [] | constructor].
  - intros a Ha [<-|[]]. contradiction.
Qed.

Lemma existsb_false_not_in {A} (f : A -> Z) (l : list A) (v : Z) :
  existsb (fun x => Z.eqb (f x) v) l = false -> ~ In v (List.map f l).
Proof. forget_extensions.
  intros H Hin. apply in_map_iff in Hin. destruct Hin as (x & E & Hx).
  assert (existsb (fun x => Z.eqb (f x) v) l = true); [|congruence].
  apply existsb_exists. exists x. split; [exact Hx|]. now apply Z.eqb_eq.
Qed.

Lemma known_place_more_cities (s : Store) (l : list City) (a : AlternateName) :
  known_place s a -> known_place (set_cities (cities s ++ l) s) a.
Proof.
  intros (id & E & H). exists id. split; [exact E|].
  unfold placeExists in *. simpl. rewrite existsb_app, H. reflexivity.
Qed.

Lemma upsert_country_row_codes (new : Country) (l : list Country) :
  List.map co_country_code (upsert_country_row new l)
  = if existsb (fun x => String.eqb (co_country_code x) (co_country_code new)) l
    then List.map co_country_code l
    else List.map co_country_code l ++ [co_country_code new].
Proof.
  induction l as [|old l IH]; simpl; [reflexivity|].
  destruct (String.eqb (co_country_code old) (co_country_code new)); simpl;
    [reflexivity|].
  rewrite IH. now destruct (existsb _ l).
Qed.

Lemma upsert_country_row_unique (new : Country) (l : list Country) :
  List.NoDup (List.map co_country_code l) ->
  List.NoDup (List.map co_country_code (upsert_country_row new l)).
Proof.
  intros H. rewrite upsert_country_row_codes.
  destruct (existsb _ l) eqn:E; [exact H|].
  apply nodup_snoc; [exact H|]. intros Hin.
  apply in_map_iff in Hin. destruct Hin as (x & Ex & Hx).
  assert (existsb (fun x => String.eqb (co_country_code x) (co_country_code new)) l
          = true); [|congruence].
  apply existsb_exists. exists x. split; [exact Hx|]. now apply String.eqb_eq.
Qed.

Lemma store_ok_add_city (s : Store) (c : City) :
  store_ok s -> placeExists s (c_geonameid c) = false ->
  store_ok (set_cities (cities s ++ [c]) s).
Proof.
  intros (Hc & Hp & Ha & Hk) Hex. split; [exact Hc|]. split; [|split; [exact Ha|]].
  - unfold unique_places. simpl. rewrite List.map_app. simpl.
    apply nodup_snoc; [exact Hp|].
    now apply (existsb_false_not_in c_geonameid).
  - simpl. eapply List.Forall_impl; [|exact Hk].
    intros a. apply known_place_more_cities.
Qed.

Lemma store_ok_add_alternate_name (s : Store) (a : AlternateName) :
  store_ok s -> known_place s a ->
  existsb (fun x => Z.eqb (an_alternatenameid x) (an_alternatenameid a))
          (alternate_names s) = false ->
  store_ok (set_alternate_names (alternate_names s ++ [a]) s).
Proof.
  intros (Hc & Hp & Ha & Hk) Hka Hex.
  split; [exact Hc|]. split; [exact Hp|]. split.
  - unfold unique_alternate_names. simpl. rewrite List.map_app. simpl.
    apply nodup_snoc; [exact Ha|].
    now apply (existsb_false_not_in an_alternatenameid).
  - simpl. apply List.Forall_app. split; [exact Hk|].
    constructor; [exact Hka | constructor].
Qed.

Lemma store_ok_upsert_country (s : Store) (new : Country) :
  store_ok s ->
  store_ok (set_countries (upsert_country_row new (countries s)) s).
Proof.
  intros (Hc & Hp & Ha & Hk). split; [|split; [exact Hp | split; [exact Ha | exact Hk]]].
  now apply upsert_country_row_unique.
Qed.

(** X12: the ingestion keeps the store well-formed.  When country codes,
    place ids and alternate-name ids are unique and every alternate name
    belongs to a stored place, the same holds after the seeding of the
    countries, after the ingestion of the places and after the ingestion of
    the alternate names, whatever the seed list and the dumps hold
    (repeated ids, rows of unknown places, rows that the database
    rejects). *)
Theorem ingestion_keeps_store_well_formed :
  forall s : Store,
    store_ok s ->
    (forall seeds, store_ok (final (loadCountriesData seeds s)))
    /\ (forall rows, store_ok (final (loadCitiesData rows s)))
    /\ (forall langs lines, store_ok (final (loadAlternateNames langs lines s))).
Proof.
  intros s Hs. split; [|split].
  - intros seeds. apply (loadCountriesData_preserves store_ok); [|exact Hs].
    intros s' new. apply store_ok_upsert_country.
  - intros rows. apply (loadCitiesData_preserves store_ok); [|exact Hs].
    intros s' r c Hs' _. now apply store_ok_add_city.
  - intros langs lines. apply (loadAlternateNames_preserves store_ok); [|exact Hs].
    intros s' a. apply store_ok_add_alternate_name.
Qed.

(** ** Each loader writes to its own table only, and only adds *)

Lemma seed_countries_frame (seeds : list CountrySeed) (s : Store) :
  exists l,
    final (seed_countries seeds s) = set_countries l s
    /\ forall code, In code (List.map co_country_code (countries s)) ->
                    In code (List.map co_country_code l).
Proof.
  revert s. induction seeds as [|c seeds IH]; intros s.
  - exists (countries s). split; [now destruct s | auto].
  - rewrite seed_countries_cons. destruct (country_of_seed c) as [new|].
    + destruct (IH (set_countries (upsert_country_row new (countries s)) s))
        as (l & Hl & Hcodes).
      destruct (seed_countries seeds _) as [[r s2] t].
      unfold final in *. simpl in *. exists l. split; [exact Hl|].
      intros code Hcode. apply Hcodes. rewrite upsert_country_row_codes.
      destruct (existsb _ _); [exact Hcode | apply in_or_app; now left].
    + exists (countries s). split; [now destruct s | auto].
Qed.

Lemma loadCitiesData_extends (rows : list CityCsvRow) (s : Store) :
  exists l, final (loadCitiesData rows s) = set_cities (cities s ++ l) s.
Proof.
  unfold loadCitiesData, bind, query.
  destruct (0 <? _).
  - exists []. unfold ret, final. simpl.
    now rewrite app_nil_r, set_cities_same.
  - destruct (import_cities_extends rows 0 s) as [l Hl]. exists l.
    destruct (import_cities rows 0 s) as [[b s1] t1]. exact Hl.
Qed.

Lemma loadCountriesData_frame (seeds : list CountrySeed) (s : Store) :
  exists l,
    final (loadCountriesData seeds s) = set_countries l s
    /\ forall code, In code (List.map co_country_code (countries s)) ->
                    In code (List.map co_country_code l).
Proof.
  rewrite loadCountriesData_seed.
  destruct (seed_countries_frame seeds s) as (l & Hl & Hcodes).
  exists l. destruct (seed_countries seeds s) as [[r s2] t].
  split; [exact Hl | exact Hcodes].
Qed.

(** X13: a loader changes its own table only and removes nothing: the
    places after [loadCitiesData] are the places before followed by new
    ones, the alternate names after [loadAlternateNames] are those before
    followed by new ones, each of a stored place, the other tables being
    as they were; and [loadCountriesData] leaves places and alternate names
    alone and keeps every country code that was stored. *)
Theorem loaders_only_add_to_their_table :
  forall s : Store,
    (forall rows,
        exists l, final (loadCitiesData rows s) = set_cities (cities s ++ l) s)
    /\ (forall langs lines,
           exists l,
             final (loadAlternateNames langs lines s)
             = set_alternate_names (alternate_names s ++ l) s
             /\ List.Forall (known_place s) l)
    /\ (forall seeds,
           exists l,
             final (loadCountriesData seeds s) = set_countries l s
             /\ forall code, In code (List.map co_country_code (countries s)) ->
                             In code (List.map co_country_code l)).
Proof.
  intros s. split; [|split].
  - intros rows. apply loadCitiesData_extends.
  - intros langs lines. rewrite loadAlternateNames_rows.
    destruct (0 <? _).
    + exists []. split; [|constructor]. unfold final. simpl.
      now rewrite app_nil_r, set_alternate_names_same.
    + destruct (process_rows_known (accepted langs lines) 0 s) as (l & K & Hl).
      exists l. destruct (process_rows (accepted langs lines) 0 s) as [[n s1] t].
      split; [exact Hl | exact K].
  - intros seeds. apply loadCountriesData_frame.
Qed.

(** ** What the loaders count *)

(** ** Batching *)

(** ** The allow-list of languages *)

Lemma accepts_all (l : list string) (row : AltRow) :
  In "all" l -> accepts (Some l) row = accepts None row.
Proof.
  intros H. unfold accepts. apply includes_spec in H. rewrite H.
  now rewrite orb_true_r.
Qed.

Lemma pushed_all (l : list string) (line : string) :
  In "all" l -> pushed (Some l) line = pushed None line.
Proof.
  intros H. unfold pushed, processLine.
  destruct (length (Str.split tab line) <? 8)%nat; [reflexivity|].
  destruct (row_of_columns _) as [row|]; [|reflexivity].
  now rewrite (accepts_all l row H).
Qed.

Lemma length_map_string (f : ascii -> ascii) (s : string) :
  String.length (Str.map_string f s) = String.length s.
Proof. induction s as [|c s IH]; simpl; auto. Qed.

Lemma lower_lower_ascii (c : ascii) :
  Str.lower_ascii (Str.lower_ascii c) = Str.lower_ascii c.
Proof. destruct c as [[] [] [] [] [] [] [] []]; reflexivity. Qed.

Lemma toLowerCase_idempotent (s : string) :
  Str.toLowerCase (Str.toLowerCase s) = Str.toLowerCase s.
Proof.
  induction s as [|c s IH]; simpl; [reflexivity|].
  unfold Str.toLowerCase in *; simpl.
  now rewrite lower_lower_ascii, IH.
Qed.

(** X16: the allow-list of languages.  Without [SUPPORTED_LANGUAGES], or
    with an empty value, there is no allow-list; an entry that reads
    ["all"] once trimmed and lower-cased makes the ingestion behave as
    without allow-list; and the test of a row looks at its language code
    in lower case only, so the case of the code in the dump does not
    matter. *)
Theorem language_allow_list :
  (forall env, Str.truthy_opt env = false -> SUPPORTED_LANGUAGES env = None)
  /\ (forall (v piece : string) (lines : list string) (s : Store),
         v <> EmptyString ->
         In piece (Str.split "," v) ->
         Str.toLowerCase (Str.trim piece) = "all" ->
         loadAlternateNames (SUPPORTED_LANGUAGES (Some v)) lines s
         = loadAlternateNames None lines s)
  /\ (forall (l : list string) (id gid lang name p1 p2 p3 p4 : string),
         accepts (Some l) (mkAltRow id gid lang name p1 p2 p3 p4)
         = accepts (Some l)
             (mkAltRow id gid (Str.toLowerCase lang) name p1 p2 p3 p4)).
Proof.
  split; [|split].
  - intros [v|] H; [|reflexivity]. simpl in H. unfold SUPPORTED_LANGUAGES.
    now rewrite H.
  - intros v piece lines s Hv Hpiece Hall.
    unfold SUPPORTED_LANGUAGES. destruct v as [|c v]; [congruence|].
    cbn [Str.truthy].
    rewrite !loadAlternateNames_rows.
    replace (accepted (Some ((fun lang => Str.toLowerCase (Str.trim lang))
                               <$> Str.split "," (String c v))) lines)
      with (accepted None lines); [reflexivity|].
    unfold accepted. apply flat_map_ext. intros line. symmetry.
    apply pushed_all. apply in_fmap. exists piece. split; [now rewrite Hall | exact Hpiece].
  - intros l id gid lang name p1 p2 p3 p4. unfold accepts. simpl.
    unfold Str.toLowerCase at 2 3.
    rewrite truthy_map_string, length_map_string.
    fold (Str.toLowerCase lang). now rewrite toLowerCase_idempotent.
Qed.

(** ** Seeding the countries *)

Lemma upsert_fix (n : Country) (l : list Country) :
  leads l n -> upsert_country_row n l = l.
Proof.
  intros (l1 & l2 & -> & H). now apply upsert_country_row_replaces.
Qed.

Lemma upsert_leads (n : Country) (l : list Country) :
  leads (upsert_country_row n l) n.
Proof.
  induction l as [|old l IH]; simpl.
  - exists [], []. split; [reflexivity | intros x []].
  - destruct (String.eqb_spec (co_country_code old) (co_country_code n)) as [E|Hne].
    + exists [], l. split; [|intros x []]. simpl. f_equal.
      destruct n. simpl in *. now subst.
    + destruct IH as (l1 & l2 & E & H). exists (old :: l1), l2. split.
      * simpl. now rewrite E.
      * intros x [<-|Hx]; [exact Hne | now apply H].
Qed.

Lemma upsert_keeps_leads (m n : Country) (l : list Country) :
  co_country_code m <> co_country_code n ->
  leads l n -> leads (upsert_country_row m l) n.
Proof.
  intros Hne (l1 & l2 & -> & H). induction l1 as [|x l1 IH]; simpl.
  - destruct (String.eqb_spec (co_country_code n) (co_country_code m)) as [E|_];
      [congruence|].
    exists [], (upsert_country_row m l2). split; [reflexivity | intros x []].
  - destruct (String.eqb_spec (co_country_code x) (co_country_code m)) as [E|_].
    + eexists (_ :: l1), l2. split; [reflexivity|].
      intros y [<-|Hy]; simpl; [apply H; now left | apply H; now right].
    + destruct IH as (k1 & k2 & E & Hk); [intros y Hy; apply H; now right|].
      exists (x :: k1), k2. split.
      * simpl. now rewrite E.
      * intros y [<-|Hy]; [apply H; now left | now apply Hk].
Qed.

Lemma seed_countries_keeps_leads (seeds : list CountrySeed) (s : Store)
    (n : Country) :
  (forall seed, In seed seeds -> seed_code seed <> co_country_code n) ->
  leads (countries s) n ->
  leads (countries (final (seed_countries seeds s))) n.
Proof.
  revert s. induction seeds as [|c seeds IH]; intros s Hcodes Hn; [exact Hn|].
  rewrite seed_countries_cons.
  destruct (country_of_seed c) as [new|] eqn:E; [|exact Hn].
  assert (leads (countries
                   (set_countries (upsert_country_row new (countries s)) s)) n)
    as Hn'.
  { simpl. apply upsert_keeps_leads; [|exact Hn].
    rewrite (country_of_seed_code _ _ E). apply Hcodes. now left. }
  specialize (IH _ (fun seed H => Hcodes seed (or_intror H)) Hn').
  destruct (seed_countries seeds _) as [[r s2] t]. exact IH.
Qed.

Lemma seed_countries_ok (seeds : list CountrySeed) (s : Store) :
  result (seed_countries seeds s) = Some tt
  <-> forall seed, In seed seeds -> is_Some (country_of_seed seed).
Proof.
  revert s. induction seeds as [|c seeds IH]; intros s.
  - split; [intros _ seed [] | reflexivity].
  - rewrite seed_countries_cons.
    destruct (country_of_seed c) as [new|] eqn:E.
    + specialize (IH (set_countries (upsert_country_row new (countries s)) s)).
      destruct (seed_countries seeds _) as [[r s2] t].
      unfold result in *. simpl in *. rewrite IH. split.
      * intros H seed [<-|Hseed]; [rewrite E; eauto | now apply H].
      * intros H seed Hseed. apply H. now right.
    + unfold result. simpl. split; [discriminate|].
      intros H. destruct (H c (or_introl eq_refl)) as [x Hx]. congruence.
Qed.

Lemma seed_countries_leads (seeds : list CountrySeed) (s : Store) :
  List.NoDup (List.map seed_code seeds) ->
  result (seed_countries seeds s) = Some tt ->
  forall seed, In seed seeds ->
    exists new, country_of_seed seed = Some new
                /\ leads (countries (final (seed_countries seeds s))) new.
Proof.
  revert s. induction seeds as [|c seeds IH]; intros s Hnd Hok seed Hseed;
    [destruct Hseed|].
  inversion Hnd as [|? ? Hc Hrest]; subst.
  pose proof (seed_countries_keeps_leads seeds
                (set_countries
                   (upsert_country_row
                      (default (mkCountry EmptyString EmptyString None None None None)
                               (country_of_seed c))
                      (countries s)) s)) as Hkeep.
  rewrite seed_countries_cons in Hok |- *.
  destruct (country_of_seed c) as [new|] eqn:E; [|discriminate].
  cbn [from_option id default] in Hkeep.
  specialize (IH (set_countries (upsert_country_row new (countries s)) s) Hrest).
  destruct (seed_countries seeds _) as [[r s2] t].
  unfold result, final in *. simpl in *.
  destruct Hseed as [<-|Hseed].
  - exists new. split; [exact E|]. apply Hkeep; [|apply upsert_leads].
    intros seed Hseed Ecode. apply Hc. apply in_map_iff. exists seed.
    split; [|exact Hseed]. rewrite Ecode. apply (country_of_seed_code _ _ E).
  - now apply IH.
Qed.

Lemma leads_in (l : list Country) (n : Country) : leads l n -> In n l.
Proof. intros (l1 & l2 & -> & _). apply in_or_app. right. now left. Qed.

Lemma set_countries_same (s : Store) : set_countries (countries s) s = s.
Proof. now destruct s. Qed.

Lemma seed_countries_fix (seeds : list CountrySeed) (s : Store) :
  (forall seed, In seed seeds ->
     exists new, country_of_seed seed = Some new /\ leads (countries s) new) ->
  seed_countries seeds s = (Some tt, s, List.map SqlUpsertCountry seeds).
Proof.
  induction seeds as [|c seeds IH]; intros H; [reflexivity|].
  rewrite seed_countries_cons.
  destruct (H c (or_introl eq_refl)) as (new & -> & Hnew).
  rewrite (upsert_fix _ _ Hnew), set_countries_same.
  rewrite IH by (intros seed Hseed; apply H; now right). reflexivity.
Qed.

Lemma seed_countries_trace (seeds : list CountrySeed) (s : Store) :
  result (seed_countries seeds s) = Some tt ->
  trace (seed_countries seeds s) = List.map SqlUpsertCountry seeds.
Proof.
  revert s. induction seeds as [|c seeds IH]; intros s; [reflexivity|].
  rewrite seed_countries_cons.
  destruct (country_of_seed c) as [new|]; [|discriminate].
  specialize (IH (set_countries (upsert_country_row new (countries s)) s)).
  destruct (seed_countries seeds _) as [[r s2] t].
  unfold result, trace in *. simpl in *. intros H. now rewrite IH.
Qed.

Lemma seed_countries_twice (seeds : list CountrySeed) (s : Store) :
  List.NoDup (List.map seed_code seeds) ->
  result (seed_countries seeds s) = Some tt ->
  seed_countries seeds (final (seed_countries seeds s))
  = (Some tt, final (seed_countries seeds s), List.map SqlUpsertCountry seeds).
Proof.
  intros Hnd Hok. apply seed_countries_fix.
  now apply seed_countries_leads.
Qed.

(** X17: seeding the countries.  The seeding succeeds exactly when every
    seed passes the column checks; when it succeeds and the seeds have
    distinct codes, the row of every seed is stored as the seed gives it,
    and seeding once more sends the same statements and leaves the store
    as it is. *)
Theorem seeding_countries :
  forall (seeds : list CountrySeed) (s : Store),
    (result (loadCountriesData seeds s) = Some tt
     <-> forall seed, In seed seeds -> is_Some (country_of_seed seed))
    /\ (List.NoDup (List.map seed_code seeds) ->
        result (loadCountriesData seeds s) = Some tt ->
        (forall seed, In seed seeds ->
           exists new, country_of_seed seed = Some new
                       /\ In new (countries (final (loadCountriesData seeds s))))
        /\ loadCountriesData seeds (final (loadCountriesData seeds s))
           = (Some tt, final (loadCountriesData seeds s),
              trace (loadCountriesData seeds s))).
Proof.
  intros seeds s. rewrite !loadCountriesData_seed.
  pose proof (seed_countries_ok seeds s) as Hok.
  pose proof (seed_countries_leads seeds s) as Hleads.
  pose proof (seed_countries_twice seeds s) as Htwice.
  pose proof (seed_countries_trace seeds s) as Htrace.
  destruct (seed_countries seeds s) as [[r s2] t] eqn:E.
  unfold result, final, trace in *. simpl in *.
  split; [exact Hok|]. intros Hnd Hr. split.
  - intros seed Hseed. destruct (Hleads Hnd Hr seed Hseed) as (new & Hnew & Hl).
    exists new. split; [exact Hnew | now apply leads_in].
  - rewrite (Htwice Hnd Hr), (Htrace Hr). reflexivity.
Qed.

(** ** The whole import *)

Lemma insertPlaceIfAbsent_frame (c : City) (l : list AlternateName) (s : Store) :
  insertPlaceIfAbsent c (set_alternate_names l s)
  = set_alternate_names l (insertPlaceIfAbsent c s).
Proof.
  unfold insertPlaceIfAbsent, placeExists. simpl.
  now destruct (existsb _ (cities s)).
Qed.

Lemma import_cities_frame (rows : list CityCsvRow) (n : Z)
    (l : list AlternateName) (s : Store) :
  import_cities rows n (set_alternate_names l s)
  = let '(b, s2, t) := import_cities rows n s in (b, set_alternate_names l s2, t).
Proof.
  revert n s. induction rows as [|r rows IH]; intros n s; [reflexivity|].
  rewrite !import_cities_cons. destruct (city_of_row r) as [c|].
  - rewrite insertPlaceIfAbsent_frame, IH.
    now destruct (import_cities rows (n + 1) (insertPlaceIfAbsent c s))
      as [[b s2] t].
  - rewrite IH. now destruct (import_cities rows n s) as [[b s2] t].
Qed.

Lemma loadCitiesData_frame (rows : list CityCsvRow) (l : list AlternateName)
    (s : Store) :
  final (loadCitiesData rows (set_alternate_names l s))
  = set_alternate_names l (final (loadCitiesData rows s)).
Proof.
  unfold loadCitiesData, bind, query. simpl.
  destruct (0 <? _); [reflexivity|].
  rewrite import_cities_frame.
  now destruct (import_cities rows 0 s) as [[b s2] t].
Qed.

Lemma main_exit (seeds : list CountrySeed) (rows : list CityCsvRow)
    (langs : option (list string)) (lines : list string) (s : Store) :
  (main seeds rows langs lines s).1.1
  = match result (loadCountriesData seeds s) with Some _ => 0 | None => 1 end
  /\ (main seeds rows langs lines s).1.2
     = match result (loadCountriesData seeds s) with
       | Some _ =>
           final (loadAlternateNames langs lines
                    (final (loadCitiesData rows
                              (final (loadCountriesData seeds s)))))
       | None => final (loadCountriesData seeds s)
       end.
Proof.
  unfold main.
  destruct (loadCountriesData seeds s) as [[[u|] s1] t1]; unfold result, final;
    simpl; [|split; reflexivity].
  destruct (loadCitiesData rows s1) as [[b s2] t2]. simpl.
  destruct (loadAlternateNames langs lines s2) as [[k s3] t3]. simpl.
  split; reflexivity.
Qed.

(** X18: the import as a whole.  [main] exits with 0 exactly when every
    seed passes the column checks; it keeps a well-formed store
    well-formed; and, for seeds with distinct codes, running it again on
    the store that a successful run leaves exits with 0 and leaves the
    store as it is. *)
Theorem import_can_be_rerun :
  forall (seeds : list CountrySeed) (rows : list CityCsvRow)
         (langs : option (list string)) (lines : list string) (s : Store),
    ((main seeds rows langs lines s).1.1 = 0
     <-> forall seed, In seed seeds -> is_Some (country_of_seed seed))
    /\ (store_ok s -> store_ok (main seeds rows langs lines s).1.2)
    /\ (List.NoDup (List.map seed_code seeds) ->
        (main seeds rows langs lines s).1.1 = 0 ->
        (main seeds rows langs lines (main seeds rows langs lines s).1.2).1.1 = 0
        /\ (main seeds rows langs lines (main seeds rows langs lines s).1.2).1.2
           = (main seeds rows langs lines s).1.2).
Proof.
  intros seeds rows langs lines s.
  destruct (main_exit seeds rows langs lines s) as [Hexit Hstore].
  assert (result (loadCountriesData seeds s) = Some tt
          <-> (main seeds rows langs lines s).1.1 = 0) as Hcode.
  { rewrite Hexit. destruct (result (loadCountriesData seeds s)) as [[]|];
      split; intros H; try reflexivity; discriminate. }
  split; [|split].
  - rewrite <- Hcode. rewrite loadCountriesData_seed.
    pose proof (seed_countries_ok seeds s) as Hok.
    destruct (seed_countries seeds s) as [[r s2] t]. exact Hok.
  - intros Hs. rewrite Hstore.
    pose proof (loadCountriesData_preserves store_ok
                  (fun s' new => store_ok_upsert_country s' new) seeds s Hs) as H1.
    destruct (result (loadCountriesData seeds s)); [|exact H1].
    apply (loadAlternateNames_preserves store_ok
             (fun s' a => store_ok_add_alternate_name s' a)).
    apply (loadCitiesData_preserves store_ok
             (fun s' r c Hs' _ => store_ok_add_city s' c Hs')).
    exact H1.
  - intros Hnd H0. apply Hcode in H0.
    rewrite Hstore, H0.
    set (s1 := final (loadCountriesData seeds s)).
    set (s2 := final (loadCitiesData rows s1)).
    set (s3 := final (loadAlternateNames langs lines s2)).
    destruct (main_exit seeds rows langs lines s3) as [Hexit' Hstore'].
    rewrite Hexit', Hstore'.
    (* the countries of [s3] are those of [s1] *)
    destruct (loadCitiesData_extends rows s1) as [lc Hs2]. fold s2 in Hs2.
    destruct (loadAlternateNames_extends langs lines s2) as [la Hs3].
    fold s3 in Hs3.
    assert (countries s3 = countries s1) as Hco
      by (rewrite Hs3, Hs2; reflexivity).
    assert (loadCountriesData seeds s3
            = (Some tt, s3,
               SqlDropCityConstraint :: SqlDropAlternateNameConstraint
                 :: List.map SqlUpsertCountry seeds)) as Hseed.
    { rewrite loadCountriesData_seed, seed_countries_fix; [reflexivity|].
      intros seed Hseed. rewrite Hco. unfold s1.
      rewrite loadCountriesData_seed in H0 |- *.
      pose proof (seed_countries_leads seeds s Hnd) as Hl.
      destruct (seed_countries seeds s) as [[r s'] t'].
      unfold result, final in *. simpl in *. now apply Hl. }
    rewrite Hseed. unfold result, final. simpl. split; [reflexivity|].
    assert (final (loadCitiesData rows s3) = s3) as Hc.
    { rewrite Hs3, loadCitiesData_frame. f_equal. unfold s2.
      apply loadCitiesData_twice. }
    change ((Some tt, s3,
             SqlDropCityConstraint :: SqlDropAlternateNameConstraint
               :: List.map SqlUpsertCountry seeds).1.2) with s3.
    unfold final in Hc. rewrite Hc.
    apply loadAlternateNames_twice.
Qed.

(** ** Coordinates and their columns *)

Lemma decimal8_in_fits (i B : Z) (q : Q) :
  (Qabs q <= inject_Z B)%Q ->
  B * 100000000 < 10 ^ (i + 8) ->
  exists q', decimal8_in i (Num q) = Some (Num q')
             /\ (Qabs (q' - q) <= 1 # 200000000)%Q.
Proof.
  intros Hq HB. apply Qabs_Qle_condition in Hq. destruct Hq as [Hlo Hhi].
  assert (forall x, (0 <= x <= inject_Z B)%Q ->
                    0 <= Qfloor (x * 100000000 + (1 # 2)) <= B * 100000000)
    as Hfloor.
  { intros x [H0 H1]. split.
    - change 0 with (Qfloor 0). apply Qfloor_resp_le. lra.
    - rewrite <- (Qfloor_half (B * 100000000)). apply Qfloor_resp_le.
      rewrite inject_Z_mult. change (inject_Z 100000000) with 100000000%Q. lra. }
  unfold decimal8_in. destruct (Qle_bool 0 q) eqn:E.
  - apply Qle_bool_iff in E.
    destruct (Hfloor q (conj E Hhi)) as [F0 F1].
    replace (Z.abs _ <? 10 ^ (i + 8)) with true
      by (symmetry; apply Z.ltb_lt; lia).
    eexists. split; [reflexivity|].
    pose proof (Qfloor_le (q * 100000000 + (1 # 2))) as H1.
    pose proof (Qlt_floor (q * 100000000 + (1 # 2))) as H2.
    rewrite inject_Z_plus in H2. change (inject_Z 1) with 1%Q in H2.
    apply Qabs_Qle_condition.
    unfold Qdiv. change (/ 100000000)%Q with (1 # 100000000)%Q. split; lra.
  - assert (~ (0 <= q)%Q) as Hneg by (rewrite <- Qle_bool_iff; congruence).
    destruct (Hfloor (- q)%Q) as [F0 F1]; [lra|].
    replace (Z.abs _ <? 10 ^ (i + 8)) with true
      by (symmetry; apply Z.ltb_lt; lia).
    eexists. split; [reflexivity|].
    pose proof (Qfloor_le (- q * 100000000 + (1 # 2))) as H1.
    pose proof (Qlt_floor (- q * 100000000 + (1 # 2))) as H2.
    rewrite inject_Z_plus in H2. change (inject_Z 1) with 1%Q in H2.
    rewrite inject_Z_opp.
    apply Qabs_Qle_condition.
    unfold Qdiv. change (/ 100000000)%Q with (1 # 100000000)%Q. split; lra.
Qed.

Lemma decimal8_in_overflow (i : Z) (q : Q) :
  (inject_Z (10 ^ i) <= Qabs q)%Q -> 0 <= i ->
  decimal8_in i (Num q) = None.
Proof.
  intros Hq Hi.
  assert (10 ^ (i + 8) = 10 ^ i * 100000000) as Hpow
    by (rewrite Z.pow_add_r by lia; reflexivity).
  assert (forall x, (inject_Z (10 ^ i) <= x)%Q ->
                    10 ^ (i + 8) <= Qfloor (x * 100000000 + (1 # 2))) as Hfloor.
  { intros x Hx. rewrite Hpow, <- (Qfloor_half (10 ^ i * 100000000)).
    apply Qfloor_resp_le. rewrite inject_Z_mult.
    change (inject_Z 100000000) with 100000000%Q. lra. }
  unfold decimal8_in. destruct (Qle_bool 0 q) eqn:E.
  - apply Qle_bool_iff in E. rewrite Qabs_pos in Hq by exact E.
    pose proof (Hfloor q Hq).
    replace (Z.abs _ <? 10 ^ (i + 8)) with false; [reflexivity|].
    symmetry. apply Z.ltb_ge. lia.
  - assert (~ (0 <= q)%Q) as Hneg by (rewrite <- Qle_bool_iff; congruence).
    rewrite Qabs_neg in Hq by lra.
    pose proof (Hfloor (- q)%Q Hq).
    replace (Z.abs _ <? 10 ^ (i + 8)) with false; [reflexivity|].
    symmetry. apply Z.ltb_ge. lia.
Qed.

(** X19: coordinates and their columns.  Every latitude between -90 and 90
    fits [DECIMAL(10,8)] and every longitude between -180 and 180 fits
    [DECIMAL(11,8)], the stored value being within half of 10^-8 of the
    given one; a latitude of magnitude 100 or more, or a longitude of
    magnitude 1000 or more, overflows the column, so the dump row that
    carries it is rejected. *)
Theorem coordinates_fit_their_columns :
  (forall q, (-90 <= q <= 90)%Q ->
             exists q', decimal8_in 2 (Num q) = Some (Num q')
                        /\ (Qabs (q' - q) <= 1 # 200000000)%Q)
  /\ (forall q, (-180 <= q <= 180)%Q ->
                exists q', decimal8_in 3 (Num q) = Some (Num q')
                           /\ (Qabs (q' - q) <= 1 # 200000000)%Q)
  /\ (forall (r : CityCsvRow) (q : Q),
         (parseFloat (cr_latitude r) = Num q /\ (100 <= Qabs q)%Q)
         \/ (parseFloat (cr_longitude r) = Num q /\ (1000 <= Qabs q)%Q) ->
         city_of_row r = None).
Proof.
  split; [|split].
  - intros q Hq. apply (decimal8_in_fits 2 90); [|reflexivity].
    apply Qabs_Qle_condition. change (inject_Z 90) with 90%Q. lra.
  - intros q Hq. apply (decimal8_in_fits 3 180); [|reflexivity].
    apply Qabs_Qle_condition. change (inject_Z 180) with 180%Q. lra.
  - intros r q H. unfold city_of_row.
    destruct (Str.parseInt_opt (cr_geonameid r)) as [id|]; [|reflexivity].
    destruct (cr_name r) as [name|]; [|reflexivity].
    cbn [mbind option_bind].
    destruct H as [[-> Hq]|[-> Hq]].
    + now rewrite (decimal8_in_overflow 2 q Hq).
    + destruct (decimal8_in 2 _); [|reflexivity]. cbn [mbind option_bind].
      now rewrite (decimal8_in_overflow 3 q Hq).
Qed.

(** ** Dump rows that the database rejects *)

Lemma city_of_row_inv (r : CityCsvRow) (c : City) :
  city_of_row r = Some c ->
  Str.parseInt_opt (cr_geonameid r) = Some (c_geonameid c)
  /\ int4_ok (c_geonameid c) = true
  /\ cr_name r = Some (c_name c)
  /\ (String.length (c_name c) <= 200)%nat
  /\ c_country_code c = cr_country_code r
  /\ varchar_ok 2 (c_country_code c) = true
  /\ c_admin1_name c = None.
Proof.
  unfold city_of_row.
  destruct (Str.parseInt_opt (cr_geonameid r)) as [id|]; [|discriminate].
  destruct (cr_name r) as [name|]; [|discriminate].
  cbn [mbind option_bind].
  destruct (decimal8_in 2 _) as [lat|]; [|discriminate].
  destruct (decimal8_in 3 _) as [lon|]; [|discriminate].
  cbn [mbind option_bind].
  match goal with
  | |- ?o ≫= _ = _ -> _ => destruct o as [population|]; [|discriminate]
  end.
  cbn [mbind option_bind].
  match goal with
  | |- ?o ≫= _ = _ -> _ => destruct o as [elevation|]; [|discriminate]
  end.
  cbn [mbind option_bind].
  match goal with
  | |- ?o ≫= _ = _ -> _ => destruct o as [date|]; [|discriminate]
  end.
  cbn [mbind option_bind].
  destruct (int4_ok id) eqn:Eid; [|discriminate].
  destruct (varchar_ok 200 (Some name)) eqn:Ename; [|discriminate].
  destruct (varchar_ok 200 (cr_asciiname r)); [|discriminate].
  destruct (varchar_ok 1 (cr_feature_class r)); [|discriminate].
  destruct (varchar_ok 10 (cr_feature_code r)); [|discriminate].
  destruct (varchar_ok 2 (cr_country_code r)) eqn:Ecc; [|discriminate].
  destruct (varchar_ok 20 (cr_admin1_code r)); [|discriminate].
  destruct (varchar_ok 40 (cr_timezone r)); [|discriminate].
  intros H. inversion H; subst; clear H. cbn.
  repeat split; auto. simpl in Ename. now apply Nat.leb_le.
Qed.

(** ** The administrative region *)

(** X21: the loader never fills [admin1_name]: when no stored place has
    one, none has one after [loadCitiesData], and then every city result
    of [search] carries the [admin_region] [null] and so does every result
    of [reverse]. *)
Theorem admin_region_is_never_loaded :
  forall s : Store,
    List.Forall (fun c => c_admin1_name c = None) (cities s) ->
    (forall rows,
        List.Forall (fun c => c_admin1_name c = None)
                    (cities (final (loadCitiesData rows s))))
    /\ (forall rq results count r,
           result (search rq s) = Ok200 results count -> In r results ->
           res_type r = "city" -> res_admin_region r = Some None)
    /\ (forall rq results count r,
           result (reverse rq s) = Ok200 results count -> In r results ->
           rv_admin_region r = None).
Proof.
  intros s Hs. split; [|split].
  - intros rows.
    apply (loadCitiesData_preserves
             (fun s => List.Forall (fun c => c_admin1_name c = None) (cities s)));
      [|exact Hs].
    intros s' r c Hs' Hr _. simpl. apply List.Forall_app. split; [exact Hs'|].
    constructor; [|constructor]. apply (city_of_row_inv r c Hr).
  - intros rq results count r Hok Hr Hty.
    apply search_ok_inv in Hok. destruct Hok as (q & rows & _ & Hsql & -> & _).
    apply in_fmap in Hr. destruct Hr as (row & -> & Hrow).
    rewrite format_search_row_type in Hty.
    destruct (search_city_row_inv _ _ _ _ Hsql Hrow Hty) as (c & co & Hc & _ & _ & ->).
    rewrite List.Forall_forall in Hs. unfold format_search_row. simpl.
    now rewrite (Hs c Hc).
  - intros rq results count r Hok Hr.
    apply reverse_ok_inv in Hok.
    destruct Hok as (lat & lon & rows & _ & _ & Hsql & -> & _).
    apply in_fmap in Hr. destruct Hr as (row & -> & Hrow).
    apply reverse_sql_inv in Hsql. destruct Hsql as (la & lo & rd & _ & _ & _ & ->).
    apply in_take, in_sort_by, reverse_candidates_inv in Hrow.
    destruct Hrow as (c & co & x & y & Hc & _ & _ & _ & _ & _ & ->).
    rewrite List.Forall_forall in Hs. simpl. now apply Hs.
Qed.

(** ** The country ladder on the loaded data *)

(** X22: no loader writes to [country_alternate_names], so [main] leaves
    that table as it is; and while it is empty the country [CASE] follows
    the ladder: a country at a higher tier scores strictly higher than a
    country at a lower tier. *)
Theorem country_ladder_without_alternate_names :
  (forall seeds rows langs lines s,
      country_alternate_names (main seeds rows langs lines s).1.2
      = country_alternate_names s)
  /\ (similarity_range ->
      forall (s : Store) (q pat : string) (c1 c2 : Country)
             (g1 g2 : list (option CountryAlternateName)),
        country_alternate_names s = [] ->
        tier_rank (country_tier s q pat c1) < tier_rank (country_tier s q pat c2) ->
        (country_score s q pat c1 g1 < country_score s q pat c2 g2)%Q).
Proof.
  split.
  - intros seeds rows langs lines s.
    destruct (main_exit seeds rows langs lines s) as [_ ->].
    destruct (loadCountriesData_frame seeds s) as (l & H1 & _).
    destruct (result (loadCountriesData seeds s)); [|now rewrite H1].
    destruct (loadAlternateNames_extends langs lines
                (final (loadCitiesData rows (final (loadCountriesData seeds s)))))
      as [la ->].
    destruct (loadCitiesData_extends rows (final (loadCountriesData seeds s)))
      as [lc ->].
    now rewrite H1.
  - intros Hsim s q pat c1 c2 g1 g2 Hempty.
    pose proof (country_fuzzy_range q c1 g1 Hsim) as F1.
    pose proof (country_fuzzy_range q c2 g2 Hsim) as F2.
    unfold country_score, country_tier, country_exact_alternate,
      country_substring_alternate.
    rewrite Hempty. cbn [existsb].
    destruct (lower_eq (co_name c1) q), (Str.ilike (co_name c1) pat),
      (lower_eq (co_name c2) q), (Str.ilike (co_name c2) pat);
      cbn [tier_rank]; intros H; try lia; lra.
Qed.

(** ** The seed lists *)

Lemma main_countries (seeds : list CountrySeed) (rows : list CityCsvRow)
    (langs : option (list string)) (lines : list string) (s : Store) :
  countries (main seeds rows langs lines s).1.2
  = countries (final (loadCountriesData seeds s)).
Proof.
  destruct (main_exit seeds rows langs lines s) as [_ ->].
  destruct (result (loadCountriesData seeds s)); [|reflexivity].
  destruct (loadAlternateNames_extends langs lines
              (final (loadCitiesData rows (final (loadCountriesData seeds s)))))
    as [la ->].
  destruct (loadCitiesData_extends rows (final (loadCountriesData seeds s)))
    as [lc ->].
  reflexivity.
Qed.

Lemma seeds_checked (seeds : list CountrySeed) :
  forallb (fun seed =>
             match country_of_seed seed with Some _ => true | None => false end
             && (String.length (seed_code seed) =? 2)%nat
             && bool_decide (seed_translations seed !! "en" = Some (seed_name seed)))
          seeds = true ->
  forall seed, In seed seeds ->
    is_Some (country_of_seed seed)
    /\ String.length (seed_code seed) = 2%nat
    /\ seed_translations seed !! "en" = Some (seed_name seed).
Proof.
  intros H seed Hseed. rewrite forallb_forall in H. specialize (H seed Hseed).
  apply andb_true_iff in H. destruct H as [H H3].
  apply andb_true_iff in H. destruct H as [H1 H2].
  split; [|split].
  - destruct (country_of_seed seed); [eauto | discriminate].
  - now apply Nat.eqb_eq.
  - now apply bool_decide_eq_true in H3.
Qed.

(** X23: the seed list of the loader is well-formed: its 249 seeds have
    pairwise distinct codes of two characters, each passes the column
    checks of [countries] and carries its name as the English translation;
    so the seeding never fails, [main] exits with 0 whatever the dumps
    hold, and afterwards the row of every seed is stored.  The five seeds
    of the second version of the loader are well-formed too. *)
Theorem built_in_seeds_are_well_formed :
  length Seeds.countries = 249%nat
  /\ List.NoDup (List.map seed_code Seeds.countries)
  /\ (forall seed, In seed Seeds.countries ->
        is_Some (country_of_seed seed)
        /\ String.length (seed_code seed) = 2%nat
        /\ seed_translations seed !! "en" = Some (seed_name seed))
  /\ (forall rows langs lines s,
         (main Seeds.countries rows langs lines s).1.1 = 0
         /\ forall seed, In seed Seeds.countries ->
              exists new,
                country_of_seed seed = Some new
                /\ In new (countries (main Seeds.countries rows langs lines s).1.2))
  /\ List.NoDup (List.map seed_code Seeds.countries_second)
  /\ (forall seed, In seed Seeds.countries_second ->
        is_Some (country_of_seed seed)
        /\ String.length (seed_code seed) = 2%nat
        /\ seed_translations seed !! "en" = Some (seed_name seed)).
Proof.
  assert (List.NoDup (List.map seed_code Seeds.countries)) as Hnd.
  { apply NoDup_ListNoDup. refine (bool_decide_unpack _ _). vm_compute. exact I. }
  assert (forall seed, In seed Seeds.countries ->
            is_Some (country_of_seed seed)
            /\ String.length (seed_code seed) = 2%nat
            /\ seed_translations seed !! "en" = Some (seed_name seed)) as Hok.
  { apply seeds_checked. vm_compute. reflexivity. }
  split; [reflexivity|]. split; [exact Hnd|]. split; [exact Hok|].
  split; [|split].
  - intros rows langs lines s.
    assert (result (seed_countries Seeds.countries s) = Some tt) as Hres
      by (apply seed_countries_ok; intros seed Hseed; apply (Hok seed Hseed)).
    split.
    + destruct (main_exit Seeds.countries rows langs lines s) as [-> _].
      rewrite loadCountriesData_seed.
      destruct (seed_countries Seeds.countries s) as [[r s2] t].
      unfold result in *. simpl in *. now rewrite Hres.
    + intros seed Hseed. rewrite main_countries, loadCountriesData_seed.
      destruct (seed_countries_leads Seeds.countries s Hnd Hres seed Hseed)
        as (new & Hnew & Hl).
      exists new. split; [exact Hnew|]. apply leads_in.
      destruct (seed_countries Seeds.countries s) as [[r s2] t]. exact Hl.
  - apply NoDup_ListNoDup. refine (bool_decide_unpack _ _). vm_compute. exact I.
  - apply seeds_checked. vm_compute. reflexivity.
Qed.

(** ** The alternate names that the loader stores *)

Lemma process_rows_added (rows : list AltRow) (n : Z) (s : Store) :
  exists l,
    final (process_rows rows n s) = set_alternate_names (alternate_names s ++ l) s
    /\ List.Forall (fun a => exists row, In row rows
                                         /\ alternate_name_of_row row = Some a) l.
Proof.
  revert n s. induction rows as [|row rows IH]; intros n s.
  - exists []. split; [|constructor]. unfold final. simpl.
    now rewrite app_nil_r, set_alternate_names_same.
  - rewrite process_rows_cons.
    assert (exists l1,
               final (processRow row s)
               = set_alternate_names (alternate_names s ++ l1) s
               /\ List.Forall (fun a => alternate_name_of_row row = Some a) l1)
      as (l1 & H1 & K1).
    { destruct (processRow_cases row s) as [H|(a & Ha & _ & _ & H)].
      - exists []. split; [|constructor].
        now rewrite H, app_nil_r, set_alternate_names_same.
      - exists [a]. split; [exact H|]. constructor; [exact Ha | constructor]. }
    destruct (processRow row s) as [[m s1] t1].
    unfold final in H1. cbn [fst snd] in H1. subst s1.
    destruct (IH (n + m) (set_alternate_names (alternate_names s ++ l1) s))
      as (l2 & H2 & K2).
    destruct (process_rows rows (n + m) _) as [[k s2] t2].
    unfold final in *. cbn [fst snd] in *. subst s2.
    exists (l1 ++ l2). split; [apply set_alternate_names_app|].
    apply List.Forall_app. split.
    + eapply List.Forall_impl; [|exact K1]. intros a Ha. exists row.
      split; [now left | exact Ha].
    + eapply List.Forall_impl; [|exact K2]. intros a (row' & Hin & Ha).
      exists row'. split; [now right | exact Ha].
Qed.

Lemma alternate_name_of_row_fields (row : AltRow) (a : AlternateName) :
  alternate_name_of_row row = Some a ->
  an_isolanguage a = Some (ar_isolanguage row)
  /\ an_alternate_name a = Some (ar_alternate_name row)
  /\ int4_ok (an_alternatenameid a) = true
  /\ Str.parseInt (ar_alternatenameid row) = Some (an_alternatenameid a).
Proof.
  unfold alternate_name_of_row.
  destruct (Str.parseInt (ar_alternatenameid row)) as [id|]; [|discriminate].
  destruct (Str.parseInt (ar_geonameid row)) as [gid|]; [|discriminate].
  cbn [mbind option_bind].
  destruct (int4_ok id && int4_ok gid
            && varchar_ok 7 (Some (ar_isolanguage row))
            && varchar_ok 400 (Some (ar_alternate_name row))) eqn:E;
    [|discriminate].
  rewrite !andb_true_iff in E. destruct E as [[[Eid _] _] _].
  intros H. inversion H; subst. simpl. auto.
Qed.

(** X29: the alternate names that a run of [loadAlternateNames] adds are
    well-formed and within the allow-list: each comes from a line of the
    dump with at least eight fields, carries the language code and the
    name of that line, the code not empty and of at most 7 characters, the
    name not empty and of at most 400 characters, an id in the range of
    [INTEGER] and, with an allow-list configured, a lower-cased code in
    the list (or the list holds ["all"]). *)
Theorem stored_alternate_names_pass_the_filter :
  forall langs (lines : list string) (s : Store) (a : AlternateName),
    In a (alternate_names (final (loadAlternateNames langs lines s))) ->
    In a (alternate_names s)
    \/ exists line row,
         In line lines
         /\ row_of_columns (Str.split tab line) = Some row
         /\ an_isolanguage a = Some (ar_isolanguage row)
         /\ an_alternate_name a = Some (ar_alternate_name row)
         /\ ar_isolanguage row <> EmptyString
         /\ (String.length (ar_isolanguage row) <= 7)%nat
         /\ ar_alternate_name row <> EmptyString
         /\ (String.length (ar_alternate_name row) <= 400)%nat
         /\ int4_ok (an_alternatenameid a) = true
         /\ forall l, langs = Some l ->
                      In (Str.toLowerCase (ar_isolanguage row)) l \/ In "all" l.
Proof.
  intros langs lines s a. rewrite loadAlternateNames_rows.
  destruct (0 <? _); [now left|].
  destruct (process_rows_added (accepted langs lines) 0 s) as (l & Hl & K).
  destruct (process_rows (accepted langs lines) 0 s) as [[n s1] t].
  unfold final in *. cbn [fst snd] in *. subst s1. simpl.
  rewrite in_app_iff. intros [Hin|Hin]; [now left|right].
  rewrite List.Forall_forall in K. destruct (K a Hin) as (row & Hrow & Ha).
  unfold accepted in Hrow. apply in_flat_map in Hrow.
  destruct Hrow as (line & Hline & Hpushed).
  destruct (pushed_inv _ _ _ Hpushed) as (_ & Hcols & Hacc).
  destruct (alternate_name_of_row_fields _ _ Ha) as (F1 & F2 & F3 & _).
  destruct (accepts_spec _ _ Hacc) as (A1 & A2 & A3 & A4).
  exists line, row. repeat split; auto.
  unfold accepts in Hacc. rewrite !andb_true_iff in Hacc.
  destruct Hacc as [[[[_ _] Hn] _] _]. intros E. now rewrite E in Hn.
Qed.

(** ** The scoring ladder *)

(** Without rows in [country_alternate_names] the country [CASE] gives each
    tier of the ladder its score. *)
Lemma country_score_by_tier (s : Store) (q pat : string) (co : Country)
    (grp : list (option CountryAlternateName)) :
  country_alternate_names s = [] ->
  country_score s q pat co grp
  = match tier_score (country_tier s q pat co) with
    | Some v => v
    | None => country_fuzzy q co grp
    end.
Proof.
  intros Hempty.
  unfold country_score, country_tier, country_exact_alternate,
    country_substring_alternate, country_fuzzy.
  rewrite Hempty. cbn [existsb].
  destruct (lower_eq (co_name co) q); [reflexivity|].
  destruct (Str.ilike (co_name co) pat); reflexivity.
Qed.







(** ** Alternate names under every schedule *)

Lemma next_row_justified (s : Store) (rest : list AltRow) (n : Z) (b : InFlight) :
  next_row rest n = inl b -> insert_justified s b.
Proof.
  destruct rest; simpl; [discriminate|].
  intros H. inversion H. intros E. discriminate.
Qed.

Lemma start_batch_justified (s : Store) (rows : list AltRow) :
  insert_justified s (start_batch rows).
Proof. intros E. discriminate. Qed.

Lemma select_city_known (s : Store) (row : AltRow) (n : nat) :
  select_city (Str.parseInt (ar_geonameid row)) s = Some n ->
  (0 <? n)%nat = true -> known_row s row.
Proof.
  unfold select_city, known_row.
  destruct (Str.parseInt (ar_geonameid row)) as [id|]; [|discriminate].
  destruct (int4_ok id); [|discriminate].
  intros H Hn. inversion H; subst n. exists id. split; [reflexivity|].
  now apply filter_pos_existsb.
Qed.

Lemma insert_alternate_name_grown (s0 s s' : Store) (row : AltRow) :
  known_row s0 row -> grown_from s0 s ->
  insert_alternate_name row s = Some s' -> grown_from s0 s'.
Proof.
  intros [id [Hid Hex]] [Hc Ha]. unfold insert_alternate_name.
  destruct (alternate_name_of_row row) as [a|] eqn:Ea; [|discriminate]. simpl.
  unfold insertAlternateNameIfAbsent.
  destruct (existsb _ _); intros H; inversion H; subst s'; clear H.
  - now split.
  - split; [exact Hc|]. simpl. intros x Hx. apply in_app_or in Hx.
    destruct Hx as [Hx|[<-|[]]]; [now apply Ha|].
    right. exists id. split; [|exact Hex].
    rewrite (alternate_name_of_row_geonameid _ _ Ea). exact Hid.
Qed.

Lemma resume_batch_safe (s0 s : Store) (b : InFlight) :
  insert_justified s0 b -> grown_from s0 s ->
  grown_from s0 (final (resume_batch b s))
  /\ forall b', result (resume_batch b s) = inl b' -> insert_justified s0 b'.
Proof.
  intros Hb Hs. unfold resume_batch.
  destruct (if_rows b) as [|row rest] eqn:Er.
  - split; [exact Hs | discriminate].
  - destruct (if_insert b) eqn:Ei.
    + destruct (Hb Ei) as (row' & rest' & E & Hk).
      rewrite Er in E. inversion E; subst row' rest'; clear E.
      unfold bind, execute, ret, final, result.
      destruct (insert_alternate_name row s) as [s'|] eqn:Ein; simpl.
      * split; [now apply (insert_alternate_name_grown s0 s s' row)|].
        intros b' H. exact (next_row_justified s0 _ _ _ H).
      * split; [exact Hs|]. intros b' H. exact (next_row_justified s0 _ _ _ H).
    + unfold bind, query, ret, final, result. simpl.
      destruct (select_city _ s) as [n|] eqn:Es; simpl.
      * destruct (0 <? n)%nat eqn:En; simpl.
        -- split; [exact Hs|]. intros b' H. inversion H; subst b'; clear H.
           intros _. exists row, rest. split; [reflexivity|].
           apply select_city_known with (n := n); [|exact En].
           unfold select_city in *. destruct Hs as [Hc _]. now rewrite <- Hc.
        -- split; [exact Hs|]. intros b' H. exact (next_row_justified s0 _ _ _ H).
      * split; [exact Hs|]. intros b' H. exact (next_row_justified s0 _ _ _ H).
Qed.

Lemma close_continue_justified (s : Store) (st : Reading) :
  reading_justified s st -> reading_justified s (close_continue st).
Proof.
  intros [Hq Hc]. unfold close_continue.
  destruct (ld_batch (rd_loader st)); split; simpl; auto; try discriminate.
  intros b H. inversion H. apply start_batch_justified.
Qed.

Lemma run_queue_justified langs (s : Store) (ld : Loader) (st : Reading) :
  (forall b, rd_close st = CloseAwaitsBatch b -> insert_justified s b) ->
  reading_justified s (run_queue langs ld st).
Proof.
  intros Hc. unfold run_queue.
  destruct (drain langs (rd_lineQueue st) ld) as [[ld' rest] waits].
  destruct waits.
  - split; simpl; [|exact Hc]. intros b H. inversion H. apply start_batch_justified.
  - destruct (rd_close st) eqn:E; try (split; simpl; [discriminate|]; try discriminate).
    + apply close_continue_justified. split; simpl; discriminate.
    + intros b' H. apply Hc. exact H.
Qed.

Lemma call_processQueue_justified langs (s : Store) (st : Reading) :
  reading_justified s st -> reading_justified s (call_processQueue langs st).
Proof.
  intros H. unfold call_processQueue.
  destruct (rd_isProcessing st); [exact H|].
  apply run_queue_justified. exact (proj2 H).
Qed.

Lemma deliver_safe langs (s0 : Store) (e : Event) (st st' : Reading)
    (s s' : Store) (log : list Statement) :
  reading_justified s0 st -> grown_from s0 s ->
  deliver langs e st s = (Some st', s', log) ->
  reading_justified s0 st' /\ grown_from s0 s'.
Proof.
  intros Hst Hs. destruct e; simpl.
  - destruct (rd_close st) eqn:Ec; try discriminate.
    destruct (1000 <? _)%nat; unfold ret; intros H; inversion H; subst; clear H;
      (split; [|exact Hs]).
    + apply call_processQueue_justified. destruct Hst as [Hq Hc].
      split; simpl; [exact Hq|]. try rewrite Ec. discriminate.
    + destruct Hst as [Hq Hc]. split; simpl; [exact Hq|]. try rewrite Ec. discriminate.
  - destruct (rd_immediates st) as [|n]; unfold ret; intros H; inversion H;
      subst; clear H.
    split; [|exact Hs]. apply call_processQueue_justified.
    destruct Hst as [Hq Hc]. split; simpl; auto.
  - destruct (rd_close st) eqn:Ec; try discriminate.
    destruct (rd_isProcessing st); unfold ret; intros H; inversion H; subst; clear H;
      (split; [|exact Hs]).
    + now apply close_continue_justified.
    + apply run_queue_justified. simpl. discriminate.
  - destruct (rd_awaited st) as [b|] eqn:Ea; [|discriminate].
    destruct (resume_batch_safe s0 s b (proj1 Hst b Ea) Hs) as [Hg Hj].
    unfold bind. destruct (resume_batch b s) as [[r s1] t1].
    unfold final, result in *; simpl in *.
    destruct r as [b'|n]; unfold ret; intros H; inversion H; subst; clear H;
      (split; [|exact Hg]).
    + split; simpl; [|exact (proj2 Hst)]. intros b0 H. inversion H; subst.
      now apply Hj.
    + apply run_queue_justified. exact (proj2 Hst).
  - destruct (rd_close st) as [| |b|] eqn:Ec; try discriminate.
    destruct (resume_batch_safe s0 s b (proj2 Hst b Ec) Hs) as [Hg Hj].
    unfold bind. destruct (resume_batch b s) as [[r s1] t1].
    unfold final, result in *; simpl in *.
    destruct r as [b'|n]; unfold ret; intros H; inversion H; subst; clear H;
      (split; [|exact Hg]).
    + split; simpl; [exact (proj1 Hst)|]. intros b0 H. inversion H; subst.
      now apply Hj.
    + split; simpl; [exact (proj1 Hst)|discriminate].
Qed.

Lemma deliver_all_safe langs (s0 : Store) (events : list Event) (st st' : Reading)
    (s s' : Store) (log : list Statement) :
  reading_justified s0 st -> grown_from s0 s ->
  deliver_all langs events st s = (Some st', s', log) ->
  reading_justified s0 st' /\ grown_from s0 s'.
Proof.
  revert st s log. induction events as [|e events IH]; intros st s log Hst Hs; simpl.
  - unfold ret. intros H. inversion H; subst. now split.
  - unfold bind. destruct (deliver langs e st s) as [[r s1] t1] eqn:Ed.
    destruct r as [st1|].
    + destruct (deliver_safe langs s0 e st st1 s s1 t1 Hst Hs Ed) as [Hst1 Hs1].
      destruct (deliver_all langs events st1 s1) as [[r2 s2] t2] eqn:Ea.
      intros H. inversion H; subst; clear H.
      eapply IH; eauto.
    + unfold ret. intros H. inversion H.
Qed.

Lemma reading_start_justified (s : Store) : reading_justified s reading_start.
Proof. split; simpl; discriminate. Qed.

Lemma grown_from_refl (s : Store) : grown_from s s.
Proof. split; [reflexivity|]. intros a H. now left. Qed.

(** Under every schedule the alternate names that the run adds belong to
    stored places. *)
Lemma deliver_all_known langs (events : list Event) (s s' : Store) (st : Reading)
    (log : list Statement) (a : AlternateName) :
  deliver_all langs events reading_start s = (Some st, s', log) ->
  In a (alternate_names s') -> In a (alternate_names s) \/ known_place s a.
Proof.
  intros Hrun.
  destruct (deliver_all_safe langs s events reading_start st s s' log
              (reading_start_justified s) (grown_from_refl s) Hrun) as [_ [_ H]].
  apply H.
Qed.

Lemma format_search_row_name (row : SearchRow) :
  res_name (format_search_row row) = sr_name row.
Proof. unfold format_search_row. now destruct (String.eqb _ _). Qed.

(** The mapping of a city result of [search] holds the canonical name under
    ["en"] or pairs of stored alternate names of that stored place. *)
Lemma search_translations_stored (rq : SearchReq) (s : Store)
    (results : list SearchResult) (count : nat) (r : SearchResult)
    (lang name : string) :
  result (search rq s) = Ok200 results count -> In r results ->
  res_type r = "city" -> res_name_translations r !! lang = Some name ->
  (lang = "en" /\ name = res_name r)
  \/ exists a c,
       In a (alternate_names s) /\ In c (cities s)
       /\ an_geonameid a = Some (c_geonameid c)
       /\ an_isolanguage a = Some lang
       /\ an_alternate_name a = Some name.
Proof.
  intros Hok Hr Hty Hlook.
  apply search_ok_inv in Hok. destruct Hok as (q & rows & _ & Hsql & -> & _).
  apply in_fmap in Hr. destruct Hr as (row & -> & Hrow).
  rewrite format_search_row_type in Hty. rewrite format_search_row_name.
  destruct (search_city_row_inv _ _ _ _ Hsql Hrow Hty)
    as (c & co & Hc & _ & _ & ->).
  rewrite city_row_translations in Hlook.
  apply served_pair_is_stored in Hlook.
  destruct Hlook as [H|(a & Ha & Hid & Hl & Hn)]; [now left|].
  right. exists a, c. auto 10.
Qed.

(** C5: a row whose place id identifies no stored place is never stored.
    [processRow] on such a row returns 0 and leaves the store as it is;
    under every schedule of the events of [loadAlternateNames], and in its
    run in file order, every alternate name that the ingestion adds belongs
    to a stored place.  And such a row is behind no entry of a later
    search: in the rows that the statement describes, every entry of the
    translation mapping of a city result is the canonical name under
    ["en"] or the language and name of a stored alternate name of that
    stored place, while the server itself answers no search with
    results. *)
Theorem unknown_place_never_stored_nor_served :
  (forall (row : AltRow) (s : Store),
      unknown_place s row ->
      result (processRow row s) = 0 /\ final (processRow row s) = s)
  /\ (forall langs (events : list Event) (s s' : Store) (st : Reading)
             (log : list Statement) (a : AlternateName),
         deliver_all langs events reading_start s = (Some st, s', log) ->
         In a (alternate_names s') ->
         In a (alternate_names s) \/ known_place s a)
  /\ (forall langs (lines : list string) (s : Store) (a : AlternateName),
         In a (alternate_names (final (loadAlternateNames langs lines s))) ->
         In a (alternate_names s) \/ known_place s a)
  /\ (forall (rq : SearchReq) (s : Store) (results : list SearchResult)
             (count : nat) (r : SearchResult) (lang name : string),
         result (search rq s) = Ok200 results count -> In r results ->
         res_type r = "city" -> res_name_translations r !! lang = Some name ->
         (lang = "en" /\ name = res_name r)
         \/ exists a c,
              In a (alternate_names s) /\ In c (cities s)
              /\ an_geonameid a = Some (c_geonameid c)
              /\ an_isolanguage a = Some lang
              /\ an_alternate_name a = Some name)
  /\ (forall (rq : SearchReq) (s : Store) (results : list SearchResult)
             (count : nat),
         result (pg_search rq s) <> Ok200 results count).
Proof.
  split; [|split; [|split; [|split]]].
  - intros row s Hu. now rewrite processRow_unknown.
  - apply deliver_all_known.
  - apply loadAlternateNames_known.
  - apply search_translations_stored.
  - apply pg_search_never_ok.
Qed.

End Geonames.

(** * The model on concrete stores *)

(** The handlers and the loader with the executable instances. *)
Module Run.

Definition search : SearchReq -> DB (Response SearchResult) :=
  search PgTrgm.similarity PgTrgm.trgm_match String.leb.

Definition search_sql : SearchParams -> Store -> option (list SearchRow) :=
  search_sql PgTrgm.similarity PgTrgm.trgm_match String.leb.

Definition pg_search : SearchReq -> DB (Response SearchResult) :=
  pg_search PgTrgm.similarity PgTrgm.trgm_match String.leb.

Definition reverse : ReverseReq -> DB (Response ReverseResult) :=
  reverse Planar.ST_Distance Planar.ST_DWithin
          Decimal.pg_float8_in Decimal.pg_int4_in.

Definition city_of_row : CityCsvRow -> option City :=
  city_of_row Decimal.parseFloat Decimal.pg_date_in.

Definition insert_city : CityCsvRow -> Store -> option Store :=
  insert_city Decimal.parseFloat Decimal.pg_date_in.

Definition loadCitiesData : list CityCsvRow -> DB (option Z) :=
  loadCitiesData Decimal.parseFloat Decimal.pg_date_in.

(** A run of the events of [loadAlternateNames] on the dump of 250 lines,
    which [readline] emits from one chunk: the lines, the timers (the first
    of which starts [processQueue]), the 200 statements of the first batch,
    the end of the input while the second batch is awaited, and then the
    statements of the two batches in flight in turn. *)
Definition schedule_read : list Event :=
  (EvLine <$> Sample.dump250) ++ repeat EvImmediate 250.

Definition schedule_close : list Event :=
  schedule_read ++ repeat EvQueueStatement 200 ++ [EvClose].

Definition schedule250 : list Event :=
  schedule_close ++ concat (repeat [EvQueueStatement; EvCloseStatement] 200).

(** The run in which the end of the input is delivered after
    [processQueue] has returned. *)
Definition schedule_in_order : list Event :=
  schedule_read ++ repeat EvQueueStatement 400
  ++ [EvClose] ++ repeat EvCloseStatement 100.

(** The three dump lines of the examples, the second of a place that is
    not stored, read and applied by the ['close'] handler. *)
Definition schedule_orphan : list Event :=
  [EvLine Sample.line_seville; EvLine Sample.line_orphan;
   EvLine Sample.line_hispalis; EvImmediate; EvClose]
  ++ repeat EvCloseStatement 5.

End Run.

(** ** The instances meet what the properties assume *)

Lemma planar_DWithin_sound : DWithin_sound Planar.ST_Distance Planar.ST_DWithin.
Proof.
  intros p1 p2 d. unfold Planar.ST_DWithin.
  destruct (Planar.ST_Distance p1 p2) as [m|]; [|discriminate].
  intros H. exists m. split; [reflexivity|]. now apply Qle_bool_iff.
Qed.

Lemma shared_length (a b : list string) :
  NoDup a ->
  (length (PgTrgm.shared a b) <= length a)%nat
  /\ (length (PgTrgm.shared a b) <= length b)%nat.
Proof.
  intros Ha. unfold PgTrgm.shared. split.
  - apply List.filter_length_le.
  - apply NoDup_incl_length.
    + now apply List.NoDup_filter, NoDup_ListNoDup.
    + intros x Hx. apply filter_In in Hx. destruct Hx as [_ Hx].
      apply existsb_exists in Hx. destruct Hx as [y [Hy E]].
      apply String.eqb_eq in E. now subst.
Qed.

Lemma pgtrgm_similarity_range : similarity_range PgTrgm.similarity.
Proof.
  intros a b. unfold PgTrgm.similarity.
  destruct (shared_length (PgTrgm.trigrams a) (PgTrgm.trigrams b)) as [Ha Hb];
    [apply NoDup_remove_dups|].
  set (n := length (PgTrgm.shared (PgTrgm.trigrams a) (PgTrgm.trigrams b))) in *.
  set (la := length (PgTrgm.trigrams a)) in *.
  set (lb := length (PgTrgm.trigrams b)) in *.
  destruct (la + lb - n)%nat as [|u] eqn:E; [lra|].
  assert (Z.pos (Pos.of_nat (S u)) = Z.of_nat (S u)) as Hu
    by (rewrite <- positive_nat_Z, Nat2Pos.id; [reflexivity | discriminate]).
  unfold Qle. cbn [Qnum Qden]. rewrite Hu. lia.
Qed.




(** ** The properties at concrete inputs *)

(** C3 on a one-character query and on a request without [lat]. *)
Lemma validation_errors_witness :
  (String.length "a" < 2)%nat
  /\ Run.search (mkSearchReq (Some "a") None None None None) Sample.sevilla_store
     = (Err400 QueryRequiredAtLeast2Characters, Sample.sevilla_store, [])
  /\ Run.reverse (mkReverseReq None (Some "-6.0") None) Sample.sevilla_store
     = (Err400 LatAndLonRequired, Sample.sevilla_store, []).
Proof.
  destruct (validation_errors_touch_no_data
              PgTrgm.similarity PgTrgm.trgm_match String.leb
              Planar.ST_Distance Planar.ST_DWithin
              Decimal.pg_float8_in Decimal.pg_int4_in) as [Hs Hr].
  split; [simpl; lia|]. split.
  - apply Hs. intros q E. inversion E. simpl. lia.
  - apply Hr. left. reflexivity.
Defined.


(** C4 on the store that holds Sevilla: its dump rows again, both loaders
    again, and Spain seeded under a new name. *)
Lemma ingestion_is_idempotent_witness :
  execute (SqlInsertCity Sample.sevilla_csv)
          (Run.insert_city Sample.sevilla_csv) Sample.sevilla_store
  = (Some tt, Sample.sevilla_store, [SqlInsertCity Sample.sevilla_csv])
  /\ execute (SqlInsertAlternateName Sample.row_seville)
             (insert_alternate_name Sample.row_seville) Sample.sevilla_store
     = (Some tt, Sample.sevilla_store, [SqlInsertAlternateName Sample.row_seville])
  /\ Run.loadCitiesData [Sample.sevilla_csv] Sample.sevilla_store
     = (None, Sample.sevilla_store, [SqlCountCities])
  /\ loadAlternateNames None [Sample.line_seville] Sample.sevilla_store
     = (None, Sample.sevilla_store, [SqlCountAlternateNames])
  /\ upsertCountry
       (mkCountrySeed "ES" "Kingdom of Spain" (Num 40) (Num (-4)) "es"
                      {["en" := "Spain"]})
       Sample.sevilla_store
     = Some (set_countries
               [mkCountry "ES" "Kingdom of Spain"
                          (Some (Num (inject_Z 4000000000 / 100000000)))
                          (Some (Num (inject_Z (-400000000) / 100000000)))
                          (Some "es") (Some {["en" := "Spain"]})]
               Sample.sevilla_store).
Proof.
  destruct (ingestion_is_idempotent Decimal.parseFloat Decimal.pg_date_in)
    as (Hcity & Halt & Hprobe1 & Hprobe2 & _ & _ & Hseed).
  split; [|split; [|split; [|split]]].
  - eapply Hcity; [vm_compute; reflexivity | reflexivity].
  - eapply Halt; [vm_compute; reflexivity | reflexivity].
  - apply Hprobe1. discriminate.
  - apply Hprobe2. discriminate.
  - apply (Hseed _ _ Sample.spain [] [] Sample.sevilla_store);
      [vm_compute; reflexivity | reflexivity | reflexivity | intros x []].
Defined.

(** C6 on an accepted line and on a line with four fields. *)
Lemma alternate_name_rows_filtered_witness :
  In Sample.row_seville (pushed (Some ["en"; "es"]) Sample.line_seville)
  /\ (String.length (ar_isolanguage Sample.row_seville) <= 7)%nat
  /\ pushed None Sample.line_short = []
  /\ loadAlternateNames None
       ([Sample.line_seville] ++ Sample.line_short :: [Sample.line_hispalis])
       Sample.places_store
     = loadAlternateNames None
         ([Sample.line_seville] ++ [Sample.line_hispalis]) Sample.places_store.
Proof.
  destruct alternate_name_rows_filtered as (Hkept & _ & Hdrop).
  assert (In Sample.row_seville (pushed (Some ["en"; "es"]) Sample.line_seville))
    as Hin by (left; reflexivity).
  split; [exact Hin|]. split.
  - exact (proj1 (proj2 (proj2 (proj2 (Hkept _ _ _ Hin))))).
  - split; [reflexivity|]. apply Hdrop. reflexivity.
Defined.

(** C10 on Atlantis, whose country code ["ZZ"] is not stored. *)
Lemma place_without_country_witness :
  In Sample.atlantis (cities Sample.atlantis_store)
  /\ (exists results count r,
         result (Run.search (mkSearchReq (Some "Sevilla") None None None None)
                            Sample.atlantis_store) = Ok200 results count
         /\ In r results
         /\ res_country_code r <> c_country_code Sample.atlantis)
  /\ (exists results count r,
         result (Run.reverse (mkReverseReq (Some "37.4") (Some "-6.0") None)
                             Sample.atlantis_store) = Ok200 results count
         /\ In r results
         /\ rv_country_code r <> c_country_code Sample.atlantis)
  /\ (exists c,
         Run.city_of_row Sample.atlantis_csv = Some c
         /\ Run.insert_city Sample.atlantis_csv Sample.sevilla_store
            = Some (set_cities (cities Sample.sevilla_store ++ [c])
                               Sample.sevilla_store)).
Proof.
  destruct (place_without_country_never_returned
              PgTrgm.similarity PgTrgm.trgm_match String.leb
              Planar.ST_Distance Planar.ST_DWithin
              Decimal.pg_float8_in Decimal.pg_int4_in
              Decimal.parseFloat Decimal.pg_date_in) as [Hread Hinsert].
  assert (In Sample.atlantis (cities Sample.atlantis_store)) as Hin
    by (right; left; reflexivity).
  assert (forall co, In co (countries Sample.atlantis_store) ->
                     c_country_code Sample.atlantis <> Some (co_country_code co))
    as Hno by (intros co [<-|[]]; discriminate).
  destruct (Hread Sample.atlantis_store Sample.atlantis Hin Hno) as [Hs Hr].
  split; [exact Hin|]. split; [|split].
  - eassert (result (Run.search (mkSearchReq (Some "Sevilla") None None None None)
                                Sample.atlantis_store) = Ok200 [_] _) as Hrun
      by (vm_compute; reflexivity).
    eexists _, _, _. split; [exact Hrun|].
    split; [left; reflexivity|].
    exact (Hs _ _ _ _ Hrun (or_introl eq_refl)).
  - eassert (result (Run.reverse (mkReverseReq (Some "37.4") (Some "-6.0") None)
                                 Sample.atlantis_store) = Ok200 [_] _) as Hrun
      by (vm_compute; reflexivity).
    eexists _, _, _. split; [exact Hrun|].
    split; [left; reflexivity|].
    exact (Hr _ _ _ _ Hrun (or_introl eq_refl)).
  - eassert (Run.city_of_row Sample.atlantis_csv = Some _) as Hc
      by (vm_compute; reflexivity).
    eexists. split; [exact Hc|].
    exact (Hinsert Sample.sevilla_store _ _ Hc eq_refl).
Defined.

(** ** The further properties at concrete inputs *)

(** X2 on the queries ["%%"] and ["__"]. *)
Lemma wildcards_in_query_witness :
  all_of "%" "%%" = true
  /\ Str.ilike "Sevilla" "%%%%" = true
  /\ all_of "_" "__" = true
  /\ Str.ilike "X" "%__%" = false.
Proof.
  destruct wildcards_in_query_are_interpreted as [Hp Hu].
  split; [reflexivity|]. split; [exact (Hp "%%" "Sevilla" eq_refl)|].
  split; [reflexivity|]. exact (Hu "__" "X" eq_refl).
Defined.

(** X3 on the languages of Spain. *)
Lemma split_join_witness :
  Str.split "," "es-ES,ca,gl" = ["es-ES"; "ca"; "gl"]
  /\ join "," (Str.split "," "es-ES,ca,gl") = "es-ES,ca,gl"
  /\ ["es-ES"; "ca"] <> []
  /\ Str.split "," (join "," ["es-ES"; "ca"]) = ["es-ES"; "ca"]
  /\ exists l,
       res_spoken_languages
         (format_search_row
            (mkSearchRow "country" None "Spain" (Some "Spain") (Some "ES") "Spain"
                         None None None (Some "es-ES,ca,gl") None 80 None))
       = Some l
       /\ join "," l = "es-ES,ca,gl".
Proof.
  destruct (split_join_round_trip ",") as (Hs & Hj & Hrow).
  split; [reflexivity|]. split; [exact (proj1 (Hs "es-ES,ca,gl"))|].
  split; [discriminate|]. split.
  - apply Hj; [discriminate|]. repeat constructor.
  - apply Hrow; [discriminate | reflexivity | discriminate].
Defined.

(** X4 on the demo key: a wrong header is refused although the parameter
    holds the key, and the key in the parameter alone is let through. *)
Lemma api_key_guard_witness :
  search_route PgTrgm.similarity PgTrgm.trgm_match String.leb
    (validApiKeys None) (Some "wrong") (Some "demo-key-12345")
    (mkSearchReq (Some "Sevilla") None None None None) Sample.sevilla_store
  = (Unauthorized401, Sample.sevilla_store, [])
  /\ result (authenticateApiKey (validApiKeys None) None (Some "demo-key-12345")
               (Run.search (mkSearchReq (Some "Sevilla") None None None None))
               Sample.sevilla_store)
     = Next (result (Run.search (mkSearchReq (Some "Sevilla") None None None None)
                                Sample.sevilla_store)).
Proof.
  destruct (api_key_guard PgTrgm.similarity PgTrgm.trgm_match String.leb)
    as (_ & Hpass & Hhead & Hdemo).
  rewrite (Hdemo None eq_refl). split.
  - apply Hhead; [discriminate|]. intros [E|[]]. discriminate.
  - apply (Hpass _ _ None (Some "demo-key-12345") _ _ "demo-key-12345");
      [reflexivity | discriminate | now left].
Defined.

(** X1 on the query ["sev"] and the name "Sevilla". *)
Lemma substring_match_witness :
  Str.ascii_only "sev" = true /\ Str.ascii_only "Sevilla" = true
  /\ literal "sev" = true
  /\ Str.ilike "Sevilla" "%sev%" = true
  /\ contains (Str.toLowerCase "Sevilla") (Str.toLowerCase "sev").
Proof.
  destruct (substring_match_ignores_case "sev" "Sevilla" eq_refl eq_refl eq_refl)
    as (H & _ & _).
  split; [reflexivity|]. split; [reflexivity|]. split; [reflexivity|].
  split; [reflexivity|]. apply H. reflexivity.
Defined.

(** X10 on the three places around Sevilla, all within 50 km. *)
Lemma results_list_each_place_once_witness :
  unique_places Sample.near_store /\ unique_countries Sample.near_store
  /\ exists rows,
       reverse_sql Planar.ST_Distance Planar.ST_DWithin
                   Decimal.pg_float8_in Decimal.pg_int4_in
                   "37.4" "-6.0" (JNum (Num 50)) Sample.near_store = Some rows
       /\ List.map rr_geonameid rows = [2520118; 2510911; 2518559]
       /\ List.NoDup (List.map rr_geonameid rows).
Proof.
  assert (unique_places Sample.near_store) as Hp
    by (apply NoDup_ListNoDup; refine (bool_decide_unpack _ _); vm_compute; exact I).
  assert (unique_countries Sample.near_store) as Hc
    by (apply NoDup_ListNoDup; refine (bool_decide_unpack _ _); vm_compute; exact I).
  split; [exact Hp|]. split; [exact Hc|].
  eassert (reverse_sql Planar.ST_Distance Planar.ST_DWithin
                       Decimal.pg_float8_in Decimal.pg_int4_in
                       "37.4" "-6.0" (JNum (Num 50)) Sample.near_store
           = Some [_; _; _])
    as Hsql by (vm_compute; reflexivity).
  eexists. split; [exact Hsql|]. split; [reflexivity|].
  exact (results_list_each_place_once
           Planar.ST_Distance Planar.ST_DWithin
           Decimal.pg_float8_in Decimal.pg_int4_in
           Sample.near_store Hp Hc _ _ _ _ Hsql).
Defined.

(** X11 on a lookup with the radius 10 between Camas and Sevilla: Dos
    Hermanas, 21.85 km away in the planar metric, is left out. *)
Lemma reverse_distances_witness :
  DWithin_sound Planar.ST_Distance Planar.ST_DWithin
  /\ exists results,
       result (Run.reverse (mkReverseReq (Some "37.4") (Some "-6.0") (Some "10"))
                           Sample.near_store) = Ok200 results 2
       /\ (rv_name <$> results) = ["Camas"; "Sevilla"]
       /\ (rv_distance_km <$> results) = [Some 391; Some 490]
       /\ StronglySorted
            (fun a b => exists x y, rv_distance_km a = Some x
                                    /\ rv_distance_km b = Some y /\ x <= y)
            results
       /\ exists r,
            Decimal.pg_int4_in "10" = Some r
            /\ forall a, In a results ->
                         exists x, rv_distance_km a = Some x /\ x <= 100 * r.
Proof.
  split; [exact planar_DWithin_sound|].
  eassert (result (Run.reverse (mkReverseReq (Some "37.4") (Some "-6.0") (Some "10"))
                               Sample.near_store) = Ok200 [_; _] 2) as Hrun
    by (vm_compute; reflexivity).
  eexists. split; [exact Hrun|]. split; [reflexivity|]. split; [reflexivity|].
  exact (reverse_distances_printed_in_order
           Planar.ST_Distance Planar.ST_DWithin
           Decimal.pg_float8_in Decimal.pg_int4_in
           planar_DWithin_sound _ _ _ _ Hrun).
Defined.

(** X12 on the store with Spain and Sevilla, before and after the alternate
    names of the dump. *)
Lemma ingestion_keeps_store_well_formed_witness :
  store_ok Sample.places_store
  /\ store_ok (final (loadAlternateNames None
                        [Sample.line_seville; Sample.line_seville;
                         Sample.line_orphan]
                        Sample.places_store)).
Proof.
  assert (store_ok Sample.places_store) as Hs.
  { repeat split; try (apply NoDup_ListNoDup; refine (bool_decide_unpack _ _);
                       vm_compute; exact I).
    constructor. }
  split; [exact Hs|].
  apply (ingestion_keeps_store_well_formed
           Decimal.parseFloat Decimal.pg_date_in _ Hs).
Defined.

(** X16 on the value ["en, ALL"]. *)
Lemma language_allow_list_witness :
  In " ALL" (Str.split "," "en, ALL")
  /\ Str.toLowerCase (Str.trim " ALL") = "all"
  /\ loadAlternateNames (SUPPORTED_LANGUAGES (Some "en, ALL"))
       [Sample.line_seville; Sample.line_hispalis] Sample.places_store
     = loadAlternateNames None
         [Sample.line_seville; Sample.line_hispalis] Sample.places_store.
Proof.
  destruct language_allow_list as (_ & Hall & _).
  assert (In " ALL" (Str.split "," "en, ALL")) as Hin by (right; left; reflexivity).
  split; [exact Hin|]. split; [reflexivity|].
  apply (Hall "en, ALL" " ALL"); [discriminate | exact Hin | reflexivity].
Defined.

(** X17 on the five seeds of the second version and the empty store. *)
Lemma seeding_countries_witness :
  List.NoDup (List.map seed_code Seeds.countries_second)
  /\ result (loadCountriesData Seeds.countries_second empty_store) = Some tt
  /\ length (countries (final (loadCountriesData Seeds.countries_second empty_store)))
     = 5%nat
  /\ final (loadCountriesData Seeds.countries_second
              (final (loadCountriesData Seeds.countries_second empty_store)))
     = final (loadCountriesData Seeds.countries_second empty_store).
Proof.
  assert (List.NoDup (List.map seed_code Seeds.countries_second)) as Hnd
    by (apply NoDup_ListNoDup; refine (bool_decide_unpack _ _); vm_compute; exact I).
  assert (result (loadCountriesData Seeds.countries_second empty_store) = Some tt)
    as Hok by (vm_compute; reflexivity).
  destruct (seeding_countries Seeds.countries_second empty_store) as [_ H].
  destruct (H Hnd Hok) as [_ Htwice].
  split; [exact Hnd|]. split; [exact Hok|]. split; [reflexivity|].
  now rewrite Htwice.
Defined.

(** X18 on the five seeds, two places and three lines of alternate names. *)
Lemma import_can_be_rerun_witness :
  store_ok empty_store
  /\ List.NoDup (List.map seed_code Seeds.countries_second)
  /\ (main Decimal.parseFloat Decimal.pg_date_in Seeds.countries_second
           [Sample.sevilla_csv; Sample.atlantis_csv] None
           [Sample.line_seville; Sample.line_hispalis; Sample.line_orphan]
           empty_store).1.1 = 0
  /\ store_ok
       (main Decimal.parseFloat Decimal.pg_date_in Seeds.countries_second
             [Sample.sevilla_csv; Sample.atlantis_csv] None
             [Sample.line_seville; Sample.line_hispalis; Sample.line_orphan]
             empty_store).1.2
  /\ (main Decimal.parseFloat Decimal.pg_date_in Seeds.countries_second
           [Sample.sevilla_csv; Sample.atlantis_csv] None
           [Sample.line_seville; Sample.line_hispalis; Sample.line_orphan]
           (main Decimal.parseFloat Decimal.pg_date_in Seeds.countries_second
                 [Sample.sevilla_csv; Sample.atlantis_csv] None
                 [Sample.line_seville; Sample.line_hispalis; Sample.line_orphan]
                 empty_store).1.2).1.2
     = (main Decimal.parseFloat Decimal.pg_date_in Seeds.countries_second
             [Sample.sevilla_csv; Sample.atlantis_csv] None
             [Sample.line_seville; Sample.line_hispalis; Sample.line_orphan]
             empty_store).1.2.
Proof.
  assert (store_ok empty_store) as Hs
    by (repeat split; constructor).
  assert (List.NoDup (List.map seed_code Seeds.countries_second)) as Hnd
    by (apply NoDup_ListNoDup; refine (bool_decide_unpack _ _); vm_compute; exact I).
  destruct (import_can_be_rerun Decimal.parseFloat Decimal.pg_date_in
              Seeds.countries_second [Sample.sevilla_csv; Sample.atlantis_csv] None
              [Sample.line_seville; Sample.line_hispalis; Sample.line_orphan]
              empty_store) as (_ & Hok & Hagain).
  assert ((main Decimal.parseFloat Decimal.pg_date_in Seeds.countries_second
                [Sample.sevilla_csv; Sample.atlantis_csv] None
                [Sample.line_seville; Sample.line_hispalis; Sample.line_orphan]
                empty_store).1.1 = 0) as H0 by (vm_compute; reflexivity).
  split; [exact Hs|]. split; [exact Hnd|]. split; [exact H0|].
  split; [exact (Hok Hs)|]. exact (proj2 (Hagain Hnd H0)).
Defined.

(** X19 on the latitude of Sevilla and on a latitude of 100. *)
Lemma coordinates_witness :
  (-90 <= 3738283 # 100000 <= 90)%Q
  /\ (exists q', decimal8_in 2 (Num (3738283 # 100000)) = Some (Num q')
                 /\ (Qabs (q' - (3738283 # 100000)) <= 1 # 200000000)%Q)
  /\ Run.city_of_row
       (mkCityCsvRow (Some "7") (Some "Nowhere") None None (Some "100")
                     (Some "0") None None None None None None None None)
     = None.
Proof.
  destruct (coordinates_fit_their_columns Decimal.parseFloat Decimal.pg_date_in)
    as (Hlat & _ & Hover).
  assert (-90 <= 3738283 # 100000 <= 90)%Q as Hq by (split; lra).
  split; [exact Hq|]. split; [exact (Hlat _ Hq)|].
  apply (Hover _ 100%Q). left. split; [reflexivity|].
  rewrite Qabs_pos; lra.
Defined.

(** X21 on the store with Sevilla and Atlantis. *)
Lemma admin_region_witness :
  List.Forall (fun c => c_admin1_name c = None) (cities Sample.atlantis_store)
  /\ exists r,
       result (Run.search (mkSearchReq (Some "Sevilla") None None None None)
                          Sample.atlantis_store) = Ok200 [r] 1
       /\ res_type r = "city"
       /\ res_admin_region r = Some None.
Proof.
  assert (List.Forall (fun c => c_admin1_name c = None)
                      (cities Sample.atlantis_store)) as Hs
    by (repeat constructor).
  split; [exact Hs|].
  destruct (admin_region_is_never_loaded
              PgTrgm.similarity PgTrgm.trgm_match String.leb
              Planar.ST_Distance Planar.ST_DWithin
              Decimal.pg_float8_in Decimal.pg_int4_in
              Decimal.parseFloat Decimal.pg_date_in
              Sample.atlantis_store Hs) as (_ & Hsearch & _).
  eassert (result (Run.search (mkSearchReq (Some "Sevilla") None None None None)
                              Sample.atlantis_store) = Ok200 [_] 1) as Hrun
    by (vm_compute; reflexivity).
  eexists. split; [exact Hrun|]. split; [reflexivity|].
  exact (Hsearch _ _ _ _ Hrun (or_introl eq_refl) eq_refl).
Defined.

(** X22 on the two Congos without rows of alternate names: the exact match
    scores higher than the substring match. *)
Lemma country_ladder_witness :
  similarity_range PgTrgm.similarity
  /\ tier_rank (country_tier (mkStore [Sample.congo_cd; Sample.congo_cg] [] [] [])
                             "republic of the congo" "%republic of the congo%"
                             Sample.congo_cd)
     < tier_rank (country_tier (mkStore [Sample.congo_cd; Sample.congo_cg] [] [] [])
                               "republic of the congo" "%republic of the congo%"
                               Sample.congo_cg)
  /\ (country_score PgTrgm.similarity
                    (mkStore [Sample.congo_cd; Sample.congo_cg] [] [] [])
                    "republic of the congo" "%republic of the congo%"
                    Sample.congo_cd []
      < country_score PgTrgm.similarity
                      (mkStore [Sample.congo_cd; Sample.congo_cg] [] [] [])
                      "republic of the congo" "%republic of the congo%"
                      Sample.congo_cg [])%Q.
Proof.
  destruct (country_ladder_without_alternate_names
              PgTrgm.similarity Decimal.parseFloat Decimal.pg_date_in)
    as [_ Hladder].
  assert (tier_rank (country_tier (mkStore [Sample.congo_cd; Sample.congo_cg] [] [] [])
                                  "republic of the congo" "%republic of the congo%"
                                  Sample.congo_cd)
          < tier_rank (country_tier
                         (mkStore [Sample.congo_cd; Sample.congo_cg] [] [] [])
                         "republic of the congo" "%republic of the congo%"
                         Sample.congo_cg)) as Hlt by (vm_compute; reflexivity).
  split; [exact pgtrgm_similarity_range|]. split; [exact Hlt|].
  exact (Hladder pgtrgm_similarity_range
                 (mkStore [Sample.congo_cd; Sample.congo_cg] [] [] [])
                 _ _ _ _ [] [] eq_refl Hlt).
Defined.

(** X25 on the limits ["5abc"] and ["abc"]. *)
Lemma parseInt_witness :
  Str.parseInt "5abc" = Str.parseInt "5"
  /\ Str.parseInt "5" = Some 5
  /\ Run.search (mkSearchReq (Some "Sevilla") None None None (Some "abc"))
                Sample.sevilla_store
     = (Err500, Sample.sevilla_store,
        [SqlSearch (search_params "Sevilla"
                      (mkSearchReq (Some "Sevilla") None None None (Some "abc")))]).
Proof.
  destruct (parseInt_reads_the_leading_number
              PgTrgm.similarity PgTrgm.trgm_match String.leb) as (Hlead & _ & H500).
  split; [|split; [reflexivity|]].
  - exact (proj1 (Hlead "5" "a"%char "bc" ltac:(discriminate) eq_refl eq_refl
                        eq_refl)).
  - apply (H500 _ "Sevilla" "a"%char "bc"); try reflexivity; try discriminate.
    simpl. lia.
Defined.

(** X26 on a radius of three million kilometers. *)
Lemma reverse_radius_witness :
  radius_value Decimal.pg_int4_in
    (reverse_radius (mkReverseReq (Some "37.4") (Some "-6.0") (Some "3000000")))
  = Some 3000000
  /\ Run.reverse (mkReverseReq (Some "37.4") (Some "-6.0") (Some "3000000"))
                 Sample.sevilla_store
     = (Err500, Sample.sevilla_store,
        [SqlReverse "37.4" "-6.0" (JStr "3000000")]).
Proof.
  destruct (reverse_radius_limits Planar.ST_Distance Planar.ST_DWithin
              Decimal.pg_float8_in Decimal.pg_int4_in) as [_ H].
  assert (radius_value Decimal.pg_int4_in
            (reverse_radius (mkReverseReq (Some "37.4") (Some "-6.0")
                                          (Some "3000000")))
          = Some 3000000) as Hr by (vm_compute; reflexivity).
  split; [exact Hr|].
  exact (H (mkReverseReq (Some "37.4") (Some "-6.0") (Some "3000000"))
           "37.4" "-6.0" 3000000 Sample.sevilla_store
           eq_refl ltac:(discriminate) eq_refl ltac:(discriminate) Hr
           (or_introl eq_refl)).
Defined.

(** X28 on a lookup near Sevilla. *)
Lemma reverse_returns_the_nearest_witness :
  exists rows la lo r,
    reverse_sql Planar.ST_Distance Planar.ST_DWithin
                Decimal.pg_float8_in Decimal.pg_int4_in
                "37.4" "-6.0" (JNum (Num 50)) Sample.atlantis_store = Some rows
    /\ length rows
       = Nat.min 5 (length (reverse_candidates Planar.ST_Distance Planar.ST_DWithin
                              lo la (inject_Z (r * 1000)) Sample.atlantis_store)).
Proof.
  eassert (reverse_sql Planar.ST_Distance Planar.ST_DWithin
                       Decimal.pg_float8_in Decimal.pg_int4_in
                       "37.4" "-6.0" (JNum (Num 50)) Sample.atlantis_store
           = Some [_]) as Hsql by (vm_compute; reflexivity).
  destruct (reverse_returns_the_nearest
              Planar.ST_Distance Planar.ST_DWithin
              Decimal.pg_float8_in Decimal.pg_int4_in _ _ _ _ _ Hsql)
    as (la & lo & r & _ & _ & _ & Hlen & _).
  eexists _, la, lo, r. split; [exact Hsql | exact Hlen].
Defined.

(** X29 on the two dump lines of Sevilla under the allow-list ["la"]: the
    Latin name is stored, and it passes the filter. *)
Lemma stored_alternate_names_witness :
  In Sample.hispalis_la
     (alternate_names
        (final (loadAlternateNames (Some ["la"])
                  [Sample.line_seville; Sample.line_hispalis]
                  Sample.places_store)))
  /\ ~ In Sample.seville_en
          (alternate_names
             (final (loadAlternateNames (Some ["la"])
                       [Sample.line_seville; Sample.line_hispalis]
                       Sample.places_store)))
  /\ (In Sample.hispalis_la (alternate_names Sample.places_store)
      \/ exists line row,
           In line [Sample.line_seville; Sample.line_hispalis]
           /\ row_of_columns (Str.split tab line) = Some row
           /\ an_isolanguage Sample.hispalis_la = Some (ar_isolanguage row)
           /\ an_alternate_name Sample.hispalis_la = Some (ar_alternate_name row)
           /\ ar_isolanguage row <> EmptyString
           /\ (String.length (ar_isolanguage row) <= 7)%nat
           /\ ar_alternate_name row <> EmptyString
           /\ (String.length (ar_alternate_name row) <= 400)%nat
           /\ int4_ok (an_alternatenameid Sample.hispalis_la) = true
           /\ forall l, Some ["la"] = Some l ->
                        In (Str.toLowerCase (ar_isolanguage row)) l \/ In "all" l).
Proof.
  assert (alternate_names
            (final (loadAlternateNames (Some ["la"])
                      [Sample.line_seville; Sample.line_hispalis]
                      Sample.places_store)) = [Sample.hispalis_la]) as E
    by (vm_compute; reflexivity).
  assert (In Sample.hispalis_la
             (alternate_names
                (final (loadAlternateNames (Some ["la"])
                          [Sample.line_seville; Sample.line_hispalis]
                          Sample.places_store)))) as Hin
    by (rewrite E; left; reflexivity).
  split; [exact Hin|]. split.
  - rewrite E. intros [H|[]]. discriminate.
  - exact (stored_alternate_names_pass_the_filter _ _ _ _ Hin).
Defined.

(** ** The search on the server *)

(** C8, at a search that should return Sevilla with its translation
    mapping: the server sends the statement and answers 500, as it does
    for every valid query, so no translation mapping is ever returned.
    The statement is rejected because [name_translations_agg] is a [json]
    value in the city branch and a [jsonb] column in the country branch of
    the [UNION ALL].  The formatting code itself puts an ["en"] entry into
    the mapping of every city row that it is given. *)
Theorem search_for_sevilla_answers_500 :
  Run.pg_search (mkSearchReq (Some "Sevilla") None None None None)
                Sample.sevilla_store
  = (Err500, Sample.sevilla_store,
     [SqlSearch (mkSearchParams "Sevilla" "%Sevilla%" None None (Some 20))])
  /\ (forall rq s results count,
         result (Run.pg_search rq s) <> Ok200 results count)
  /\ search_results_columns = None
  /\ (List.filter (fun c => match union_type c.1.2 c.2.2 with
                            | Some _ => false
                            | None => true
                            end)
                  (zip search_city_columns search_country_columns)
      = [("name_translations_agg", PgJson, ("name_translations_agg", PgJsonb))])
  /\ (forall row, sr_type row = "city" ->
                  is_Some (res_name_translations (format_search_row row) !! "en")).
Proof.
  split; [reflexivity|]. split; [|split; [reflexivity|split; [reflexivity|]]].
  - intros rq s results count. apply pg_search_never_ok.
  - intros row Hty. unfold format_search_row. rewrite Hty.
    change (String.eqb "city" "city") with true. cbv iota.
    cbn [res_name_translations].
    destruct (Str.truthy_opt (default ∅ (sr_name_translations_agg row) !! "en"))
      eqn:E; cbn [negb].
    + destruct (default ∅ (sr_name_translations_agg row) !! "en") as [v|];
        [eauto | discriminate].
    + rewrite lookup_insert_eq. eauto.
Qed.

(** ** The loader under the event loop *)

(** C7, on a dump of 250 lines that [readline] emits from one chunk.  After
    the lines are read, all 250 are queued and none is applied.  When the
    end of the input is delivered while [processQueue] awaits its second
    batch, the ['close'] handler applies that same batch: two batches are
    in flight.  At the end the handler has printed the count 300, the
    table holds 200 rows, 300 [SELECT]s were sent, and the last 50 rows
    lie in [batch] with nothing left that would apply them.  Had the end
    of the input been delivered after [processQueue] had returned, the
    count were 250 and the table held 250 rows, as in the run in file
    order. *)
Theorem close_during_a_batch :
  option_map (fun st : Reading => length (rd_lineQueue st))
             (result (deliver_all None (EvLine <$> Sample.dump250)
                                  reading_start Sample.places_store))
  = Some 250%nat
  /\ trace (deliver_all None (EvLine <$> Sample.dump250)
                        reading_start Sample.places_store) = []
  /\ option_map two_in_flight
                (result (deliver_all None Run.schedule_close
                                     reading_start Sample.places_store))
     = Some true
  /\ option_map (fun st : Reading =>
                   (option_map if_rows (rd_awaited st),
                    match rd_close st with
                    | CloseAwaitsBatch b => Some (if_rows b)
                    | _ => None
                    end))
                (result (deliver_all None Run.schedule_close
                                     reading_start Sample.places_store))
     = Some (Some (accepted None (take 100 (drop 100 Sample.dump250))),
             Some (accepted None (take 100 (drop 100 Sample.dump250))))
  /\ option_map (fun st : Reading =>
                   (rd_close st, length (ld_batch (rd_loader st)),
                    rd_lineQueue st, rd_awaited st, rd_immediates st,
                    rd_isProcessing st))
                (result (deliver_all None Run.schedule250
                                     reading_start Sample.places_store))
     = Some (CloseResolved 300, 50%nat, [], None, 0%nat, false)
  /\ length (alternate_names
               (final (deliver_all None Run.schedule250
                                   reading_start Sample.places_store))) = 200%nat
  /\ SelectCity_sent (trace (deliver_all None Run.schedule250
                                         reading_start Sample.places_store))
     = 300%nat
  /\ option_map rd_close
                (result (deliver_all None Run.schedule_in_order
                                     reading_start Sample.places_store))
     = Some (CloseResolved 250)
  /\ final (deliver_all None Run.schedule_in_order
                        reading_start Sample.places_store)
     = final (loadAlternateNames None Sample.dump250 Sample.places_store)
  /\ result (loadAlternateNames None Sample.dump250 Sample.places_store)
     = Some 250
  /\ length (alternate_names
               (final (loadAlternateNames None Sample.dump250
                                          Sample.places_store))) = 250%nat.
Proof.
  split; [vm_compute; reflexivity|].
  split; [vm_compute; reflexivity|].
  split; [vm_compute; reflexivity|].
  split; [vm_compute; reflexivity|].
  split; [vm_compute; reflexivity|].
  split; [vm_compute; reflexivity|].
  split; [vm_compute; reflexivity|].
  split; [vm_compute; reflexivity|].
  split; [vm_compute; reflexivity|].
  split; vm_compute; reflexivity.
Qed.

(** ** The properties of the claims at concrete inputs *)


(** C2 on a lookup with the radius 10 between Camas and Sevilla: both are
    returned, nearest first, and Dos Hermanas, 21.85 km away in the planar
    metric and within the default radius, is left out. *)
Lemma reverse_nearest_within_radius_witness :
  DWithin_sound Planar.ST_Distance Planar.ST_DWithin
  /\ (exists results,
         result (Run.reverse (mkReverseReq (Some "37.4") (Some "-6.0") None)
                             Sample.near_store) = Ok200 results 3
         /\ (rv_name <$> results) = ["Camas"; "Sevilla"; "Dos Hermanas"])
  /\ exists results r rows,
       result (Run.reverse (mkReverseReq (Some "37.4") (Some "-6.0") (Some "10"))
                           Sample.near_store) = Ok200 results 2
       /\ Decimal.pg_int4_in "10" = Some r
       /\ r = 10
       /\ results = format_reverse_row <$> rows
       /\ (length results <= 5)%nat
       /\ (rv_name <$> results) = ["Camas"; "Sevilla"]
       /\ (rv_distance_km <$> results) = [Some 391; Some 490]
       /\ StronglySorted
            (fun a b => num_le (rr_distance_km a) (rr_distance_km b) = true) rows.
Proof.
  split; [exact planar_DWithin_sound|]. split.
  - eexists. split; [vm_compute; reflexivity | reflexivity].
  - eassert (result (Run.reverse
                       (mkReverseReq (Some "37.4") (Some "-6.0") (Some "10"))
                       Sample.near_store) = Ok200 [_; _] 2) as Hrun
      by (vm_compute; reflexivity).
    destruct (reverse_nearest_within_radius
                Planar.ST_Distance Planar.ST_DWithin
                Decimal.pg_float8_in Decimal.pg_int4_in
                planar_DWithin_sound _ _ _ _ Hrun)
      as (lat & lon & la & lo & r & rows & _ & _ & _ & _ & Hr
          & Hfmt & _ & Hlen & _ & Hsorted).
    cbn [rv_radius] in Hr.
    eexists _, r, rows. split; [exact Hrun|]. split; [exact Hr|].
    split; [vm_compute in Hr; now inversion Hr|].
    split; [exact Hfmt|]. split; [exact Hlen|].
    split; [reflexivity|]. split; [reflexivity | exact Hsorted].
Defined.

(** C5 on a dump line whose place id 999 is not stored, between the two
    lines of Sevilla. *)
Lemma unknown_place_witness :
  unknown_place Sample.places_store Sample.row_orphan
  /\ result (processRow Sample.row_orphan Sample.places_store) = 0
  /\ final (processRow Sample.row_orphan Sample.places_store) = Sample.places_store
  /\ (exists st log,
         deliver_all None Run.schedule_orphan reading_start Sample.places_store
         = (Some st, Sample.sevilla_store, log)
         /\ rd_close st = CloseResolved 2
         /\ SelectCity_sent log = 3%nat
         /\ (In Sample.hispalis_la (alternate_names Sample.places_store)
             \/ known_place Sample.places_store Sample.hispalis_la))
  /\ (exists results r,
         result (Run.search (mkSearchReq (Some "Hispalis") None None None None)
                            Sample.sevilla_store) = Ok200 results 1
         /\ In r results
         /\ res_name_translations r !! "la" = Some "Hispalis"
         /\ (("la" = "en" /\ "Hispalis" = res_name r)
             \/ exists a c,
                  In a (alternate_names Sample.sevilla_store)
                  /\ In c (cities Sample.sevilla_store)
                  /\ an_geonameid a = Some (c_geonameid c)
                  /\ an_isolanguage a = Some "la"
                  /\ an_alternate_name a = Some "Hispalis"))
  /\ result (Run.pg_search (mkSearchReq (Some "Hispalis") None None None None)
                           Sample.sevilla_store) = Err500.
Proof.
  destruct (unknown_place_never_stored_nor_served
              PgTrgm.similarity PgTrgm.trgm_match String.leb)
    as (Hrow & Hrun & _ & Hserved & _).
  assert (unknown_place Sample.places_store Sample.row_orphan) as Hu.
  { intros id E. vm_compute in E. inversion E. reflexivity. }
  split; [exact Hu|].
  split; [exact (proj1 (Hrow _ _ Hu))|].
  split; [exact (proj2 (Hrow _ _ Hu))|].
  split; [|split; [|reflexivity]].
  - eassert (deliver_all None Run.schedule_orphan reading_start Sample.places_store
             = (Some _, Sample.sevilla_store, _)) as Hev
      by (vm_compute; reflexivity).
    eexists _, _. split; [exact Hev|]. split; [reflexivity|].
    split; [reflexivity|].
    apply (Hrun None Run.schedule_orphan Sample.places_store _ _ _ _ Hev).
    right. left. reflexivity.
  - eassert (result (Run.search (mkSearchReq (Some "Hispalis") None None None None)
                                Sample.sevilla_store) = Ok200 [_] 1) as Hok
      by (vm_compute; reflexivity).
    eexists _, _. split; [exact Hok|]. split; [left; reflexivity|].
    match goal with
    | |- ?l = _ /\ _ =>
        assert (l = Some "Hispalis") as Hlook by (vm_compute; reflexivity)
    end.
    split; [exact Hlook|].
    exact (Hserved _ _ _ _ _ _ _ Hok (or_introl eq_refl) eq_refl Hlook).
Defined.

